(** * The MS-RRP remote-registry codec of go-smb (package msrrp)

    A shallow embedding of the NDR string codec and of the operation
    catalogue of package msrrp, with the properties of its specification.

    Conventions of the embedding.
    - A fixed-width unsigned integer is a [Z]; every conversion and every
      arithmetic operation that can wrap is written out with [uint16] or
      [uint32].
    - A byte is a [Z] in [0, 256); a byte slice is a [list Z].
    - The [io.Writer] handed to every encoder is a [*bytes.Buffer], whose
      [Write] never returns an error: [binary.Write] of a fixed-size value
      is an append, and the [if err != nil] branch that follows it in the
      source is dead. The buffer is threaded explicitly.
    - A [*bytes.Reader] is a record of the slice and the read index,
      threaded explicitly; a function returns its named results the way the
      Go function does, the error included.
    - Calls to the logger ([log.Errorln]) have no effect on any result and
      are left out.

    The SMB1 negotiate messages of package smb (smb1.go) are embedded in the
    same way, after the operation catalogue. *)

From Stdlib Require Import ZArith List Lia Bool String Ascii DecimalString.
Import ListNotations.
Open Scope Z_scope.

Set Implicit Arguments.

(** ** Integers, bytes and byte order *)

Definition byte := Z.
Definition bytes := list byte.

Definition uint16 (x : Z) : Z := x mod 65536.
Definition uint32 (x : Z) : Z := x mod 4294967296.

(** [len] of a slice, as an integer. *)
Definition blen (b : bytes) : Z := Z.of_nat (List.length b).

(** [make([]byte, n)]: [n] zero bytes. *)
Definition make (n : Z) : bytes := repeat 0 (Z.to_nat n).

(** [encoding/binary]'s [ByteOrder]; the package declares [le] and [be]. *)
Inductive ByteOrder := LittleEndian | BigEndian.
Definition le := LittleEndian.
Definition be := BigEndian.

Definition PutUint16 (bo : ByteOrder) (x : Z) : bytes :=
  match bo with
  | LittleEndian => [x mod 256; (x / 256) mod 256]
  | BigEndian => [(x / 256) mod 256; x mod 256]
  end.

Definition PutUint32 (bo : ByteOrder) (x : Z) : bytes :=
  match bo with
  | LittleEndian =>
      [x mod 256; (x / 256) mod 256; (x / 65536) mod 256; (x / 16777216) mod 256]
  | BigEndian =>
      [(x / 16777216) mod 256; (x / 65536) mod 256; (x / 256) mod 256; x mod 256]
  end.

(** [le.Uint16] and [le.Uint32] of a slice that is long enough ([None] where
    Go's bounds check panics). *)
Definition Uint16 (b : bytes) : option Z :=
  match b with
  | b0 :: b1 :: _ => Some (b0 + 256 * b1)
  | _ => None
  end.

Definition Uint32 (b : bytes) : option Z :=
  match b with
  | b0 :: b1 :: b2 :: b3 :: _ => Some (b0 + 256 * b1 + 65536 * b2 + 16777216 * b3)
  | _ => None
  end.

(** ** Errors *)

(** [io.EOF], [io.ErrUnexpectedEOF], and an error made by [fmt.Errorf] (or by
    a package outside this one), which is its message. *)
Inductive error :=
| EOF
| ErrUnexpectedEOF
| Errorf (msg : string).

(** The three failure kinds the package reports by message. *)
Definition isNotImplemented (e : error) : bool :=
  match e with
  | Errorf m => String.prefix "NOT IMPLEMENTED " m
  | _ => false
  end.

Definition isInvalidHandleLength (e : error) : bool :=
  match e with
  | Errorf m => String.prefix "Invalid length of HKey in " m
  | _ => false
  end.

Definition isBufferTooShort (e : error) : bool :=
  match e with
  | Errorf m =>
      String.prefix "Buffer too short " m || String.prefix "Buffer to short " m
      || String.prefix "Buffer too small " m
  | _ => false
  end.

(** ** [bytes.Reader] *)

(** The slice being read ([rs]) and the current read index ([ri]). *)
Record Reader := { rs : bytes; ri : Z }.

Definition NewReader (buf : bytes) : Reader := {| rs := buf; ri := 0 |}.

(** The unread part of the slice; empty once the index is at or past the
    end (a seek may move it there). *)
Definition unread (r : Reader) : bytes :=
  if blen (rs r) <=? ri r then [] else skipn (Z.to_nat (ri r)) (rs r).

Inductive whence := SeekStart | SeekCurrent | SeekEnd.

(** [Seek] of a [bytes.Reader]: fails only on a negative position. *)
Definition Seek (offset : Z) (wh : whence) (r : Reader) : Reader * option error :=
  let abs :=
    match wh with
    | SeekStart => offset
    | SeekCurrent => ri r + offset
    | SeekEnd => blen (rs r) + offset
    end in
  if abs <? 0 then (r, Some (Errorf "bytes.Reader.Seek: negative position"))
  else ({| rs := rs r; ri := abs |}, None).

(** [io.ReadFull(r, make([]byte, n))], as [binary.Read] calls it: [io.EOF]
    when nothing is left, [io.ErrUnexpectedEOF] (the rest being consumed) when
    fewer than [n] bytes are. *)
Definition ReadFull (n : Z) (r : Reader) : Reader * (bytes * option error) :=
  if n <=? 0 then (r, ([], None))
  else
    let av := unread r in
    if blen av =? 0 then (r, ([], Some EOF))
    else if blen av <? n then ({| rs := rs r; ri := blen (rs r) |}, (av, Some ErrUnexpectedEOF))
    else ({| rs := rs r; ri := ri r + n |}, (firstn (Z.to_nat n) av, None)).

(** [binary.Read(r, bo, &x)] for [x] a [uint16] or a [uint32]: [x] keeps its
    old value when the read fails. *)
Definition GetUint16 (bo : ByteOrder) (b : bytes) : option Z :=
  match bo with
  | LittleEndian => Uint16 b
  | BigEndian => Uint16 (rev (firstn 2 b))
  end.

Definition GetUint32 (bo : ByteOrder) (b : bytes) : option Z :=
  match bo with
  | LittleEndian => Uint32 b
  | BigEndian => Uint32 (rev (firstn 4 b))
  end.

Definition Read_uint16 (bo : ByteOrder) (old : Z) (r : Reader) : Reader * (Z * option error) :=
  let '(r', (bs, err)) := ReadFull 2 r in
  match err, GetUint16 bo bs with
  | None, Some v => (r', (v, None))
  | None, None => (r', (old, Some ErrUnexpectedEOF))
  | Some e, _ => (r', (old, Some e))
  end.

Definition Read_uint32 (bo : ByteOrder) (old : Z) (r : Reader) : Reader * (Z * option error) :=
  let '(r', (bs, err)) := ReadFull 4 r in
  match err, GetUint32 bo bs with
  | None, Some v => (r', (v, None))
  | None, None => (r', (old, Some ErrUnexpectedEOF))
  | Some e, _ => (r', (old, Some e))
  end.

(** [binary.Read(r, le, buf)] for a byte slice [buf] of length [n]: the slice
    is filled only when all [n] bytes were read. *)
Definition Read_bytes (n : Z) (old : bytes) (r : Reader) : Reader * (bytes * option error) :=
  let '(r', (bs, err)) := ReadFull n r in
  match err with
  | None => (r', (bs, None))
  | Some e => (r', (old, Some e))
  end.

(** ** Go strings *)

(** A Go string holding valid UTF-8 is modelled by the sequence of its code
    points; [len] is the length in bytes of its UTF-8 encoding, and the empty
    string is the empty sequence. *)
Definition rune := Z.
Definition gostring := list rune.

Definition utf8_width (r : rune) : Z :=
  if r <? 128 then 1 else if r <? 2048 then 2 else if r <? 65536 then 3 else 4.

Fixpoint len (str : gostring) : Z :=
  match str with
  | [] => 0
  | r :: rest => utf8_width r + len rest
  end.

(** [str == ""]. *)
Definition isEmpty (str : gostring) : bool :=
  match str with
  | [] => true
  | _ :: _ => false
  end.

(** A string of the Basic Multilingual Plane: every code point is below
    0x10000 and is not a surrogate. ASCII strings are the ones below 128. *)
Definition isBMP (r : rune) : bool :=
  ((0 <=? r) && (r <? 55296)) || ((57344 <=? r) && (r <? 65536)).

Definition isASCII (r : rune) : bool := (0 <=? r) && (r <? 128).

(** The code points of a literal, for examples. *)
Fixpoint lit (str : string) : gostring :=
  match str with
  | EmptyString => []
  | String c rest => Z.of_nat (nat_of_ascii c) :: lit rest
  end.

(** ** Package msdtyp: the string helpers

    Package msdtyp of the repository is not among the sources; its helpers
    are modelled from the specification. *)

(** [str] ends in a null character. *)
Fixpoint endsInNull (str : gostring) : bool :=
  match str with
  | [] => false
  | [r] => r =? 0
  | _ :: rest => endsInNull rest
  end.

(** Modelled from the spec: [msdtyp.NullTerminate] is missing. "If non-empty
    and null-terminated: append exactly one null character before measuring
    actual length." The string codec terminates a string twice on its way
    out ([writeRRPUnicodeStr] calls [NullTerminate], and
    [writeConformantVaryingString] hands the result to [NewUnicodeStr] with
    [nullTerminate = true]) and the specification's example encodes
    SubKey = "Software\0" with one trailing null, so a string that already
    ends in a null is left as it is. *)
Definition NullTerminate (str : gostring) : gostring :=
  if endsInNull str then str else str ++ [0].

(** Modelled from the spec: [msdtyp.StripNullByte] is missing. "Strip
    exactly one trailing null character from the decoded string"; a string
    without one is returned as it is ("stripping opportunistically rather
    than failing"). *)
Definition StripNullByte (str : gostring) : gostring :=
  if endsInNull str then removelast str else str.

(** [utf16.Encode] of one code point: itself in the Basic Multilingual Plane,
    a surrogate pair above it, U+FFFD for what is no code point. *)
Definition utf16_EncodeRune (r : rune) : list Z :=
  if isBMP r then [r]
  else if (65536 <=? r) && (r <=? 1114111)
       then [55296 + (r - 65536) / 1024; 56320 + (r - 65536) mod 1024]
       else [65533].

(** [utf16.Decode]. *)
Fixpoint utf16_Decode (u : list Z) : gostring :=
  match u with
  | [] => []
  | r :: rest =>
      if (r <? 55296) || (57344 <=? r) then r :: utf16_Decode rest
      else
        match rest with
        | r2 :: rest2 =>
            if (r <? 56320) && (56320 <=? r2) && (r2 <? 57344)
            then ((r - 55296) * 1024 + (r2 - 56320) + 65536) :: utf16_Decode rest2
            else 65533 :: utf16_Decode rest
        | [] => [65533]
        end
  end.

(** Modelled from the spec: [msdtyp.ToUnicode] is missing. "The UTF-16LE
    bytes" of the string. *)
Definition ToUnicode (str : gostring) : bytes :=
  flat_map (PutUint16 le) (flat_map utf16_EncodeRune str).

(** The 16-bit units of a little-endian byte sequence, and whether a byte
    was left over. *)
Fixpoint units (b : bytes) : list Z * bool :=
  match b with
  | [] => ([], false)
  | [_] => ([], true)
  | b0 :: b1 :: rest => let '(u, odd) := units rest in ((b0 + 256 * b1) :: u, odd)
  end.

(** Modelled from the spec: [msdtyp.FromUnicodeString] is missing. "Read
    [ActualCount*2] bytes as UTF-16LE, convert to the host string
    representation"; a sequence of odd length is no UTF-16LE string. *)
Definition FromUnicodeString (b : bytes) : gostring * option error :=
  let '(u, odd) := units b in
  if odd then ([], Some (Errorf "Unicode string of odd length"))
  else (utf16_Decode u, None).

(** The padding rule of the specification: "let consumed = Offset*2 +
    ActualCount*2 (bytes); if consumed mod 4 == 0, emit no padding; otherwise
    emit 4 - (consumed mod 4) zero bytes." *)
Definition paddingRule (offset count : Z) : Z :=
  let consumed := offset * 2 + count * 2 in
  if consumed mod 4 =? 0 then 0 else 4 - consumed mod 4.

(** Modelled from the spec: [msdtyp.NewUnicodeStr] is missing. It returns
    the parts of the conformant-varying array of a string: "Offset = 0,
    ActualCount = actual element count, followed by the UTF-16LE bytes,
    followed by alignment padding", the string being terminated first when
    [nullTerminate] is set. *)
Definition NewUnicodeStr (str : gostring) (nullTerminate : bool) : Z * Z * Z * bytes :=
  let str := if nullTerminate then NullTerminate str else str in
  let buffer := ToUnicode str in
  let offset := 0 in
  let count := uint32 (blen buffer / 2) in
  (offset, count, paddingRule offset count, buffer).

(** ** The conformant-varying string codec *)

Record RPCUnicodeStr := { RPC_MaxLength : Z; RPC_S : gostring }.

Record RRPUnicodeStr := { MaxLength : Z; S : gostring }.

Definition readConformantVaryingString (r : Reader) : Reader * (gostring * option error) :=
  let '(r, (maxCount, err)) := Read_uint32 le 0 r in
  match err with Some e => (r, ([], Some e)) | None =>
  if maxCount =? 0 then (r, ([], None)) else
  let '(r, (offset, err)) := Read_uint32 le 0 r in
  match err with Some e => (r, ([], Some e)) | None =>
  let '(r, (actualCount, err)) := Read_uint32 le 0 r in
  match err with Some e => (r, ([], Some e)) | None =>
  let '(r, err) :=
    if 0 <? offset then Seek (offset * 2) SeekCurrent r else (r, None) in
  match err with Some e => (r, ([], Some e)) | None =>
  let '(r, (str, err)) :=
    if 0 <? actualCount then
      let '(r, (unc, err)) := Read_bytes (uint32 (actualCount * 2)) [] r in
      match err with
      | Some e => (r, ([], Some e))
      | None => (r, FromUnicodeString unc)
      end
    else (r, ([], None)) in
  match err with Some e => (r, (str, Some e)) | None =>
  let paddLen := uint32 (4 - uint32 (uint32 (offset * 2) + uint32 (actualCount * 2)) mod 4) in
  if negb (paddLen =? 4) then
    let '(r, err) := Seek paddLen SeekCurrent r in
    (r, (str, err))
  else (r, (str, None))
  end end end end end.

Definition readConformantVaryingStringPtr (r : Reader) : Reader * (gostring * option error) :=
  let '(r, err) := Seek 4 SeekCurrent r in
  match err with
  | Some e => (r, ([], Some e))
  | None => readConformantVaryingString r
  end.

(** Returns the buffer and [n], the number of bytes written. *)
Definition writeConformantVaryingString (w : bytes) (bo : ByteOrder) (us : RRPUnicodeStr)
  : bytes * Z :=
  let '(offset, count, paddlen, buffer) := NewUnicodeStr (S us) true in
  let w := w ++ PutUint32 bo (uint32 (MaxLength us)) in
  let n := 4 in
  let count := if isEmpty (S us) then 0 else count in
  let w := w ++ PutUint32 bo offset in
  let n := n + 4 in
  let w := w ++ PutUint32 bo count in
  let n := n + 4 in
  if isEmpty (S us) then (w, n)
  else
    let w := w ++ buffer in
    let n := n + blen buffer in
    let padd := make paddlen in
    let w := w ++ padd in
    let n := n + paddlen in
    (w, n).

(** Returns the buffer, [n] and the referent-ID counter [*refid]. *)
Definition writeConformantVaryingStringPtr (w : bytes) (bo : ByteOrder) (us : RRPUnicodeStr)
  (refid : Z) : bytes * Z * Z :=
  let '(w, n) := if negb (refid =? 0) then (w ++ PutUint32 bo refid, 4) else (w, 0) in
  let refid := uint32 (refid + 1) in
  let '(w, n2) := writeConformantVaryingString w bo us in
  (w, n + n2, refid).

(** Useful for decoding BaseRegEnumValueRes. Returns [s], [maxLength] and
    [err], each as far as it was set. *)
Definition readRPCUnicodeStr (r : Reader) : Reader * (gostring * Z * option error) :=
  let '(r, (l, err)) := Read_uint16 le 0 r in
  match err with Some e => (r, ([], 0, Some e)) | None =>
  let '(r, (maxLength, err)) := Read_uint16 le 0 r in
  match err with Some e => (r, ([], maxLength, Some e)) | None =>
  if l =? 0 then
    let '(r, err) := Seek 4 SeekCurrent r in
    (r, ([], maxLength, err))
  else
    let '(r, (str, err)) := readConformantVaryingStringPtr r in
    (r, (str, maxLength, err))
  end end.

Definition readRPCUnicodeStrPtr (r : Reader) : Reader * (gostring * Z * option error) :=
  let '(r, err) := Seek 4 SeekCurrent r in
  match err with
  | Some e => (r, ([], 0, Some e))
  | None => readRPCUnicodeStr r
  end.

(** Returns the buffer, the string record behind [us] (which the function
    updates in place) and the referent-ID counter behind [refId]. *)
Definition writeRRPUnicodeStr (w : bytes) (bo : ByteOrder) (us : RRPUnicodeStr)
  (refId : Z) (optional : bool) : bytes * RRPUnicodeStr * Z :=
  let '(w, us) :=
    if isEmpty (S us) then (w ++ PutUint16 bo (uint16 0), us)
    else
      let us := {| MaxLength := MaxLength us; S := NullTerminate (S us) |} in
      let encodedLen := uint16 (uint16 (len (S us)) * 2) in
      (w ++ PutUint16 bo encodedLen, us) in
  let l := uint16 (len (S us)) in
  let us := if MaxLength us <? l then {| MaxLength := l; S := S us |} else us in
  let w := w ++ PutUint16 bo (uint16 (MaxLength us * 2)) in
  if isEmpty (S us) && optional then (w ++ PutUint32 bo (uint32 0), us, refId)
  else
    let '(w, _, refId) := writeConformantVaryingStringPtr w bo us refId in
    (w, us, refId).

Definition readRRPUnicodeStr (r : Reader) : Reader * (gostring * Z * option error) :=
  let '(r, (str, maxLength, err)) := readRPCUnicodeStr r in
  match err with
  | Some e => (r, (str, maxLength, Some e))
  | None => (r, (StripNullByte str, maxLength, None))
  end.

(** [MarshalBinary] and [UnmarshalBinary] of [*RRPUnicodeStr]: each returns
    the receiver as the call leaves it. *)
Definition RRPUnicodeStr_MarshalBinary (self : RRPUnicodeStr)
  : RRPUnicodeStr * (bytes * option error) :=
  let w := [] in
  let refId := uint32 1 in
  let '(w, self, _) := writeRRPUnicodeStr w le self refId false in
  (self, (w, None)).

Definition RRPUnicodeStr_UnmarshalBinary (self : RRPUnicodeStr) (buf : bytes)
  : RRPUnicodeStr * option error :=
  if blen buf <? 20 then (self, Some (Errorf "Buffer too small for RRPUnicodeStr!"))
  else
    let r := NewReader buf in
    let '(_, (str, maxLength, err)) := readRRPUnicodeStr r in
    ({| MaxLength := maxLength; S := str |}, err).

(** ** Package msdtyp: arrays and security descriptors

    The array helpers and the security-descriptor codec of package msdtyp
    are not among the sources either. The operations below call them at
    fixed places and only look at the error they return, so they are taken
    as parameters: a writer returns the bytes it appends to the buffer (an
    [io.Writer] offers nothing else), a reader the reader it leaves. *)
Class Msdtyp := {
  msdtyp_SecurityDescriptor : Type;
  (** [MarshalBinary] of a [*SecurityDescriptor]; the receiver may be nil. *)
  msdtyp_SecurityDescriptor_MarshalBinary :
    option msdtyp_SecurityDescriptor -> bytes * option error;
  (** [UnmarshalBinary] on a zero [SecurityDescriptor]. *)
  msdtyp_SecurityDescriptor_UnmarshalBinary :
    bytes -> msdtyp_SecurityDescriptor * option error;
  (** [WriteConformantVaryingArrayPtr(w, data, maxCount, refId)]: what is
      written, the counter behind [refId], the error. *)
  msdtyp_WriteConformantVaryingArrayPtr : bytes -> Z -> Z -> bytes * Z * option error;
  msdtyp_WriteConformantVaryingArray : bytes -> Z -> bytes * option error;
  msdtyp_WriteConformantArray : bytes -> bytes * option error;
  msdtyp_ReadConformantVaryingArrayPtr : Reader -> Reader * (bytes * option error);
  msdtyp_ReadConformantVaryingArray : Reader -> Reader * (bytes * option error)
}.

(** A Go call either returns or panics (a nil dereference, an index out of
    range). *)
Inductive outcome (A : Type) :=
| Returns (a : A)
| Panics.
Arguments Panics {A}.

(** ** Sequencing of decoding steps

    A decoder walks a reader and fills its receiver field by field, and
    returns at the first error with the receiver as filled so far. *)
Definition step (T : Type) := Reader * T -> (Reader * T) * option error.

Definition andThen {T} (a b : step T) : step T :=
  fun st =>
    let '(st, err) := a st in
    match err with
    | Some e => (st, Some e)
    | None => b st
    end.

Notation "a ;; b" := (andThen a b) (at level 61, right associativity).

(** [err = binary.Read(r, le, &self.f)] for a [uint32] field [f]. *)
Definition readField {T} (set : T -> Z -> T) : step T :=
  fun '(r, self) =>
    let '(r, (v, err)) := Read_uint32 le 0 r in
    match err with
    | Some e => ((r, self), Some e)
    | None => ((r, set self v), None)
    end.

(** [_, err = r.Seek(offset, whence)]. *)
Definition seek {T} (offset : Z) (wh : whence) : step T :=
  fun '(r, self) => let '(r, err) := Seek offset wh r in ((r, self), err).

(** [self.HKey = make([]byte, 20)], then [err = binary.Read(r, le, &self.HKey)]. *)
Definition readHKey {T} (set : T -> bytes -> T) : step T :=
  fun '(r, self) =>
    let '(r, (hkey, err)) := Read_bytes 20 (make 20) r in
    ((r, set self hkey), err).

Definition run {T} (p : step T) (buf : bytes) (self : T) : T * option error :=
  let '((_, self), err) := p (NewReader buf, self) in (self, err).

(** [self.X.S, self.X.MaxLength, err = read(r)]: both fields are assigned
    whatever [err] is. *)
Definition readStr {T} (read : Reader -> Reader * (gostring * Z * option error))
  (set : T -> gostring -> Z -> T) : step T :=
  fun '(r, self) =>
    let '(r, (str, maxLength, err)) := read r in
    ((r, set self str maxLength), err).

(** [self.Data, _, err = read(r)]. *)
Definition readData {T} (read : Reader -> Reader * (bytes * option error))
  (set : T -> bytes -> T) : step T :=
  fun '(r, self) =>
    let '(r, (data, err)) := read r in
    ((r, set self data), err).

(** ** Shared types *)

Module ReturnCode.
Record t := { uint32_ : Z }.

Definition MarshalBinary (self : t) : t * (bytes * option error) :=
  (self, ([], Some (Errorf "NOT IMPLEMENTED MarshalBinary for ReturnCode"))).

(** [self.uint32 = le.Uint32(buf)], which panics on fewer than 4 bytes. *)
Definition UnmarshalBinary (self : t) (buf : bytes) : outcome (t * option error) :=
  match Uint32 buf with
  | Some v => Returns ({| uint32_ := v |}, None)
  | None => Panics
  end.
End ReturnCode.

Module Filetime.
Record t := { LowDateTime : Z; HighDateTime : Z }.
End Filetime.

Module PFiletime.
Record t := { LowDateTime : Z; HighDateTime : Z }.
End PFiletime.

Module RpcSecurityDescriptor.
Record t {M : Msdtyp} := {
  SecurityDescriptor : option msdtyp_SecurityDescriptor;
  InSecurityDescriptor : Z;
  OutSecurityDescriptor : Z
}.
End RpcSecurityDescriptor.

Module RpcSecurityAttributes.
Record t {M : Msdtyp} := {
  Length : Z;
  SecurityDescriptor : RpcSecurityDescriptor.t;
  InheritHandle : Z
}.
End RpcSecurityAttributes.

(** Returns the buffer, the referent-ID counter behind [refId] and the
    error. [sa] is passed by value: raising [sa.Length] stays local. *)
Definition writeRPCSecurityAttributes {M : Msdtyp} (w : bytes) (bo : ByteOrder)
  (sa : RpcSecurityAttributes.t) (refId : Z) : bytes * Z * option error :=
  let w := w ++ PutUint32 bo refId in
  let refId := uint32 (refId + 1) in
  let '(buf, err) :=
    msdtyp_SecurityDescriptor_MarshalBinary
      (RpcSecurityDescriptor.SecurityDescriptor (RpcSecurityAttributes.SecurityDescriptor sa)) in
  match err with Some e => (w, refId, Some e) | None =>
  let buflen := uint32 (blen buf) in
  let saLength :=
    if RpcSecurityAttributes.Length sa <? buflen then buflen
    else RpcSecurityAttributes.Length sa in
  let w := w ++ PutUint32 bo saLength in
  let refId := uint32 (refId + 1) in
  let w := w ++ PutUint32 bo refId in
  let refId := uint32 (refId + 1) in
  let w := w ++ PutUint32 bo buflen in
  let w := w ++ PutUint32 bo buflen in
  let w := w ++ PutUint32 le (uint32 (RpcSecurityAttributes.InheritHandle sa)) in
  let '(out, err) := msdtyp_WriteConformantVaryingArray buf 0 in
  (w ++ out, refId, err)
  end.

Definition writeRPCSecurityDescriptor {M : Msdtyp} (w : bytes) (bo : ByteOrder)
  (sd : RpcSecurityDescriptor.t) (refId : Z) : bytes * Z * option error :=
  match RpcSecurityDescriptor.SecurityDescriptor sd with
  | None =>
      let w := w ++ PutUint32 bo (uint32 0) in
      let w := w ++ PutUint32 bo (RpcSecurityDescriptor.InSecurityDescriptor sd) in
      let w := w ++ PutUint32 bo (RpcSecurityDescriptor.OutSecurityDescriptor sd) in
      (w, refId, None)
  | Some d =>
      let '(w, refId) :=
        if negb (refId =? 0) then (w ++ PutUint32 bo refId, uint32 (refId + 1))
        else (w, refId) in
      let '(buf, err) := msdtyp_SecurityDescriptor_MarshalBinary (Some d) in
      match err with Some e => (w, refId, Some e) | None =>
      let buflen := uint32 (blen buf) in
      let inSecurityDescriptor :=
        if RpcSecurityDescriptor.InSecurityDescriptor sd <? buflen then buflen
        else RpcSecurityDescriptor.InSecurityDescriptor sd in
      let w := w ++ PutUint32 bo inSecurityDescriptor in
      let w := w ++ PutUint32 bo buflen in
      let '(out, err) := msdtyp_WriteConformantVaryingArray buf 0 in
      (w ++ out, refId, err)
      end
  end.

Definition RpcSecurityAttributes_MarshalBinary {M : Msdtyp} (self : RpcSecurityAttributes.t)
  : RpcSecurityAttributes.t * (bytes * option error) :=
  let refId := uint32 1 in
  let w := [] in
  let '(w, _, err) := writeRPCSecurityAttributes w le self refId in
  match err with
  | Some e => (self, ([], Some e))
  | None => (self, (w, None))
  end.

Definition RpcSecurityAttributes_UnmarshalBinary {M : Msdtyp} (self : RpcSecurityAttributes.t)
  (buf : bytes) : RpcSecurityAttributes.t * option error :=
  (self, Some (Errorf "NOT IMPLEMENTED UnmarshalBinary for RpcSecurityAttributes")).

(** ** The operation catalogue

    One module per message type. [MarshalBinary] returns the receiver as
    the call leaves it, the encoded bytes ([nil] on failure) and the error;
    [UnmarshalBinary] returns the receiver as the call leaves it and the
    error. *)

(** Opnums 0-4 *)
Module OpenRootKeyReq.
Record t := { ServerName : Z; DesiredAccess : Z }.

Definition MarshalBinary (self : t) : t * (bytes * option error) :=
  let w := [] in
  let w := w ++ PutUint32 le (ServerName self) in
  let w := w ++ PutUint32 le (DesiredAccess self) in
  (self, (w, None)).

Definition UnmarshalBinary (self : t) (buf : bytes) : t * option error :=
  run (readField (fun self v => {| ServerName := v; DesiredAccess := DesiredAccess self |}) ;;
       readField (fun self v => {| ServerName := ServerName self; DesiredAccess := v |}))
      buf self.
End OpenRootKeyReq.

Module OpenKeyRes.
Record t := { HKey : bytes; ReturnCode : Z }.

Definition MarshalBinary (self : t) : t * (bytes * option error) :=
  let w := [] in
  if negb (blen (HKey self) =? 20)
  then (self, ([], Some (Errorf "Invalid length of HKey in OpenKeyRes")))
  else
    let w := w ++ HKey self in
    let w := w ++ PutUint32 le (ReturnCode self) in
    (self, (w, None)).

Definition UnmarshalBinary (self : t) (buf : bytes) : t * option error :=
  if blen buf <? 20
  then (self, Some (Errorf "Buffer too short to unmarshal OpenKeyRes"))
  else
    run (readHKey (fun self v => {| HKey := v; ReturnCode := ReturnCode self |}) ;;
         readField (fun self v => {| HKey := HKey self; ReturnCode := v |}))
        buf self.
End OpenKeyRes.

(** Opnum 5 *)
Module BaseRegCloseKeyReq.
Record t := { HKey : bytes }.

Definition MarshalBinary (self : t) : t * (bytes * option error) :=
  let w := [] in
  if negb (blen (HKey self) =? 20)
  then (self, ([], Some (Errorf "Invalid length of HKey in BaseRegCloseKeyReq")))
  else
    let w := w ++ HKey self in
    (self, (w, None)).

Definition UnmarshalBinary (self : t) (buf : bytes) : t * option error :=
  if blen buf <? 20
  then (self, Some (Errorf "Buffer too short to unmarshal BaseRegCloseKeyReq"))
  else run (readHKey (fun _ v => {| HKey := v |})) buf self.
End BaseRegCloseKeyReq.

(** Opnum 6 *)
Module BaseRegCreateKeyReq.
Record t {M : Msdtyp} := {
  HKey : bytes;
  SubKey : RRPUnicodeStr;
  Class : RRPUnicodeStr;
  Options : Z;
  DesiredAccess : Z;
  SecurityAttr : option RpcSecurityAttributes.t;
  Disposition : Z
}.

Definition MarshalBinary {M : Msdtyp} (self : t) : t * (bytes * option error) :=
  let w := [] in
  if negb (blen (HKey self) =? 20)
  then (self, ([], Some (Errorf "Invalid length of HKey in BaseRegCreateKeyReq")))
  else
    let w := w ++ firstn 20 (HKey self) in
    let refId := uint32 1 in
    let '(w, subKey, refId) := writeRRPUnicodeStr w le (SubKey self) refId false in
    let '(w, class, refId) := writeRRPUnicodeStr w le (Class self) refId false in
    let self := {| HKey := HKey self; SubKey := subKey; Class := class;
                   Options := Options self; DesiredAccess := DesiredAccess self;
                   SecurityAttr := SecurityAttr self; Disposition := Disposition self |} in
    let w := w ++ PutUint32 le (Options self) in
    let w := w ++ PutUint32 le (DesiredAccess self) in
    let '(w, refId, err) :=
      match SecurityAttr self with
      | None => (w ++ PutUint32 le (uint32 0), refId, None)
      | Some sa => writeRPCSecurityAttributes w le sa refId
      end in
    match err with Some e => (self, ([], Some e)) | None =>
    let w := if negb (Disposition self =? 0) then w ++ PutUint32 le refId else w in
    let w := w ++ PutUint32 le (Disposition self) in
    (self, (w, None))
    end.

Definition UnmarshalBinary {M : Msdtyp} (self : t) (buf : bytes) : t * option error :=
  (self, Some (Errorf "NOT IMPLEMENTED UnmarshalBinary for BaseRegCreateKeyReq")).
End BaseRegCreateKeyReq.

Module BaseRegCreateKeyRes.
Record t := { HKey : bytes; Disposition : Z; ReturnCode : Z }.

Definition MarshalBinary (self : t) : t * (bytes * option error) :=
  (self, ([], Some (Errorf "NOT IMPLEMENTED MarshalBinary for BaseRegCreateKeyReq"))).

Definition UnmarshalBinary (self : t) (buf : bytes) : t * option error :=
  if blen buf <? 28
  then (self, Some (Errorf "Buffer too short to unmarshal BaseRegCreateKeyRes"))
  else
    run (readHKey (fun self v =>
           {| HKey := v; Disposition := Disposition self; ReturnCode := ReturnCode self |}) ;;
         seek 4 SeekCurrent ;;
         readField (fun self v =>
           {| HKey := HKey self; Disposition := v; ReturnCode := ReturnCode self |}) ;;
         readField (fun self v =>
           {| HKey := HKey self; Disposition := Disposition self; ReturnCode := v |}))
        buf self.
End BaseRegCreateKeyRes.

(** Opnum 7 *)
Module BaseRegDeleteKeyReq.
Record t := { HKey : bytes; SubKey : RRPUnicodeStr }.

Definition MarshalBinary (self : t) : t * (bytes * option error) :=
  let w := [] in
  if negb (blen (HKey self) =? 20)
  then (self, ([], Some (Errorf "Invalid length of HKey in BaseRegDeleteKeyReq")))
  else
    let w := w ++ firstn 20 (HKey self) in
    let refId := uint32 1 in
    let '(w, subKey, _) := writeRRPUnicodeStr w le (SubKey self) refId false in
    ({| HKey := HKey self; SubKey := subKey |}, (w, None)).

Definition UnmarshalBinary (self : t) (buf : bytes) : t * option error :=
  (self, Some (Errorf "NOT IMPLEMENTED UnmarshalBinary for BaseRegDeleteKeyReq")).
End BaseRegDeleteKeyReq.

(** Opnum 8 *)
Module BaseRegDeleteValueReq.
Record t := { HKey : bytes; ValueName : RRPUnicodeStr }.

Definition MarshalBinary (self : t) : t * (bytes * option error) :=
  let w := [] in
  if negb (blen (HKey self) =? 20)
  then (self, ([], Some (Errorf "Invalid length of HKey in BaseRegDeleteValueReq")))
  else
    let w := w ++ firstn 20 (HKey self) in
    let refId := uint32 1 in
    let '(w, valueName, _) := writeRRPUnicodeStr w le (ValueName self) refId false in
    ({| HKey := HKey self; ValueName := valueName |}, (w, None)).

Definition UnmarshalBinary (self : t) (buf : bytes) : t * option error :=
  (self, Some (Errorf "NOT IMPLEMENTED UnmarshalBinary for BaseRegDeleteValueReq")).
End BaseRegDeleteValueReq.

(** Opnum 9 *)
Module BaseRegEnumKeyReq.
Record t := {
  HKey : bytes;
  Index : Z;
  NameIn : RRPUnicodeStr;
  ClassIn : RRPUnicodeStr;
  LastWriteTime : option PFiletime.t
}.

(** [self.LastWriteTime] is a pointer that is dereferenced without a nil
    check. *)
Definition MarshalBinary (self : t) : outcome (t * (bytes * option error)) :=
  let w := [] in
  if negb (blen (HKey self) =? 20)
  then Returns (self, ([], Some (Errorf "Invalid length of HKey in BaseRegEnumKeyReq")))
  else
    let w := w ++ firstn 20 (HKey self) in
    let w := w ++ PutUint32 le (Index self) in
    let refId := uint32 1 in
    let '(w, nameIn, refId) := writeRRPUnicodeStr w le (NameIn self) refId false in
    let w := w ++ PutUint32 le refId in
    let refId := uint32 (refId + 1) in
    let '(w, classIn, refId) := writeRRPUnicodeStr w le (ClassIn self) refId false in
    let self := {| HKey := HKey self; Index := Index self; NameIn := nameIn;
                   ClassIn := classIn; LastWriteTime := LastWriteTime self |} in
    let w := w ++ PutUint32 le refId in
    match LastWriteTime self with
    | None => Panics
    | Some lastWriteTime =>
        let w := w ++ PutUint32 le (PFiletime.LowDateTime lastWriteTime) in
        let w := w ++ PutUint32 le (PFiletime.HighDateTime lastWriteTime) in
        Returns (self, (w, None))
    end.

Definition UnmarshalBinary (self : t) (buf : bytes) : t * option error :=
  (self, Some (Errorf "NOT IMPLEMENTED UnmarshalBinary for BaseRegEnumKeyReq")).
End BaseRegEnumKeyReq.

Module BaseRegEnumKeyRes.
Record t := {
  NameOut : RRPUnicodeStr;
  ClassOut : RRPUnicodeStr;
  LastWriteTime : PFiletime.t;
  ReturnCode : Z
}.

Definition MarshalBinary (self : t) : t * (bytes * option error) :=
  (self, ([], Some (Errorf "NOT IMPLEMENTED MarshalBinary for BaseRegEnumKeyRes"))).

Definition UnmarshalBinary (self : t) (buf : bytes) : t * option error :=
  if blen buf <? 36
  then (self, Some (Errorf "Buffer too short for BaseRegEnumKeyRes"))
  else
    run (readStr readRRPUnicodeStr (fun self str maxLength =>
           {| NameOut := {| MaxLength := maxLength; S := str |}; ClassOut := ClassOut self;
              LastWriteTime := LastWriteTime self; ReturnCode := ReturnCode self |}) ;;
         seek 4 SeekCurrent ;;
         readStr readRRPUnicodeStr (fun self str maxLength =>
           {| NameOut := NameOut self; ClassOut := {| MaxLength := maxLength; S := str |};
              LastWriteTime := LastWriteTime self; ReturnCode := ReturnCode self |}) ;;
         seek 4 SeekCurrent ;;
         readField (fun self v =>
           {| NameOut := NameOut self; ClassOut := ClassOut self;
              LastWriteTime :=
                {| PFiletime.LowDateTime := v;
                   PFiletime.HighDateTime := PFiletime.HighDateTime (LastWriteTime self) |};
              ReturnCode := ReturnCode self |}) ;;
         readField (fun self v =>
           {| NameOut := NameOut self; ClassOut := ClassOut self;
              LastWriteTime :=
                {| PFiletime.LowDateTime := PFiletime.LowDateTime (LastWriteTime self);
                   PFiletime.HighDateTime := v |};
              ReturnCode := ReturnCode self |}) ;;
         readField (fun self v =>
           {| NameOut := NameOut self; ClassOut := ClassOut self;
              LastWriteTime := LastWriteTime self; ReturnCode := v |}))
        buf self.
End BaseRegEnumKeyRes.

(** Opnum 10 *)
Module BaseRegEnumValueReq.
Record t := {
  HKey : bytes;
  Index : Z;
  NameIn : RRPUnicodeStr;
  Type_ : Z;
  Data : bytes;
  MaxLen : Z;
  DataLen : Z
}.

Definition MarshalBinary {M : Msdtyp} (self : t) : t * (bytes * option error) :=
  if negb (blen (HKey self) =? 20)
  then (self, ([], Some (Errorf "Invalid length of HKey in BaseRegEnumValueReq")))
  else
    let w := [] in
    let w := w ++ firstn 20 (HKey self) in
    let w := w ++ PutUint32 le (Index self) in
    let refId := uint32 1 in
    let '(w, nameIn, refId) := writeRRPUnicodeStr w le (NameIn self) refId false in
    let self := {| HKey := HKey self; Index := Index self; NameIn := nameIn;
                   Type_ := Type_ self; Data := Data self; MaxLen := MaxLen self;
                   DataLen := DataLen self |} in
    let w := w ++ PutUint32 le refId in
    let refId := uint32 (refId + 1) in
    let w := w ++ PutUint32 le (Type_ self) in
    let '(out, refId, err) :=
      msdtyp_WriteConformantVaryingArrayPtr (Data self) (MaxLen self) refId in
    let w := w ++ out in
    match err with Some e => (self, ([], Some e)) | None =>
    let w := w ++ PutUint32 le refId in
    let refId := uint32 (refId + 1) in
    let w := w ++ PutUint32 le (MaxLen self) in
    let w := w ++ PutUint32 le refId in
    let refId := uint32 (refId + 1) in
    let w := w ++ PutUint32 le (uint32 (blen (Data self))) in
    (self, (w, None))
    end.

Definition UnmarshalBinary (self : t) (buf : bytes) : t * option error :=
  (self, Some (Errorf "NOT IMPLEMENTED UnmarshalBinary for BaseRegEnumValueReq")).
End BaseRegEnumValueReq.

Module BaseRegEnumValueRes.
Record t := {
  NameOut : RPCUnicodeStr;
  Type_ : Z;
  Data : bytes;
  DataLen : Z;
  MaxLen : Z;
  ReturnCode : Z
}.

Definition MarshalBinary (self : t) : t * (bytes * option error) :=
  (self, ([], Some (Errorf "NOT IMPLEMENTED MarshalBinary for BaseRegEnumValueRes"))).

Definition UnmarshalBinary {M : Msdtyp} (self : t) (buf : bytes) : t * option error :=
  if blen buf <? 36
  then (self, Some (Errorf "Buffer to short for BaseRegEnumValueRes"))
  else
    run (readStr readRPCUnicodeStr (fun self str maxLength =>
           {| NameOut := {| RPC_MaxLength := maxLength; RPC_S := str |};
              Type_ := Type_ self; Data := Data self; DataLen := DataLen self;
              MaxLen := MaxLen self; ReturnCode := ReturnCode self |}) ;;
         seek 4 SeekCurrent ;;
         readField (fun self v =>
           {| NameOut := NameOut self; Type_ := v; Data := Data self;
              DataLen := DataLen self; MaxLen := MaxLen self;
              ReturnCode := ReturnCode self |}) ;;
         readData msdtyp_ReadConformantVaryingArrayPtr (fun self v =>
           {| NameOut := NameOut self; Type_ := Type_ self; Data := v;
              DataLen := DataLen self; MaxLen := MaxLen self;
              ReturnCode := ReturnCode self |}) ;;
         seek 4 SeekCurrent ;;
         readField (fun self v =>
           {| NameOut := NameOut self; Type_ := Type_ self; Data := Data self;
              DataLen := v; MaxLen := MaxLen self; ReturnCode := ReturnCode self |}) ;;
         seek 4 SeekCurrent ;;
         readField (fun self v =>
           {| NameOut := NameOut self; Type_ := Type_ self; Data := Data self;
              DataLen := DataLen self; MaxLen := v; ReturnCode := ReturnCode self |}) ;;
         readField (fun self v =>
           {| NameOut := NameOut self; Type_ := Type_ self; Data := Data self;
              DataLen := DataLen self; MaxLen := MaxLen self; ReturnCode := v |}))
        buf self.
End BaseRegEnumValueRes.

(** Opnum 12 *)
Module BaseRegGetKeySecurityReq.
Record t {M : Msdtyp} := {
  HKey : bytes;
  SecurityInformation : Z;
  SecurityDescriptorIn : RpcSecurityDescriptor.t
}.

Definition MarshalBinary {M : Msdtyp} (self : t) : t * (bytes * option error) :=
  if negb (blen (HKey self) =? 20)
  then (self, ([], Some (Errorf "Invalid length of HKey in BaseRegGetKeySecurityReq")))
  else
    let w := [] in
    let w := w ++ firstn 20 (HKey self) in
    let w := w ++ PutUint32 le (SecurityInformation self) in
    let refId := uint32 1 in
    let '(w, _, err) := writeRPCSecurityDescriptor w le (SecurityDescriptorIn self) refId in
    match err with
    | Some e => (self, ([], Some e))
    | None => (self, (w, None))
    end.

Definition UnmarshalBinary {M : Msdtyp} (self : t) (buf : bytes) : t * option error :=
  (self, Some (Errorf "NOT IMPLEMENTED UnmarshalBinary for BaseRegGetKeySecurityReq")).
End BaseRegGetKeySecurityReq.

Module BaseRegGetKeySecurityRes.
Record t {M : Msdtyp} := {
  SecurityDescriptorOut : RpcSecurityDescriptor.t;
  ReturnCode : Z
}.

Definition MarshalBinary {M : Msdtyp} (self : t) : t * (bytes * option error) :=
  (self, ([], Some (Errorf "NOT IMPLEMENTED MarshalBinary for BaseRegGetKeySecurityRes"))).

Definition setSecurityDescriptorOut {M : Msdtyp} (self : t) (sd : RpcSecurityDescriptor.t) : t :=
  {| SecurityDescriptorOut := sd; ReturnCode := ReturnCode self |}.

(** The part of the decoder after the return code was found to be zero. *)
Definition readSecurityDescriptorOut {M : Msdtyp} : step t :=
  seek 4 SeekStart ;;
  readField (fun self v =>
    setSecurityDescriptorOut self
      {| RpcSecurityDescriptor.SecurityDescriptor :=
           RpcSecurityDescriptor.SecurityDescriptor (SecurityDescriptorOut self);
         RpcSecurityDescriptor.InSecurityDescriptor := v;
         RpcSecurityDescriptor.OutSecurityDescriptor :=
           RpcSecurityDescriptor.OutSecurityDescriptor (SecurityDescriptorOut self) |}) ;;
  readField (fun self v =>
    setSecurityDescriptorOut self
      {| RpcSecurityDescriptor.SecurityDescriptor :=
           RpcSecurityDescriptor.SecurityDescriptor (SecurityDescriptorOut self);
         RpcSecurityDescriptor.InSecurityDescriptor :=
           RpcSecurityDescriptor.InSecurityDescriptor (SecurityDescriptorOut self);
         RpcSecurityDescriptor.OutSecurityDescriptor := v |}) ;;
  (fun '(r, self) =>
     let '(r, (data, err)) := msdtyp_ReadConformantVaryingArray r in
     match err with Some e => ((r, self), Some e) | None =>
     let '(sd, err) := msdtyp_SecurityDescriptor_UnmarshalBinary data in
     match err with Some e => ((r, self), Some e) | None =>
     ((r, setSecurityDescriptorOut self
            {| RpcSecurityDescriptor.SecurityDescriptor := Some sd;
               RpcSecurityDescriptor.InSecurityDescriptor :=
                 RpcSecurityDescriptor.InSecurityDescriptor (SecurityDescriptorOut self);
               RpcSecurityDescriptor.OutSecurityDescriptor :=
                 RpcSecurityDescriptor.OutSecurityDescriptor (SecurityDescriptorOut self) |}),
      None)
     end end).

Definition UnmarshalBinary {M : Msdtyp} (self : t) (buf : bytes) : t * option error :=
  if blen buf <? 16
  then (self, Some (Errorf "Buffer to short for BaseRegGetKeySecurityRes"))
  else
    let r := NewReader buf in
    (* First read ReturnCode; the error of this Seek is overwritten. *)
    let '(r, _) := Seek (-4) SeekEnd r in
    let '((r, self), err) :=
      readField (fun self v =>
        {| SecurityDescriptorOut := SecurityDescriptorOut self; ReturnCode := v |}) (r, self) in
    match err with Some e => (self, Some e) | None =>
    if negb (ReturnCode self =? 0) then (self, None)
    else
      let '((_, self), err) := readSecurityDescriptorOut (r, self) in
      (self, err)
    end.
End BaseRegGetKeySecurityRes.

(** Opnum 15 *)
Module BaseRegOpenKeyReq.
Record t := {
  HKey : bytes;
  SubKey : RRPUnicodeStr;
  Options : Z;
  DesiredAccess : Z
}.

Definition MarshalBinary (self : t) : t * (bytes * option error) :=
  if negb (blen (HKey self) =? 20)
  then (self, ([], Some (Errorf "Invalid length of HKey in BaseRegOpenKeyReq")))
  else
    let w := [] in
    let w := w ++ firstn 20 (HKey self) in
    let refId := uint32 1 in
    let '(w, subKey, _) := writeRRPUnicodeStr w le (SubKey self) refId false in
    let self := {| HKey := HKey self; SubKey := subKey; Options := Options self;
                   DesiredAccess := DesiredAccess self |} in
    let w := w ++ PutUint32 le (Options self) in
    let w := w ++ PutUint32 le (DesiredAccess self) in
    (self, (w, None)).

Definition UnmarshalBinary (self : t) (buf : bytes) : t * option error :=
  (self, Some (Errorf "NOT IMPLEMENTED UnmarshalBinary for BaseRegOpenKeyReq")).
End BaseRegOpenKeyReq.

(** Opnum 16 *)
Module BaseRegQueryInfoKeyReq.
Record t := { HKey : bytes; ClassIn : RRPUnicodeStr }.

Definition MarshalBinary (self : t) : t * (bytes * option error) :=
  if negb (blen (HKey self) =? 20)
  then (self, ([], Some (Errorf "Invalid length of HKey in BaseRegQueryInfoKey")))
  else
    let w := [] in
    let w := w ++ firstn 20 (HKey self) in
    let refId := uint32 1 in
    let '(w, classIn, _) := writeRRPUnicodeStr w le (ClassIn self) refId true in
    ({| HKey := HKey self; ClassIn := classIn |}, (w, None)).

Definition UnmarshalBinary (self : t) (buf : bytes) : t * option error :=
  (self, Some (Errorf "NOT IMPLEMENTED UnmarshalBinary for BaseRegQueryInfoKeyReq")).
End BaseRegQueryInfoKeyReq.

Module BaseRegQueryInfoKeyRes.
Record t := {
  ClassOut : RPCUnicodeStr;
  SubKeys : Z;
  MaxSubKeyLen : Z;
  MaxClassLen : Z;
  Values : Z;
  MaxValueNameLen : Z;
  MaxValueLen : Z;
  SecurityDescriptor : Z;
  LastWriteTime : Filetime.t;
  ReturnCode : Z
}.

Definition MarshalBinary (self : t) : t * (bytes * option error) :=
  (self, ([], Some (Errorf "NOT IMPLEMENTED MarshalBinary for BaseRegQueryInfoKeyRes"))).

Definition setClassOut (self : t) (str : gostring) (maxLength : Z) : t :=
  {| ClassOut := {| RPC_MaxLength := maxLength; RPC_S := str |};
     SubKeys := SubKeys self; MaxSubKeyLen := MaxSubKeyLen self;
     MaxClassLen := MaxClassLen self; Values := Values self;
     MaxValueNameLen := MaxValueNameLen self; MaxValueLen := MaxValueLen self;
     SecurityDescriptor := SecurityDescriptor self; LastWriteTime := LastWriteTime self;
     ReturnCode := ReturnCode self |}.

Definition setSubKeys (self : t) (v : Z) : t :=
  {| ClassOut := ClassOut self; SubKeys := v; MaxSubKeyLen := MaxSubKeyLen self;
     MaxClassLen := MaxClassLen self; Values := Values self;
     MaxValueNameLen := MaxValueNameLen self; MaxValueLen := MaxValueLen self;
     SecurityDescriptor := SecurityDescriptor self; LastWriteTime := LastWriteTime self;
     ReturnCode := ReturnCode self |}.

Definition setMaxSubKeyLen (self : t) (v : Z) : t :=
  {| ClassOut := ClassOut self; SubKeys := SubKeys self; MaxSubKeyLen := v;
     MaxClassLen := MaxClassLen self; Values := Values self;
     MaxValueNameLen := MaxValueNameLen self; MaxValueLen := MaxValueLen self;
     SecurityDescriptor := SecurityDescriptor self; LastWriteTime := LastWriteTime self;
     ReturnCode := ReturnCode self |}.

Definition setMaxClassLen (self : t) (v : Z) : t :=
  {| ClassOut := ClassOut self; SubKeys := SubKeys self; MaxSubKeyLen := MaxSubKeyLen self;
     MaxClassLen := v; Values := Values self;
     MaxValueNameLen := MaxValueNameLen self; MaxValueLen := MaxValueLen self;
     SecurityDescriptor := SecurityDescriptor self; LastWriteTime := LastWriteTime self;
     ReturnCode := ReturnCode self |}.

Definition setValues (self : t) (v : Z) : t :=
  {| ClassOut := ClassOut self; SubKeys := SubKeys self; MaxSubKeyLen := MaxSubKeyLen self;
     MaxClassLen := MaxClassLen self; Values := v;
     MaxValueNameLen := MaxValueNameLen self; MaxValueLen := MaxValueLen self;
     SecurityDescriptor := SecurityDescriptor self; LastWriteTime := LastWriteTime self;
     ReturnCode := ReturnCode self |}.

Definition setMaxValueNameLen (self : t) (v : Z) : t :=
  {| ClassOut := ClassOut self; SubKeys := SubKeys self; MaxSubKeyLen := MaxSubKeyLen self;
     MaxClassLen := MaxClassLen self; Values := Values self;
     MaxValueNameLen := v; MaxValueLen := MaxValueLen self;
     SecurityDescriptor := SecurityDescriptor self; LastWriteTime := LastWriteTime self;
     ReturnCode := ReturnCode self |}.

Definition setMaxValueLen (self : t) (v : Z) : t :=
  {| ClassOut := ClassOut self; SubKeys := SubKeys self; MaxSubKeyLen := MaxSubKeyLen self;
     MaxClassLen := MaxClassLen self; Values := Values self;
     MaxValueNameLen := MaxValueNameLen self; MaxValueLen := v;
     SecurityDescriptor := SecurityDescriptor self; LastWriteTime := LastWriteTime self;
     ReturnCode := ReturnCode self |}.

Definition setSecurityDescriptor (self : t) (v : Z) : t :=
  {| ClassOut := ClassOut self; SubKeys := SubKeys self; MaxSubKeyLen := MaxSubKeyLen self;
     MaxClassLen := MaxClassLen self; Values := Values self;
     MaxValueNameLen := MaxValueNameLen self; MaxValueLen := MaxValueLen self;
     SecurityDescriptor := v; LastWriteTime := LastWriteTime self;
     ReturnCode := ReturnCode self |}.

Definition setLastWriteTime (self : t) (v : Filetime.t) : t :=
  {| ClassOut := ClassOut self; SubKeys := SubKeys self; MaxSubKeyLen := MaxSubKeyLen self;
     MaxClassLen := MaxClassLen self; Values := Values self;
     MaxValueNameLen := MaxValueNameLen self; MaxValueLen := MaxValueLen self;
     SecurityDescriptor := SecurityDescriptor self; LastWriteTime := v;
     ReturnCode := ReturnCode self |}.

Definition setReturnCode (self : t) (v : Z) : t :=
  {| ClassOut := ClassOut self; SubKeys := SubKeys self; MaxSubKeyLen := MaxSubKeyLen self;
     MaxClassLen := MaxClassLen self; Values := Values self;
     MaxValueNameLen := MaxValueNameLen self; MaxValueLen := MaxValueLen self;
     SecurityDescriptor := SecurityDescriptor self; LastWriteTime := LastWriteTime self;
     ReturnCode := v |}.

(** There is no length check: the decoder starts to read at once. *)
Definition UnmarshalBinary (self : t) (buf : bytes) : t * option error :=
  run (readStr readRPCUnicodeStr setClassOut ;;
       readField setSubKeys ;;
       readField setMaxSubKeyLen ;;
       readField setMaxClassLen ;;
       readField setValues ;;
       readField setMaxValueNameLen ;;
       readField setMaxValueLen ;;
       readField setSecurityDescriptor ;;
       readField (fun self v =>
         setLastWriteTime self
           {| Filetime.LowDateTime := v;
              Filetime.HighDateTime := Filetime.HighDateTime (LastWriteTime self) |}) ;;
       readField (fun self v =>
         setLastWriteTime self
           {| Filetime.LowDateTime := Filetime.LowDateTime (LastWriteTime self);
              Filetime.HighDateTime := v |}) ;;
       readField setReturnCode)
      buf self.
End BaseRegQueryInfoKeyRes.

(** Opnum 17 *)
Module BaseRegQueryValueReq.
Record t := {
  HKey : bytes;
  ValueName : RRPUnicodeStr;
  Type_ : Z;
  Data : bytes;
  MaxLen : Z;
  DataLen : Z
}.

Definition MarshalBinary {M : Msdtyp} (self : t) : t * (bytes * option error) :=
  if negb (blen (HKey self) =? 20)
  then (self, ([], Some (Errorf "Invalid length of HKey in BaseRegQueryValueReq")))
  else
    let w := [] in
    let w := w ++ firstn 20 (HKey self) in
    let refId := uint32 1 in
    let '(w, valueName, refId) := writeRRPUnicodeStr w le (ValueName self) refId false in
    let self := {| HKey := HKey self; ValueName := valueName; Type_ := Type_ self;
                   Data := Data self; MaxLen := MaxLen self; DataLen := DataLen self |} in
    let w := w ++ PutUint32 le refId in
    let refId := uint32 (refId + 1) in
    let w := w ++ PutUint32 le (Type_ self) in
    let '(out, refId, err) :=
      msdtyp_WriteConformantVaryingArrayPtr (Data self) (MaxLen self) refId in
    let w := w ++ out in
    match err with Some e => (self, ([], Some e)) | None =>
    let w := w ++ PutUint32 le refId in
    let refId := uint32 (refId + 1) in
    let w := w ++ PutUint32 le (MaxLen self) in
    let w := w ++ PutUint32 le refId in
    let refId := uint32 (refId + 1) in
    let w := w ++ PutUint32 le (uint32 (blen (Data self))) in
    (self, (w, None))
    end.

Definition UnmarshalBinary (self : t) (buf : bytes) : t * option error :=
  (self, Some (Errorf "NOT IMPLEMENTED UnmarshalBinary for BaseRegQueryValueReq")).
End BaseRegQueryValueReq.

Module BaseRegQueryValueRes.
Record t := {
  Type_ : Z;
  Data : bytes;
  DataLen : Z;
  MaxLen : Z;
  ReturnCode : Z
}.

Definition MarshalBinary (self : t) : t * (bytes * option error) :=
  (self, ([], Some (Errorf "NOT IMPLEMENTED MarshalBinary for BaseRegQueryValueRes"))).

(** There is no length check: the decoder starts to read at once. *)
Definition UnmarshalBinary {M : Msdtyp} (self : t) (buf : bytes) : t * option error :=
  run (seek 4 SeekCurrent ;;
       readField (fun self v =>
         {| Type_ := v; Data := Data self; DataLen := DataLen self;
            MaxLen := MaxLen self; ReturnCode := ReturnCode self |}) ;;
       readData msdtyp_ReadConformantVaryingArrayPtr (fun self v =>
         {| Type_ := Type_ self; Data := v; DataLen := DataLen self;
            MaxLen := MaxLen self; ReturnCode := ReturnCode self |}) ;;
       seek 4 SeekCurrent ;;
       readField (fun self v =>
         {| Type_ := Type_ self; Data := Data self; DataLen := v;
            MaxLen := MaxLen self; ReturnCode := ReturnCode self |}) ;;
       seek 4 SeekCurrent ;;
       readField (fun self v =>
         {| Type_ := Type_ self; Data := Data self; DataLen := DataLen self;
            MaxLen := v; ReturnCode := ReturnCode self |}) ;;
       readField (fun self v =>
         {| Type_ := Type_ self; Data := Data self; DataLen := DataLen self;
            MaxLen := MaxLen self; ReturnCode := v |}))
      buf self.
End BaseRegQueryValueRes.

(** Opnum 20 *)
Module BaseRegSaveKeyReq.
Record t {M : Msdtyp} := {
  HKey : bytes;
  FileName : RRPUnicodeStr;
  SecurityAttributes : RpcSecurityAttributes.t
}.

Definition MarshalBinary {M : Msdtyp} (self : t) : t * (bytes * option error) :=
  if negb (blen (HKey self) =? 20)
  then (self, ([], Some (Errorf "Invalid length of HKey in BaseRegSaveKeyReq")))
  else
    let w := [] in
    let w := w ++ firstn 20 (HKey self) in
    let refId := uint32 1 in
    let '(w, fileName, refId) := writeRRPUnicodeStr w le (FileName self) refId false in
    let self := {| HKey := HKey self; FileName := fileName;
                   SecurityAttributes := SecurityAttributes self |} in
    let '(w, _, err) := writeRPCSecurityAttributes w le (SecurityAttributes self) refId in
    match err with
    | Some e => (self, ([], Some e))
    | None => (self, (w, None))
    end.

Definition UnmarshalBinary {M : Msdtyp} (self : t) (buf : bytes) : t * option error :=
  (self, Some (Errorf "NOT IMPLEMENTED UnmarshalBinary for BaseRegSaveKeyReq")).
End BaseRegSaveKeyReq.

(** Opnum 21 *)
Module BaseRegSetKeySecurityReq.
Record t {M : Msdtyp} := {
  HKey : bytes;
  SecurityInformation : Z;
  SecurityDescriptorIn : RpcSecurityDescriptor.t
}.

Definition MarshalBinary {M : Msdtyp} (self : t) : t * (bytes * option error) :=
  if negb (blen (HKey self) =? 20)
  then (self, ([], Some (Errorf "Invalid length of HKey in BaseRegSetKeySecurityReq")))
  else
    let w := [] in
    let w := w ++ firstn 20 (HKey self) in
    let w := w ++ PutUint32 le (SecurityInformation self) in
    let refId := uint32 1 in
    let '(w, _, err) := writeRPCSecurityDescriptor w le (SecurityDescriptorIn self) refId in
    match err with
    | Some e => (self, ([], Some e))
    | None => (self, (w, None))
    end.

Definition UnmarshalBinary {M : Msdtyp} (self : t) (buf : bytes) : t * option error :=
  (self, Some (Errorf "NOT IMPLEMENTED UnmarshalBinary for BaseRegSetKeySecurityReq")).
End BaseRegSetKeySecurityReq.

(** Opnum 22 *)
Module BaseRegSetValueReq.
Record t := {
  HKey : bytes;
  ValueName : RRPUnicodeStr;
  Type_ : Z;
  Data : bytes;
  DataLen : Z
}.

Definition MarshalBinary {M : Msdtyp} (self : t) : t * (bytes * option error) :=
  if negb (blen (HKey self) =? 20)
  then (self, ([], Some (Errorf "Invalid length of HKey in BaseRegSetValueReq")))
  else
    let w := [] in
    let w := w ++ firstn 20 (HKey self) in
    let refId := uint32 1 in
    let '(w, valueName, _) := writeRRPUnicodeStr w le (ValueName self) refId false in
    let self := {| HKey := HKey self; ValueName := valueName; Type_ := Type_ self;
                   Data := Data self; DataLen := DataLen self |} in
    let w := w ++ PutUint32 le (Type_ self) in
    let '(out, err) := msdtyp_WriteConformantArray (Data self) in
    let w := w ++ out in
    match err with Some e => (self, ([], Some e)) | None =>
    let w := w ++ PutUint32 le (uint32 (blen (Data self))) in
    (self, (w, None))
    end.

Definition UnmarshalBinary (self : t) (buf : bytes) : t * option error :=
  (self, Some (Errorf "NOT IMPLEMENTED UnmarshalBinary for BaseRegSetValueReq")).
End BaseRegSetValueReq.

(** ** An instance of package msdtyp

    Modelled from the spec: package msdtyp is missing. A security
    descriptor is "an opaque blob produced/consumed by an external
    collaborator", here the blob itself; a conformant-varying array is "u32
    MaxCount, u32 Offset, u32 ActualCount, element bytes, zero-padding to
    4-byte alignment", a pointer to one "consumes the next value and
    increments". The instance gives the examples something to run on; no
    theorem below depends on it. *)
Definition alignPadding (n : Z) : Z := (4 - n mod 4) mod 4.

Definition specWriteConformantVaryingArray (data : bytes) (maxCount : Z)
  : bytes * option error :=
  let n := uint32 (blen data) in
  let maxCount := if maxCount <? n then n else maxCount in
  (PutUint32 le maxCount ++ PutUint32 le 0 ++ PutUint32 le n ++ data
     ++ make (alignPadding (blen data)), None).

Definition specReadConformantVaryingArray (r : Reader) : Reader * (bytes * option error) :=
  let '(r, (maxCount, err)) := Read_uint32 le 0 r in
  match err with Some e => (r, ([], Some e)) | None =>
  let '(r, (offset, err)) := Read_uint32 le 0 r in
  match err with Some e => (r, ([], Some e)) | None =>
  let '(r, (actualCount, err)) := Read_uint32 le 0 r in
  match err with Some e => (r, ([], Some e)) | None =>
  let '(r, (data, err)) := Read_bytes actualCount [] r in
  match err with Some e => (r, ([], Some e)) | None =>
  let '(r, err) := Seek (alignPadding actualCount) SeekCurrent r in
  (r, (data, err))
  end end end end.

Definition specMsdtyp : Msdtyp := {|
  msdtyp_SecurityDescriptor := bytes;
  msdtyp_SecurityDescriptor_MarshalBinary := fun sd =>
    match sd with
    | Some blob => (blob, None)
    | None => ([], Some (Errorf "nil SecurityDescriptor"))
    end;
  msdtyp_SecurityDescriptor_UnmarshalBinary := fun blob => (blob, None);
  msdtyp_WriteConformantVaryingArrayPtr := fun data maxCount refId =>
    let '(out, err) := specWriteConformantVaryingArray data maxCount in
    (PutUint32 le refId ++ out, uint32 (refId + 1), err);
  msdtyp_WriteConformantVaryingArray := specWriteConformantVaryingArray;
  msdtyp_WriteConformantArray := fun data =>
    (PutUint32 le (uint32 (blen data)) ++ data ++ make (alignPadding (blen data)), None);
  msdtyp_ReadConformantVaryingArrayPtr := fun r =>
    let '(r, err) := Seek 4 SeekCurrent r in
    match err with
    | Some e => (r, ([], Some e))
    | None => specReadConformantVaryingArray r
    end;
  msdtyp_ReadConformantVaryingArray := specReadConformantVaryingArray
|}.

(** ** Lists of strings (REG_MULTI_SZ) *)

(** The loop of [fromUnicodeStrArray], on the bytes from index [i] on: two
    bytes at a time, as long as two are left. [uint16(buf[i+1]) << 8] is a
    16-bit shift. *)
Fixpoint fromUnicodeStrArray_loop (buf : bytes) (currentString : list Z)
  (result : list gostring) : list gostring :=
  match buf with
  | b0 :: b1 :: rest =>
      let char := Z.lor (uint16 (Z.shiftl b1 8)) b0 in
      if char =? 0 then
        if 0 <? Z.of_nat (List.length currentString)
        then fromUnicodeStrArray_loop rest [] (result ++ [utf16_Decode currentString])
        else result
      else fromUnicodeStrArray_loop rest (currentString ++ [char]) result
  | _ => result
  end.

(** Returns [result] and [err]; [err] is never set. *)
Definition fromUnicodeStrArray (buf : bytes) : list gostring * option error :=
  if blen buf <? 2 then ([], None)
  else (fromUnicodeStrArray_loop buf [] [], None).

(** ** Package smb: the SMB1 negotiate messages *)

(** The conversion of a string to its bytes: the UTF-8 encoding of its code
    points, [len] bytes long. *)
Definition utf8_EncodeRune (r : rune) : bytes :=
  if r <? 128 then [r]
  else if r <? 2048 then [192 + r / 64; 128 + r mod 64]
  else if r <? 65536 then [224 + r / 4096; 128 + (r / 64) mod 64; 128 + r mod 64]
  else [240 + r / 262144; 128 + (r / 4096) mod 64; 128 + (r / 64) mod 64; 128 + r mod 64].

Definition bytesOf (str : gostring) : bytes := flat_map utf8_EncodeRune str.

(** [err.Error()], as the verb %v prints it. *)
Definition errorString (e : error) : string :=
  match e with
  | EOF => "EOF"
  | ErrUnexpectedEOF => "unexpected EOF"
  | Errorf msg => msg
  end.

(** A non-negative integer as the verb %d prints it. *)
Definition decimal (n : Z) : string := NilZero.string_of_uint (N.to_uint (Z.to_N n)).

(** [buf[i]] and [buf[lo:hi]]. An index out of range panics; a slice
    expression panics when its bounds are out of order or [hi] exceeds the
    capacity, and the model panics as soon as [hi] exceeds the length, so
    where the model returns, the Go code does and returns the same. *)
Definition index (buf : bytes) (i : Z) : outcome byte :=
  if (0 <=? i) && (i <? blen buf) then Returns (nth (Z.to_nat i) buf 0) else Panics.

Definition slice (buf : bytes) (lo hi : Z) : outcome bytes :=
  if (0 <=? lo) && (lo <=? hi) && (hi <=? blen buf)
  then Returns (firstn (Z.to_nat (hi - lo)) (skipn (Z.to_nat lo) buf))
  else Panics.

Definition Uint64 (b : bytes) : option Z :=
  match b with
  | b0 :: b1 :: b2 :: b3 :: b4 :: b5 :: b6 :: b7 :: _ =>
      Some (b0 + 256 * b1 + 65536 * b2 + 16777216 * b3 + 4294967296 * b4
            + 1099511627776 * b5 + 281474976710656 * b6 + 72057594037927936 * b7)
  | _ => None
  end.

(** A call of [binary.LittleEndian.Uint16], [Uint32] or [Uint64]: it panics
    on a slice that is too short. *)
Definition orPanic {A : Type} (o : option A) : outcome A :=
  match o with
  | Some a => Returns a
  | None => Panics
  end.

Definition andThenO {A B : Type} (o : outcome A) (k : A -> outcome B) : outcome B :=
  match o with
  | Returns a => k a
  | Panics => Panics
  end.

Notation "x <-- o ;; k" := (andThenO o (fun x => k))
  (at level 61, o at next level, right associativity).

Notation "' pat <-- o ;; k" := (andThenO o (fun x => match x with pat => k end))
  (at level 61, pat pattern, o at next level, right associativity).

(** [int16(v)] of a [uint16]. *)
Definition int16 (v : Z) : Z := if v <? 32768 then v else v - 65536.

(** MS-CIFS 2.2.3.1 SMB Header *)
Module SMB1Header.
Record t := {
  Protocol : bytes;
  Command : Z;
  Status : Z;
  Flags : Z;
  Flags2 : Z;
  PIDHigh : Z;
  SecurityFeatures : bytes;
  Reserved : Z;
  TID : Z;
  PIDLow : Z;
  UID : Z;
  MID : Z
}.
End SMB1Header.

(** The reflective codec of package smb/encoder is not among the sources.
    The negotiate messages call it on the header only and look at nothing
    but what it returns, so it is taken as a parameter: [Marshal] of a
    header, and [Unmarshal] of bytes into a header, which it may have filled
    in part when it fails. *)
Class Encoder := {
  encoder_Marshal : SMB1Header.t -> bytes * option error;
  encoder_Unmarshal : bytes -> SMB1Header.t -> SMB1Header.t * option error
}.

Definition SMB1CommandNegotiate : Z := 114.

Module SMB1Dialect.
Record t := { BufferFormat : Z; DialectString : gostring }.
End SMB1Dialect.

Module SMB1NegotiateReq.
Record t := {
  Header : SMB1Header.t;
  WordCount : Z;
  ByteCount : Z;
  Dialects : list SMB1Dialect.t
}.

(** The loop over [self.Dialects]: each item appends 0x2 and the bytes of
    its string. *)
Definition appendDialects (dialects : list SMB1Dialect.t) (dialectsBuffer : bytes) : bytes :=
  fold_left (fun buffer item => (buffer ++ [2]) ++ bytesOf (SMB1Dialect.DialectString item))
            dialects dialectsBuffer.

Definition MarshalBinary {E : Encoder} (self : t) : bytes * option error :=
  let w := [] in
  let '(hBuf, err) := encoder_Marshal (Header self) in
  match err with Some e => ([], Some e) | None =>
  let w := w ++ hBuf in
  let w := w ++ [WordCount self] in
  let dialectsBuffer := appendDialects (Dialects self) [] in
  let w := w ++ PutUint16 le (uint16 (blen dialectsBuffer)) in
  let w := w ++ dialectsBuffer in
  (w, None)
  end.

Definition UnmarshalBinary (self : t) (buf : bytes) : t * option error :=
  (self, Some (Errorf "NOT IMPLEMENTED UnmarshalBinary for SMB1NegotiateReq")).
End SMB1NegotiateReq.

(** MS-CIFS 2.2.4.52.2 SMB_COM_NEGOTIATE Response *)
Module SMB1NegotiateRes.
Record t := {
  Header : SMB1Header.t;
  WordCount : Z;
  DialectIndex : Z;
  SecurityMode : Z;
  MaxMpxCount : Z;
  MaxVcCount : Z;
  MaxBufSize : Z;
  MaxRawSize : Z;
  SessionKey : Z;
  Capabilities : Z;
  SystemTime : Z;
  TimeZone : Z;
  KeyLength : Z;
  ByteCount : Z;
  SecurityBlob : bytes
}.

(** [if len(buf) >= offset+n { field = ...; offset += n }] for the four
    widths: the value of the field and the offset after the block. *)
Definition optionalByte (buf : bytes) (old offset : Z) : outcome (Z * Z) :=
  if offset + 1 <=? blen buf
  then v <-- index buf offset ;; Returns (v, offset + 1)
  else Returns (old, offset).

Definition optionalUint16 (buf : bytes) (old offset : Z) : outcome (Z * Z) :=
  if offset + 2 <=? blen buf
  then b <-- slice buf offset (offset + 2) ;; v <-- orPanic (Uint16 b) ;;
       Returns (v, offset + 2)
  else Returns (old, offset).

(** The same with [int16(...)] around the value read. *)
Definition optionalInt16 (buf : bytes) (old offset : Z) : outcome (Z * Z) :=
  if offset + 2 <=? blen buf
  then b <-- slice buf offset (offset + 2) ;; v <-- orPanic (Uint16 b) ;;
       Returns (int16 v, offset + 2)
  else Returns (old, offset).

Definition optionalUint32 (buf : bytes) (old offset : Z) : outcome (Z * Z) :=
  if offset + 4 <=? blen buf
  then b <-- slice buf offset (offset + 4) ;; v <-- orPanic (Uint32 b) ;;
       Returns (v, offset + 4)
  else Returns (old, offset).

Definition optionalUint64 (buf : bytes) (old offset : Z) : outcome (Z * Z) :=
  if offset + 8 <=? blen buf
  then b <-- slice buf offset (offset + 8) ;; v <-- orPanic (Uint64 b) ;;
       Returns (v, offset + 8)
  else Returns (old, offset).

Definition UnmarshalBinary {E : Encoder} (self : t) (buf : bytes)
  : outcome (t * option error) :=
  if blen buf <? 37
  then Returns (self, Some (Errorf ("SMB1 negotiate response too short: "
                                      ++ decimal (blen buf) ++ " bytes")))
  else
    (* Parse header *)
    head <-- slice buf 0 32 ;;
    let '(header, err) := encoder_Unmarshal head (Header self) in
    let self := {| Header := header; WordCount := WordCount self;
                   DialectIndex := DialectIndex self; SecurityMode := SecurityMode self;
                   MaxMpxCount := MaxMpxCount self; MaxVcCount := MaxVcCount self;
                   MaxBufSize := MaxBufSize self; MaxRawSize := MaxRawSize self;
                   SessionKey := SessionKey self; Capabilities := Capabilities self;
                   SystemTime := SystemTime self; TimeZone := TimeZone self;
                   KeyLength := KeyLength self; ByteCount := ByteCount self;
                   SecurityBlob := SecurityBlob self |} in
    match err with
    | Some e =>
        Returns (self, Some (Errorf ("failed to unmarshal SMB1 header: " ++ errorString e)))
    | None =>
    (* Parse negotiate response body *)
    let offset := 32 in
    wordCount <-- index buf offset ;;
    let offset := offset + 1 in
    if wordCount =? 0 then
      (* No common dialect found *)
      Returns ({| Header := header; WordCount := wordCount; DialectIndex := 65535;
                  SecurityMode := SecurityMode self;
                  MaxMpxCount := MaxMpxCount self; MaxVcCount := MaxVcCount self;
                  MaxBufSize := MaxBufSize self; MaxRawSize := MaxRawSize self;
                  SessionKey := SessionKey self; Capabilities := Capabilities self;
                  SystemTime := SystemTime self; TimeZone := TimeZone self;
                  KeyLength := KeyLength self; ByteCount := ByteCount self;
                  SecurityBlob := SecurityBlob self |}, None)
    else if blen buf <? offset + 2 then
      Returns ({| Header := header; WordCount := wordCount;
                  DialectIndex := DialectIndex self; SecurityMode := SecurityMode self;
                  MaxMpxCount := MaxMpxCount self; MaxVcCount := MaxVcCount self;
                  MaxBufSize := MaxBufSize self; MaxRawSize := MaxRawSize self;
                  SessionKey := SessionKey self; Capabilities := Capabilities self;
                  SystemTime := SystemTime self; TimeZone := TimeZone self;
                  KeyLength := KeyLength self; ByteCount := ByteCount self;
                  SecurityBlob := SecurityBlob self |},
               Some (Errorf "SMB1 negotiate response missing DialectIndex"))
    else
      b <-- slice buf offset (offset + 2) ;;
      dialectIndex <-- orPanic (Uint16 b) ;;
      let offset := offset + 2 in
      (* Parse remaining fields with bounds checking *)
      '(securityMode, offset) <-- optionalByte buf (SecurityMode self) offset ;;
      '(maxMpxCount, offset) <-- optionalUint16 buf (MaxMpxCount self) offset ;;
      '(maxVcCount, offset) <-- optionalUint16 buf (MaxVcCount self) offset ;;
      '(maxBufSize, offset) <-- optionalUint32 buf (MaxBufSize self) offset ;;
      '(maxRawSize, offset) <-- optionalUint32 buf (MaxRawSize self) offset ;;
      '(sessionKey, offset) <-- optionalUint32 buf (SessionKey self) offset ;;
      '(capabilities, offset) <-- optionalUint32 buf (Capabilities self) offset ;;
      '(systemTime, offset) <-- optionalUint64 buf (SystemTime self) offset ;;
      '(timeZone, offset) <-- optionalInt16 buf (TimeZone self) offset ;;
      '(keyLength, offset) <-- optionalByte buf (KeyLength self) offset ;;
      (* Parse ByteCount and SecurityBlob *)
      '(byteCount, securityBlob) <--
        (if offset + 2 <=? blen buf then
           b <-- slice buf offset (offset + 2) ;;
           byteCount <-- orPanic (Uint16 b) ;;
           let offset := offset + 2 in
           if (0 <? keyLength) && (offset + keyLength <=? blen buf)
           then blob <-- slice buf offset (offset + keyLength) ;;
                Returns (byteCount, blob)
           else Returns (byteCount, SecurityBlob self)
         else Returns (ByteCount self, SecurityBlob self)) ;;
      Returns ({| Header := header; WordCount := wordCount; DialectIndex := dialectIndex;
                  SecurityMode := securityMode;
                  MaxMpxCount := maxMpxCount; MaxVcCount := maxVcCount;
                  MaxBufSize := maxBufSize; MaxRawSize := maxRawSize;
                  SessionKey := sessionKey; Capabilities := capabilities;
                  SystemTime := systemTime; TimeZone := timeZone;
                  KeyLength := keyLength; ByteCount := byteCount;
                  SecurityBlob := securityBlob |}, None)
    end.

Definition MarshalBinary (self : t) : t * (bytes * option error) :=
  (self, ([], Some (Errorf "NOT IMPLEMENTED MarshalBinary for SMB1NegotiateRes"))).
End SMB1NegotiateRes.

(** [NewSMB1NegotiateReq]; the constant [ProtocolSmb] of the package is
    declared in a file that is not among the sources, and its bytes are a
    parameter. *)
Definition NewSMB1NegotiateReq (protocolSmb : bytes)
  : SMB1NegotiateReq.t * option error :=
  let header :=
    {| SMB1Header.Protocol := protocolSmb;
       SMB1Header.Command := SMB1CommandNegotiate;
       SMB1Header.Status := 0;
       SMB1Header.Flags := 24;
       SMB1Header.Flags2 := 51201;
       SMB1Header.PIDHigh := 0;
       SMB1Header.SecurityFeatures := make 8;
       SMB1Header.Reserved := 0;
       SMB1Header.TID := 65535;
       SMB1Header.PIDLow := 0;
       SMB1Header.UID := 0;
       SMB1Header.MID := 0 |} in
  let dialect (name : string) : SMB1Dialect.t :=
    {| SMB1Dialect.BufferFormat := 2; SMB1Dialect.DialectString := lit name ++ [0] |} in
  let dialects :=
    [ dialect "PC NETWORK PROGRAM 1.0"%string;
      dialect "LANMAN1.0"%string;
      dialect "Windows for Workgroups 3.1a"%string;
      dialect "LM1.2X002"%string;
      dialect "LANMAN2.1"%string;
      dialect "NT LM 0.12"%string;
      dialect "SMB 2.002"%string;
      dialect "SMB 2.100"%string;
      dialect "SMB 2.???"%string ] in
  ({| SMB1NegotiateReq.Header := header;
      SMB1NegotiateReq.WordCount := 0;
      SMB1NegotiateReq.ByteCount := 0;
      SMB1NegotiateReq.Dialects := dialects |}, None).

(** * Vocabulary of the properties

    The quantities and predicates the statements below are written with,
    and the values of their examples. *)

(** ** Readers and strings *)

(** A reader that has consumed [pre] and is about to read [rest]. *)
Definition at_ (pre rest : bytes) : Reader := {| rs := pre ++ rest; ri := blen pre |}.

(** The last four bytes of a buffer. *)
Definition lastFour (buf : bytes) : bytes := skipn (Z.to_nat (blen buf - 4)) buf.

(** The number of padding bytes of the specification's invariant. *)
Definition paddingFormula (offset count : Z) : Z :=
  (4 - (offset * 2 + count * 2) mod 4) mod 4.

Definition isBMPString (str : gostring) : bool := forallb isBMP str.

(** The number of 16-bit elements of the UTF-16 encoding of a string, as a
    [uint32]. *)
Definition elementCount (str : gostring) : Z := uint32 (blen (ToUnicode str) / 2).

(** The count and the element bytes [writeConformantVaryingString] puts on
    the wire: none for the empty string. *)
Definition wireCount (us : RRPUnicodeStr) : Z :=
  if isEmpty (S us) then 0 else elementCount (NullTerminate (S us)).

Definition wireElems (us : RRPUnicodeStr) : bytes :=
  if isEmpty (S us) then [] else ToUnicode (NullTerminate (S us)).

(** The conformant-varying array of a string record. *)
Definition stringArray (bo : ByteOrder) (us : RRPUnicodeStr) : bytes :=
  PutUint32 bo (uint32 (MaxLength us)) ++ PutUint32 bo 0
    ++ PutUint32 bo (wireCount us) ++ wireElems us
    ++ make (paddingRule 0 (wireCount us)).

(** The array with MaxCount equal to the element count. *)
Definition claimedStringArray (bo : ByteOrder) (us : RRPUnicodeStr) : bytes :=
  let str := NullTerminate (S us) in
  let count := elementCount str in
  PutUint32 bo count ++ PutUint32 bo 0 ++ PutUint32 bo count
    ++ ToUnicode str ++ make (paddingRule 0 count).

(** The string record as [writeRRPUnicodeStr] leaves it. *)
Definition terminated (us : RRPUnicodeStr) : RRPUnicodeStr :=
  let str := if isEmpty (S us) then S us else NullTerminate (S us) in
  let l := uint16 (len str) in
  {| MaxLength := if MaxLength us <? l then l else MaxLength us; S := str |}.

(** The two 16-bit length fields in front of the pointer. *)
Definition stringLengths (bo : ByteOrder) (us : RRPUnicodeStr) : bytes :=
  PutUint16 bo (if isEmpty (S us) then uint16 0
                else uint16 (uint16 (len (S (terminated us))) * 2))
    ++ PutUint16 bo (uint16 (MaxLength (terminated us) * 2)).

(** ** Contracts of encoders and decoders *)

(** A decoder that is not implemented: it returns a not-implemented error
    and the receiver as it was, whatever the buffer. *)
Definition unsupportedDecode {T : Type} (unmarshal : T -> bytes -> T * option error) : Prop :=
  forall (self : T) (buf : bytes),
    exists e, unmarshal self buf = (self, Some e) /\ isNotImplemented e = true.

(** An encoder that is not implemented: it returns no bytes, a
    not-implemented error and the receiver as it was. *)
Definition unsupportedEncode {T : Type} (marshal : T -> T * (bytes * option error)) : Prop :=
  forall self : T,
    exists e, marshal self = (self, ([], Some e)) /\ isNotImplemented e = true.

(** An encoder that refuses a handle that is not 20 bytes long: it returns
    no bytes, an invalid-handle-length error and the receiver as it was. *)
Definition rejectsBadHandle {T : Type} (hkey : T -> bytes)
  (marshal : T -> T * (bytes * option error)) : Prop :=
  forall self : T,
    blen (hkey self) <> 20 ->
    exists e, marshal self = (self, ([], Some e)) /\ isInvalidHandleLength e = true.

(** An encoder whose output, when it succeeds, starts with the handle. *)
Definition startsWithHandle {T : Type} (hkey : T -> bytes)
  (marshal : T -> T * (bytes * option error)) : Prop :=
  forall (self : T) (w : bytes),
    blen (hkey self) = 20 ->
    snd (marshal self) = (w, None) ->
    firstn 20 w = hkey self.

(** The error, if any, that package msdtyp returns on the way of
    [writeRPCSecurityAttributes] and of [writeRPCSecurityDescriptor]: from
    the codec of the security descriptor, or else from the array writer. A
    descriptor that is nil is not marshalled by [writeRPCSecurityDescriptor]. *)
Definition attributesError {M : Msdtyp} (sa : RpcSecurityAttributes.t) : option error :=
  let '(buf, err) :=
    msdtyp_SecurityDescriptor_MarshalBinary
      (RpcSecurityDescriptor.SecurityDescriptor (RpcSecurityAttributes.SecurityDescriptor sa)) in
  match err with
  | Some e => Some e
  | None => snd (msdtyp_WriteConformantVaryingArray buf 0)
  end.

Definition descriptorError {M : Msdtyp} (sd : RpcSecurityDescriptor.t) : option error :=
  match RpcSecurityDescriptor.SecurityDescriptor sd with
  | None => None
  | Some d =>
      let '(buf, err) := msdtyp_SecurityDescriptor_MarshalBinary (Some d) in
      match err with
      | Some e => Some e
      | None => snd (msdtyp_WriteConformantVaryingArray buf 0)
      end
  end.

(** An encoder that, given a 20-byte handle, succeeds with an output that
    starts with the handle, unless [failure] holds an error of package
    msdtyp, which it then returns with no bytes. *)
Definition encodesHandleUnless {T : Type} (failure : T -> option error)
  (hkey : T -> bytes) (marshal : T -> T * (bytes * option error)) : Prop :=
  forall self : T,
    blen (hkey self) = 20 ->
    match failure self with
    | None => exists self' w, marshal self = (self', (w, None)) /\ firstn 20 w = hkey self
    | Some e => exists self', marshal self = (self', ([], Some e))
    end.

(** An encoder that always succeeds on a 20-byte handle. *)
Definition encodesHandle {T : Type} (hkey : T -> bytes)
  (marshal : T -> T * (bytes * option error)) : Prop :=
  encodesHandleUnless (fun _ => None) hkey marshal.

(** A decoder that checks a minimum length first: a shorter buffer is
    answered with a buffer-too-short error, the receiver as it was. *)
Definition checksLength {T : Type} (minimum : Z)
  (unmarshal : T -> bytes -> T * option error) : Prop :=
  forall (self : T) (buf : bytes),
    blen buf < minimum ->
    exists e, unmarshal self buf = (self, Some e) /\ isBufferTooShort e = true.

(** ** Example values *)

(** "a" with room for ten characters. *)
Definition usLargerMax : RRPUnicodeStr := {| MaxLength := 10; S := lit "a" |}.

(** "a\0", handed in already terminated. *)
Definition usTerminated : RRPUnicodeStr := {| MaxLength := 2; S := [97; 0] |}.

(** The empty string. *)
Definition usEmpty : RRPUnicodeStr := {| MaxLength := 0; S := [] |}.

(** An ASCII string of 32767 characters with MaxLength 32767: terminated it
    has 32768 characters, and its 16-bit length in bytes wraps to 0. *)
Definition usLong : RRPUnicodeStr :=
  {| MaxLength := 32767; S := repeat 97 (Z.to_nat 32767) |}.

(** Requests to open a key under the handle of twenty zero bytes, with
    KEY_READ access (0x20019). *)
Definition openKeyRequest : BaseRegOpenKeyReq.t :=
  {| BaseRegOpenKeyReq.HKey := make 20;
     BaseRegOpenKeyReq.SubKey := usLargerMax;
     BaseRegOpenKeyReq.Options := 0;
     BaseRegOpenKeyReq.DesiredAccess := 131097 |}.

Definition openKeyTerminated : BaseRegOpenKeyReq.t :=
  {| BaseRegOpenKeyReq.HKey := make 20;
     BaseRegOpenKeyReq.SubKey := usTerminated;
     BaseRegOpenKeyReq.Options := 0;
     BaseRegOpenKeyReq.DesiredAccess := 131097 |}.

(** Handles of 19 and of 20 bytes. *)
Definition shortHandle : BaseRegCloseKeyReq.t := {| BaseRegCloseKeyReq.HKey := make 19 |}.

Definition goodHandle : BaseRegCloseKeyReq.t := {| BaseRegCloseKeyReq.HKey := make 20 |}.

Definition noTime : PFiletime.t :=
  {| PFiletime.LowDateTime := 0; PFiletime.HighDateTime := 0 |}.

(** The response to a failed BaseRegGetKeySecurity call: twelve bytes of
    payload and the return code 5 (access denied). *)
Definition failedSecurityCall : bytes := make 12 ++ [5; 0; 0; 0].

(** Fresh receivers: every field has its zero value. *)
Definition emptySecurityRes : @BaseRegGetKeySecurityRes.t specMsdtyp :=
  {| BaseRegGetKeySecurityRes.SecurityDescriptorOut :=
       {| RpcSecurityDescriptor.SecurityDescriptor := None;
          RpcSecurityDescriptor.InSecurityDescriptor := 0;
          RpcSecurityDescriptor.OutSecurityDescriptor := 0 |};
     BaseRegGetKeySecurityRes.ReturnCode := 0 |}.

Definition zeroQueryInfoKeyRes : BaseRegQueryInfoKeyRes.t :=
  {| BaseRegQueryInfoKeyRes.ClassOut := {| RPC_MaxLength := 0; RPC_S := [] |};
     BaseRegQueryInfoKeyRes.SubKeys := 0;
     BaseRegQueryInfoKeyRes.MaxSubKeyLen := 0;
     BaseRegQueryInfoKeyRes.MaxClassLen := 0;
     BaseRegQueryInfoKeyRes.Values := 0;
     BaseRegQueryInfoKeyRes.MaxValueNameLen := 0;
     BaseRegQueryInfoKeyRes.MaxValueLen := 0;
     BaseRegQueryInfoKeyRes.SecurityDescriptor := 0;
     BaseRegQueryInfoKeyRes.LastWriteTime :=
       {| Filetime.LowDateTime := 0; Filetime.HighDateTime := 0 |};
     BaseRegQueryInfoKeyRes.ReturnCode := 0 |}.

Definition zeroQueryValueRes : BaseRegQueryValueRes.t :=
  {| BaseRegQueryValueRes.Type_ := 0;
     BaseRegQueryValueRes.Data := [];
     BaseRegQueryValueRes.DataLen := 0;
     BaseRegQueryValueRes.MaxLen := 0;
     BaseRegQueryValueRes.ReturnCode := 0 |}.

(** Security attributes around a descriptor of four bytes. *)
Definition someDescriptor : @RpcSecurityDescriptor.t specMsdtyp :=
  @RpcSecurityDescriptor.Build_t specMsdtyp (Some [1; 0; 4; 128]) 0 0.

Definition someAttributes : @RpcSecurityAttributes.t specMsdtyp :=
  {| RpcSecurityAttributes.Length := 0;
     RpcSecurityAttributes.SecurityDescriptor := someDescriptor;
     RpcSecurityAttributes.InheritHandle := 1 |}.

(** ** Lists of strings *)

(** The UTF-16LE bytes of a sequence of 16-bit units, and of a string. *)
Definition encodeUnits (u : list Z) : bytes := flat_map (PutUint16 le) u.

Definition utf16le (str : gostring) : bytes := encodeUnits (flat_map utf16_EncodeRune str).

(** Strings one after the other, each followed by a null character. *)
Definition multiString (strs : list gostring) : bytes :=
  flat_map (fun str => utf16le str ++ [0; 0]) strs.

(** A code point that UTF-16 can carry: of the Basic Multilingual Plane and
    no surrogate, or above it up to U+10FFFF. *)
Definition isScalar (r : rune) : bool :=
  isBMP r || ((65536 <=? r) && (r <=? 1114111)).

(** A character of an item of a list: a code point that is not null. *)
Definition isItemChar (r : rune) : bool := isScalar r && negb (r =? 0).

(** A string that can be an item of a list: not empty, and all of its
    characters can be. *)
Definition isItem (str : gostring) : bool :=
  negb (isEmpty str) && forallb isItemChar str.

(** ** Strings on the wire *)

(** A counted string as a response carries it: the length field [l], the
    maximum length, the referent ID, and the conformant-varying array of the
    terminated string (MaxCount, Offset 0, the number of 16-bit elements, the
    elements in UTF-16LE, the padding). *)
Definition wireString (str : gostring) (l maxLength refId maxCount : Z) : bytes :=
  let n := Z.of_nat (List.length (str ++ [0])) in
  PutUint16 le l ++ PutUint16 le maxLength ++ PutUint32 le refId
    ++ PutUint32 le maxCount ++ PutUint32 le 0 ++ PutUint32 le n
    ++ utf16le (str ++ [0]) ++ make (paddingFormula 0 n).

(** The null string: a zero length, the maximum length and the four bytes
    of the pointer. *)
Definition wireNull (maxLength : Z) (ptr : bytes) : bytes :=
  PutUint16 le 0 ++ PutUint16 le maxLength ++ ptr.

(** ** SMB1 negotiate messages *)

(** [buf] holds [suffix] from the offset [off] on. *)
Definition holdsAt (buf : bytes) (off : Z) (suffix : bytes) : Prop :=
  exists pre, buf = pre ++ suffix /\ blen pre = off.

(** The eight bytes of a 64-bit value, least significant first. *)
Definition PutUint64 (x : Z) : bytes :=
  PutUint32 le (x mod 4294967296) ++ PutUint32 le (x / 4294967296).

(** The body of a negotiate response (MS-CIFS 2.2.4.52.2) with all its
    fields; [timeZone] is the 16-bit value on the wire. *)
Definition negotiateBody
  (wordCount dialectIndex securityMode maxMpxCount maxVcCount maxBufSize maxRawSize
     sessionKey capabilities systemTime timeZone keyLength byteCount : Z)
  (blob : bytes) : bytes :=
  [wordCount] ++ PutUint16 le dialectIndex ++ [securityMode]
    ++ PutUint16 le maxMpxCount ++ PutUint16 le maxVcCount
    ++ PutUint32 le maxBufSize ++ PutUint32 le maxRawSize
    ++ PutUint32 le sessionKey ++ PutUint32 le capabilities
    ++ PutUint64 systemTime ++ PutUint16 le timeZone
    ++ [keyLength] ++ PutUint16 le byteCount ++ blob.

(** The dialects of a negotiate request on the wire: each is the byte 0x2
    and the bytes of its string. *)
Definition dialectsBytes (dialects : list SMB1Dialect.t) : bytes :=
  flat_map (fun item => 2 :: bytesOf (SMB1Dialect.DialectString item)) dialects.

Definition dialectsLength (dialects : list SMB1Dialect.t) : Z :=
  fold_right (fun item n => 1 + len (SMB1Dialect.DialectString item) + n) 0 dialects.

(** Modelled from the spec: package smb/encoder is missing, and the
    specification leaves the transport out. An instance of the codec for
    the examples, after the comments of [SMB1Header]: 32 bytes, the fields
    in their order, [Protocol] and [SecurityFeatures] of the fixed lengths 4
    and 8, the integers in little-endian order. No theorem depends on it. *)
Definition exampleMarshal (h : SMB1Header.t) : bytes * option error :=
  (firstn 4 (SMB1Header.Protocol h) ++ [SMB1Header.Command h]
     ++ PutUint32 le (SMB1Header.Status h) ++ [SMB1Header.Flags h]
     ++ PutUint16 le (SMB1Header.Flags2 h) ++ PutUint16 le (SMB1Header.PIDHigh h)
     ++ firstn 8 (SMB1Header.SecurityFeatures h)
     ++ PutUint16 le (SMB1Header.Reserved h) ++ PutUint16 le (SMB1Header.TID h)
     ++ PutUint16 le (SMB1Header.PIDLow h) ++ PutUint16 le (SMB1Header.UID h)
     ++ PutUint16 le (SMB1Header.MID h), None).

Definition exampleUnmarshal (buf : bytes) (h : SMB1Header.t) : SMB1Header.t * option error :=
  if blen buf <? 32 then (h, Some ErrUnexpectedEOF)
  else
    let u16 (off : nat) := nth off buf 0 + 256 * nth (off + 1) buf 0 in
    ({| SMB1Header.Protocol := firstn 4 buf;
        SMB1Header.Command := nth 4 buf 0;
        SMB1Header.Status := u16 5%nat + 65536 * u16 7%nat;
        SMB1Header.Flags := nth 9 buf 0;
        SMB1Header.Flags2 := u16 10%nat;
        SMB1Header.PIDHigh := u16 12%nat;
        SMB1Header.SecurityFeatures := firstn 8 (skipn 14 buf);
        SMB1Header.Reserved := u16 22%nat;
        SMB1Header.TID := u16 24%nat;
        SMB1Header.PIDLow := u16 26%nat;
        SMB1Header.UID := u16 28%nat;
        SMB1Header.MID := u16 30%nat |}, None).

Definition exampleEncoder : Encoder :=
  {| encoder_Marshal := exampleMarshal; encoder_Unmarshal := exampleUnmarshal |}.

(** A header, a receiver and a response for the examples. *)
Definition exampleHeader : SMB1Header.t :=
  SMB1NegotiateReq.Header (fst (NewSMB1NegotiateReq [255; 83; 77; 66])).

Definition zeroHeader : SMB1Header.t :=
  {| SMB1Header.Protocol := []; SMB1Header.Command := 0; SMB1Header.Status := 0;
     SMB1Header.Flags := 0; SMB1Header.Flags2 := 0; SMB1Header.PIDHigh := 0;
     SMB1Header.SecurityFeatures := []; SMB1Header.Reserved := 0; SMB1Header.TID := 0;
     SMB1Header.PIDLow := 0; SMB1Header.UID := 0; SMB1Header.MID := 0 |}.

Definition zeroNegotiateRes : SMB1NegotiateRes.t :=
  {| SMB1NegotiateRes.Header := zeroHeader;
     SMB1NegotiateRes.WordCount := 0;
     SMB1NegotiateRes.DialectIndex := 0;
     SMB1NegotiateRes.SecurityMode := 0;
     SMB1NegotiateRes.MaxMpxCount := 0;
     SMB1NegotiateRes.MaxVcCount := 0;
     SMB1NegotiateRes.MaxBufSize := 0;
     SMB1NegotiateRes.MaxRawSize := 0;
     SMB1NegotiateRes.SessionKey := 0;
     SMB1NegotiateRes.Capabilities := 0;
     SMB1NegotiateRes.SystemTime := 0;
     SMB1NegotiateRes.TimeZone := 0;
     SMB1NegotiateRes.KeyLength := 0;
     SMB1NegotiateRes.ByteCount := 0;
     SMB1NegotiateRes.SecurityBlob := [] |}.

(** The 32 bytes of [exampleHeader]. *)
Definition exampleHeaderBytes : bytes := fst (exampleMarshal exampleHeader).

(** * Properties *)

(** ** Bytes and readers *)

Lemma blen_nonneg (b : bytes) : 0 <= blen b.
Proof. unfold blen. lia. Qed.

Lemma blen_app (a b : bytes) : blen (a ++ b) = blen a + blen b.
Proof. unfold blen. rewrite length_app. lia. Qed.

Lemma blen_nil : blen [] = 0.
Proof. reflexivity. Qed.

Lemma blen_cons (x : byte) (b : bytes) : blen (x :: b) = 1 + blen b.
Proof. unfold blen. cbn [List.length]. lia. Qed.

Lemma blen_PutUint16 bo x : blen (PutUint16 bo x) = 2.
Proof. destruct bo; reflexivity. Qed.

Lemma blen_PutUint32 bo x : blen (PutUint32 bo x) = 4.
Proof. destruct bo; reflexivity. Qed.

Lemma blen_make n : 0 <= n -> blen (make n) = n.
Proof. intros H. unfold blen, make. rewrite repeat_length. lia. Qed.

Lemma blen_zero_nil (b : bytes) : blen b = 0 -> b = [].
Proof.
  destruct b as [| x b']; [reflexivity |].
  rewrite blen_cons. pose proof (blen_nonneg b'). lia.
Qed.

Lemma Uint16_PutUint16 x rest :
  0 <= x < 65536 -> Uint16 (PutUint16 le x ++ rest) = Some x.
Proof.
  intros H. unfold Uint16, PutUint16, le. cbn [app]. f_equal.
  pose proof (Z.div_mod x 256 ltac:(lia)).
  rewrite (Z.mod_small (x / 256) 256); [lia |].
  split; [apply Z.div_pos; lia | apply Z.div_lt_upper_bound; lia].
Qed.

Lemma Uint32_PutUint32 x rest :
  0 <= x < 4294967296 -> Uint32 (PutUint32 le x ++ rest) = Some x.
Proof.
  intros H. unfold Uint32, PutUint32, le. cbn [app]. f_equal.
  pose proof (Z.div_mod x 256 ltac:(lia)) as H0.
  pose proof (Z.div_mod (x / 256) 256 ltac:(lia)) as H1.
  pose proof (Z.div_mod (x / 256 / 256) 256 ltac:(lia)) as H2.
  replace (x / 65536) with (x / 256 / 256) by (rewrite Z.div_div by lia; reflexivity).
  replace (x / 16777216) with (x / 256 / 256 / 256)
    by (rewrite !Z.div_div by lia; reflexivity).
  rewrite (Z.mod_small (x / 256 / 256 / 256) 256); [lia |].
  split; [repeat apply Z.div_pos; lia |].
  repeat (apply Z.div_lt_upper_bound; [lia |]). lia.
Qed.

Lemma NewReader_at (buf : bytes) : NewReader buf = at_ [] buf.
Proof. reflexivity. Qed.

Lemma at_app (pre x rest : bytes) :
  {| rs := pre ++ x ++ rest; ri := blen pre + blen x |} = at_ (pre ++ x) rest.
Proof. unfold at_. rewrite blen_app, app_assoc. reflexivity. Qed.

Lemma unread_at (pre rest : bytes) : unread (at_ pre rest) = rest.
Proof.
  unfold unread, at_; cbn [rs ri]. rewrite blen_app.
  destruct (blen pre + blen rest <=? blen pre) eqn:E.
  - apply Z.leb_le in E. symmetry. apply blen_zero_nil.
    pose proof (blen_nonneg rest). lia.
  - unfold blen. rewrite Nat2Z.id. rewrite skipn_app, skipn_all, Nat.sub_diag. reflexivity.
Qed.

Lemma ReadFull_at (pre x rest : bytes) :
  ReadFull (blen x) (at_ pre (x ++ rest)) = (at_ (pre ++ x) rest, (x, None)).
Proof.
  unfold ReadFull. destruct (blen x <=? 0) eqn:E.
  - apply Z.leb_le in E. pose proof (blen_nonneg x).
    assert (x = []) as -> by (apply blen_zero_nil; lia).
    cbn [app]. rewrite app_nil_r. reflexivity.
  - apply Z.leb_gt in E. rewrite unread_at.
    assert ((blen (x ++ rest) =? 0) = false) as ->.
    { apply Z.eqb_neq. rewrite blen_app. pose proof (blen_nonneg rest). lia. }
    assert ((blen (x ++ rest) <? blen x) = false) as ->.
    { apply Z.ltb_ge. rewrite blen_app. pose proof (blen_nonneg rest). lia. }
    cbn [rs ri at_]. rewrite at_app. f_equal. f_equal.
    unfold blen. rewrite Nat2Z.id, firstn_app, firstn_all, Nat.sub_diag.
    cbn. apply app_nil_r.
Qed.

Lemma Read_uint16_at old (pre rest : bytes) x :
  0 <= x < 65536 ->
  Read_uint16 le old (at_ pre (PutUint16 le x ++ rest))
  = (at_ (pre ++ PutUint16 le x) rest, (x, None)).
Proof.
  intros H. unfold Read_uint16.
  change 2 with (blen (PutUint16 le x)). rewrite ReadFull_at.
  unfold GetUint16, le. pose proof (Uint16_PutUint16 [] H) as E.
  rewrite app_nil_r in E. unfold le in E. rewrite E. reflexivity.
Qed.

Lemma Read_uint32_at old (pre rest : bytes) x :
  0 <= x < 4294967296 ->
  Read_uint32 le old (at_ pre (PutUint32 le x ++ rest))
  = (at_ (pre ++ PutUint32 le x) rest, (x, None)).
Proof.
  intros H. unfold Read_uint32.
  change 4 with (blen (PutUint32 le x)). rewrite ReadFull_at.
  unfold GetUint32, le. pose proof (Uint32_PutUint32 [] H) as E.
  rewrite app_nil_r in E. unfold le in E. rewrite E. reflexivity.
Qed.

Lemma Read_bytes_at old (pre x rest : bytes) :
  Read_bytes (blen x) old (at_ pre (x ++ rest)) = (at_ (pre ++ x) rest, (x, None)).
Proof. unfold Read_bytes. rewrite ReadFull_at. reflexivity. Qed.

Lemma Seek_current_at (pre x rest : bytes) :
  Seek (blen x) SeekCurrent (at_ pre (x ++ rest)) = (at_ (pre ++ x) rest, None).
Proof.
  unfold Seek. cbn [ri rs at_].
  pose proof (blen_nonneg pre). pose proof (blen_nonneg x).
  assert ((blen pre + blen x <? 0) = false) as -> by (apply Z.ltb_ge; lia).
  rewrite at_app. reflexivity.
Qed.

(** ** Alignment padding (C1) *)

Lemma paddingRule_formula offset count :
  paddingRule offset count = paddingFormula offset count.
Proof.
  unfold paddingRule, paddingFormula. cbv zeta.
  pose proof (Z.mod_pos_bound (offset * 2 + count * 2) 4 ltac:(lia)) as B.
  destruct (Z.eqb_spec ((offset * 2 + count * 2) mod 4) 0) as [E | E].
  - rewrite E. reflexivity.
  - symmetry. apply Z.mod_small. lia.
Qed.

Lemma paddingFormula_bound offset count : 0 <= paddingFormula offset count < 4.
Proof. unfold paddingFormula. apply Z.mod_pos_bound. lia. Qed.

(** What [readConformantVaryingString] seeks over after the elements: the
    wrap-around of the 32-bit products leaves the remainder modulo 4 alone. *)
Lemma paddLen_formula offset count :
  let paddLen := uint32 (4 - uint32 (uint32 (offset * 2) + uint32 (count * 2)) mod 4) in
  (if negb (paddLen =? 4) then paddLen else 0) = paddingFormula offset count.
Proof.
  cbv zeta. unfold uint32, paddingFormula.
  assert (E : ((offset * 2) mod 4294967296 + (count * 2) mod 4294967296) mod 4294967296 mod 4
              = (offset * 2 + count * 2) mod 4).
  { rewrite <- Z.add_mod by lia.
    apply Z.mod_mod_divide. exists 1073741824. reflexivity. }
  rewrite E.
  pose proof (Z.mod_pos_bound (offset * 2 + count * 2) 4 ltac:(lia)) as B.
  rewrite (Z.mod_small (4 - _) 4294967296) by lia.
  destruct (Z.eqb_spec (4 - (offset * 2 + count * 2) mod 4) 4) as [E4 | E4]; cbn [negb].
  - rewrite E4. reflexivity.
  - symmetry. apply Z.mod_small. lia.
Qed.

Lemma units_even (b : bytes) : Z.even (blen b) = true -> snd (units b) = false.
Proof.
  revert b.
  fix IH 1. intros [| b0 [| b1 rest]] H.
  - reflexivity.
  - discriminate H.
  - cbn [units]. specialize (IH rest).
    destruct (units rest) as [u odd]. cbn [snd] in *. apply IH.
    rewrite !blen_cons in H.
    replace (1 + (1 + blen rest)) with (blen rest + 2 * 1) in H by lia.
    rewrite Z.even_add_mul_2 in H. exact H.
Qed.

Lemma FromUnicodeString_even (b : bytes) :
  Z.even (blen b) = true -> snd (FromUnicodeString b) = None.
Proof.
  intros H. unfold FromUnicodeString. pose proof (units_even b H) as E.
  destruct (units b) as [u odd]. cbn [snd] in E. subst odd. reflexivity.
Qed.

Lemma uint32_double_even x : Z.even (uint32 (x * 2)) = true.
Proof.
  unfold uint32. rewrite Zeven_mod. apply Z.eqb_eq.
  rewrite Z.mod_mod_divide by (exists 2147483648; reflexivity).
  apply Z.mod_mul. lia.
Qed.

(** The decoder on a well-formed array: what it returns and where it
    leaves the reader. *)
Lemma readConformantVaryingString_wellformed
  (pre skipped elems rest : bytes) (maxCount offset actualCount : Z) :
  0 < maxCount < 4294967296 ->
  0 <= offset < 4294967296 ->
  0 <= actualCount < 4294967296 ->
  blen skipped = offset * 2 ->
  blen elems = uint32 (actualCount * 2) ->
  exists r',
    readConformantVaryingString
      (at_ pre (PutUint32 le maxCount ++ PutUint32 le offset ++ PutUint32 le actualCount
                  ++ skipped ++ elems ++ rest))
    = (r', (if 0 <? actualCount then fst (FromUnicodeString elems) else [], None))
    /\ ri r' = blen pre + 12 + blen skipped + blen elems + paddingFormula offset actualCount.
Proof.
  intros Hm Ho Ha Hs He. unfold readConformantVaryingString.
  rewrite Read_uint32_at by lia.
  assert ((maxCount =? 0) = false) as -> by (apply Z.eqb_neq; lia).
  rewrite Read_uint32_at by lia.
  rewrite Read_uint32_at by lia.
  set (pre3 := ((pre ++ PutUint32 le maxCount) ++ PutUint32 le offset)
                 ++ PutUint32 le actualCount).
  assert (Hseek : (if 0 <? offset then Seek (offset * 2) SeekCurrent
                                          (at_ pre3 (skipped ++ elems ++ rest))
                   else (at_ pre3 (skipped ++ elems ++ rest), None))
                  = (at_ (pre3 ++ skipped) (elems ++ rest), None)).
  { destruct (Z.ltb_spec 0 offset).
    - rewrite <- Hs. apply Seek_current_at.
    - assert (skipped = []) as -> by (apply blen_zero_nil; lia).
      rewrite app_nil_r. reflexivity. }
  rewrite Hseek.
  set (str := if 0 <? actualCount then fst (FromUnicodeString elems) else []).
  assert (Hread :
            (if 0 <? actualCount
             then let '(r, (unc, err)) :=
                    Read_bytes (uint32 (actualCount * 2)) [] (at_ (pre3 ++ skipped) (elems ++ rest)) in
                  match err with
                  | Some e => (r, ([], Some e))
                  | None => (r, FromUnicodeString unc)
                  end
             else (at_ (pre3 ++ skipped) (elems ++ rest), ([], None)))
            = (at_ ((pre3 ++ skipped) ++ elems) rest, (str, None))).
  { subst str. destruct (Z.ltb_spec 0 actualCount).
    - rewrite <- He, Read_bytes_at.
      pose proof (FromUnicodeString_even elems) as E.
      rewrite He in E. specialize (E (uint32_double_even actualCount)).
      destruct (FromUnicodeString elems) as [str err]. cbn [snd fst] in *.
      subst err. reflexivity.
    - assert (actualCount = 0) as -> by lia.
      change (uint32 (0 * 2)) with 0 in He.
      assert (elems = []) as -> by (apply blen_zero_nil; lia).
      rewrite app_nil_r. reflexivity. }
  rewrite Hread.
  pose proof (paddLen_formula offset actualCount) as P. cbv zeta in P.
  pose proof (paddingFormula_bound offset actualCount) as B.
  set (paddLen := uint32 (4 - uint32 (uint32 (offset * 2) + uint32 (actualCount * 2)) mod 4)) in *.
  assert (Hlen : blen ((pre3 ++ skipped) ++ elems)
                 = blen pre + 12 + blen skipped + blen elems).
  { subst pre3. rewrite !blen_app, !blen_PutUint32. lia. }
  destruct (paddLen =? 4); cbn [negb] in *.
  - eexists. split; [reflexivity |]. cbn [ri at_]. rewrite Hlen, <- P. lia.
  - unfold Seek. cbn [ri rs at_]. rewrite Hlen.
    pose proof (blen_nonneg pre). pose proof (blen_nonneg skipped).
    pose proof (blen_nonneg elems).
    assert ((blen pre + 12 + blen skipped + blen elems + paddLen <? 0) = false) as ->
      by (apply Z.ltb_ge; lia).
    eexists. split; [reflexivity |]. cbn [ri]. rewrite P. reflexivity.
Qed.

Lemma writeConformantVaryingString_eq (w : bytes) (bo : ByteOrder) (us : RRPUnicodeStr) :
  fst (writeConformantVaryingString w bo us)
  = w ++ PutUint32 bo (uint32 (MaxLength us)) ++ PutUint32 bo 0
      ++ PutUint32 bo (wireCount us) ++ wireElems us
      ++ make (paddingRule 0 (wireCount us)).
Proof.
  unfold writeConformantVaryingString, NewUnicodeStr, wireCount, wireElems, elementCount.
  destruct (isEmpty (S us)); cbn [fst].
  - change (make (paddingRule 0 0)) with (@nil byte).
    rewrite !app_nil_r, <- !app_assoc. reflexivity.
  - rewrite <- !app_assoc. reflexivity.
Qed.

(** C1. For every pair (Offset, ActualCount): the encoder writes, after the
    element bytes of a conformant-varying string, [paddingFormula Offset
    ActualCount] zero bytes for the Offset and ActualCount it has put on the
    wire; and the decoder, having read the elements of an array with that
    Offset and ActualCount, moves the reader on by the same number. *)
Theorem padding_invariant :
  (forall (w : bytes) (bo : ByteOrder) (us : RRPUnicodeStr),
      let offset := 0 in
      let count := wireCount us in
      fst (writeConformantVaryingString w bo us)
      = w ++ PutUint32 bo (uint32 (MaxLength us)) ++ PutUint32 bo offset
          ++ PutUint32 bo count ++ wireElems us
          ++ make (paddingFormula offset count))
  /\
  (forall (pre skipped elems rest : bytes) (maxCount offset actualCount : Z),
      0 < maxCount < 4294967296 ->
      0 <= offset < 4294967296 ->
      0 <= actualCount < 4294967296 ->
      blen skipped = offset * 2 ->
      blen elems = uint32 (actualCount * 2) ->
      let r := at_ pre (PutUint32 le maxCount ++ PutUint32 le offset
                          ++ PutUint32 le actualCount ++ skipped ++ elems ++ rest) in
      snd (snd (readConformantVaryingString r)) = None
      /\ ri (fst (readConformantVaryingString r))
         = blen (pre ++ PutUint32 le maxCount ++ PutUint32 le offset
                   ++ PutUint32 le actualCount ++ skipped ++ elems)
           + paddingFormula offset actualCount).
Proof.
  split.
  - intros w bo us offset count. subst offset count.
    rewrite writeConformantVaryingString_eq, paddingRule_formula. reflexivity.
  - intros pre skipped elems rest maxCount offset actualCount Hm Ho Ha Hs He r.
    destruct (readConformantVaryingString_wellformed pre skipped elems rest Hm Ho Ha Hs He)
      as (r' & E & P).
    subst r. rewrite E. cbn [fst snd]. split; [reflexivity |].
    rewrite P, !blen_app, !blen_PutUint32. lia.
Qed.

Lemma padding_invariant_witness :
  snd (snd (readConformantVaryingString
              (at_ [] (PutUint32 le 2 ++ PutUint32 le 1 ++ PutUint32 le 2
                         ++ [7; 7] ++ [97; 0; 0; 0] ++ [0; 0; 9])))) = None
  /\ ri (fst (readConformantVaryingString
                (at_ [] (PutUint32 le 2 ++ PutUint32 le 1 ++ PutUint32 le 2
                           ++ [7; 7] ++ [97; 0; 0; 0] ++ [0; 0; 9]))))
     = blen ([] ++ PutUint32 le 2 ++ PutUint32 le 1 ++ PutUint32 le 2
               ++ [7; 7] ++ [97; 0; 0; 0])
       + paddingFormula 1 2.
Proof.
  refine (proj2 padding_invariant [] [7; 7] [97; 0; 0; 0] [0; 0; 9] 2 1 2 _ _ _ _ _);
    first [lia | reflexivity].
Defined.

(** ** Strings of the Basic Multilingual Plane *)

Lemma isBMP_range r : isBMP r = true -> 0 <= r < 65536 /\ (r < 55296 \/ 57344 <= r).
Proof. unfold isBMP. lia. Qed.

Lemma utf16_EncodeRune_BMP r : isBMP r = true -> utf16_EncodeRune r = [r].
Proof. intros H. unfold utf16_EncodeRune. rewrite H. reflexivity. Qed.

Lemma flat_map_EncodeRune_BMP str :
  isBMPString str = true -> flat_map utf16_EncodeRune str = str.
Proof.
  induction str as [| r rest IH]; cbn [isBMPString forallb flat_map]; [reflexivity |].
  intros H. apply andb_true_iff in H as [Hr Hrest].
  rewrite (utf16_EncodeRune_BMP r Hr), (IH Hrest). reflexivity.
Qed.

Lemma utf16_Decode_BMP str : isBMPString str = true -> utf16_Decode str = str.
Proof.
  induction str as [| r rest IH]; cbn [isBMPString forallb utf16_Decode]; [reflexivity |].
  intros H. apply andb_true_iff in H as [Hr Hrest].
  apply isBMP_range in Hr.
  assert (((r <? 55296) || (57344 <=? r)) = true) as -> by lia.
  rewrite (IH Hrest). reflexivity.
Qed.

Lemma units_PutUint16 (u : list Z) :
  Forall (fun x => 0 <= x < 65536) u -> units (flat_map (PutUint16 le) u) = (u, false).
Proof.
  induction 1 as [| x rest Hx _ IH]; [reflexivity |].
  cbn [flat_map]. unfold PutUint16 at 1, le at 1. cbn [app units]. rewrite IH.
  f_equal. f_equal.
  pose proof (Z.div_mod x 256 ltac:(lia)).
  rewrite (Z.mod_small (x / 256) 256); [lia |].
  split; [apply Z.div_pos; lia | apply Z.div_lt_upper_bound; lia].
Qed.

Lemma isBMPString_units str :
  isBMPString str = true -> Forall (fun x => 0 <= x < 65536) str.
Proof.
  intros H. apply Forall_forall. intros r Hin.
  unfold isBMPString in H. rewrite forallb_forall in H.
  apply isBMP_range. apply H. exact Hin.
Qed.

Lemma FromUnicodeString_ToUnicode str :
  isBMPString str = true -> FromUnicodeString (ToUnicode str) = (str, None).
Proof.
  intros H. unfold FromUnicodeString, ToUnicode.
  rewrite (flat_map_EncodeRune_BMP str H), (units_PutUint16 (isBMPString_units str H)).
  rewrite (utf16_Decode_BMP str H). reflexivity.
Qed.

Lemma blen_flat_map_PutUint16 (u : list Z) :
  blen (flat_map (PutUint16 le) u) = 2 * Z.of_nat (List.length u).
Proof.
  induction u as [| x rest IH]; [reflexivity |].
  cbn [flat_map List.length]. rewrite blen_app, blen_PutUint16, IH. lia.
Qed.

Lemma blen_ToUnicode_BMP str :
  isBMPString str = true -> blen (ToUnicode str) = 2 * Z.of_nat (List.length str).
Proof.
  intros H. unfold ToUnicode. rewrite (flat_map_EncodeRune_BMP str H).
  apply blen_flat_map_PutUint16.
Qed.

Lemma isBMPString_app a b :
  isBMPString (a ++ b) = isBMPString a && isBMPString b.
Proof. apply forallb_app. Qed.

(** ** Termination and length *)

Lemma endsInNull_app_null str : endsInNull (str ++ [0]) = true.
Proof.
  induction str as [| r rest IH]; [reflexivity |].
  cbn [app endsInNull]. destruct (rest ++ [0]) eqn:E; [| exact IH].
  destruct rest; discriminate E.
Qed.

Lemma StripNullByte_app_null str : StripNullByte (str ++ [0]) = str.
Proof. unfold StripNullByte. rewrite endsInNull_app_null. apply removelast_last. Qed.

Lemma endsInNull_nonempty str : endsInNull str = true -> isEmpty str = false.
Proof. destruct str; [discriminate | reflexivity]. Qed.

Lemma NullTerminate_nonempty str : isEmpty (NullTerminate str) = false.
Proof.
  unfold NullTerminate. destruct (endsInNull str) eqn:E.
  - apply endsInNull_nonempty, E.
  - destruct str; reflexivity.
Qed.

Lemma NullTerminate_idempotent str : NullTerminate (NullTerminate str) = NullTerminate str.
Proof.
  unfold NullTerminate. destruct (endsInNull str) eqn:E.
  - rewrite E. reflexivity.
  - rewrite endsInNull_app_null. reflexivity.
Qed.

Lemma utf8_width_pos r : 1 <= utf8_width r <= 4.
Proof. unfold utf8_width. repeat destruct (_ <? _); lia. Qed.

Lemma len_app a b : len (a ++ b) = len a + len b.
Proof. induction a as [| r rest IH]; cbn [app len]; lia. Qed.

Lemma length_le_len str : Z.of_nat (List.length str) <= len str.
Proof.
  induction str as [| r rest IH]; cbn [List.length len]; [lia |].
  pose proof (utf8_width_pos r). lia.
Qed.

Lemma len_ASCII str : forallb isASCII str = true -> len str = Z.of_nat (List.length str).
Proof.
  induction str as [| r rest IH]; cbn [forallb List.length len]; [reflexivity |].
  intros H. apply andb_true_iff in H as [Hr Hrest]. rewrite (IH Hrest).
  unfold isASCII in Hr. unfold utf8_width.
  assert ((r <? 128) = true) as -> by lia. lia.
Qed.

(** ** What the string encoder writes, and what it leaves in the struct *)

Lemma writeConformantVaryingString_stringArray w bo us :
  fst (writeConformantVaryingString w bo us) = w ++ stringArray bo us.
Proof. apply writeConformantVaryingString_eq. Qed.

Lemma isEmpty_terminated us : isEmpty (S (terminated us)) = isEmpty (S us).
Proof.
  unfold terminated. cbn [S]. destruct (isEmpty (S us)) eqn:E; [exact E |].
  apply NullTerminate_nonempty.
Qed.

Lemma writeRRPUnicodeStr_eq w bo us refId optional :
  writeRRPUnicodeStr w bo us refId optional
  = if isEmpty (S us) && optional
    then (w ++ stringLengths bo us ++ PutUint32 bo (uint32 0), terminated us, refId)
    else (w ++ stringLengths bo us
            ++ (if negb (refId =? 0) then PutUint32 bo refId else [])
            ++ stringArray bo (terminated us),
          terminated us, uint32 (refId + 1)).
Proof.
  pose proof (isEmpty_terminated us) as T.
  unfold writeRRPUnicodeStr, stringLengths, writeConformantVaryingStringPtr.
  unfold terminated in *. cbn [S MaxLength] in *.
  destruct (isEmpty (S us)) eqn:E; cbn [S MaxLength].
  - set (us' := if MaxLength us <? uint16 (len (S us)) then _ else us).
    assert (Hus : us' = {| MaxLength := if MaxLength us <? uint16 (len (S us))
                                         then uint16 (len (S us)) else MaxLength us;
                           S := S us |}).
    { subst us'. destruct (MaxLength us <? uint16 (len (S us))); [reflexivity |].
      destruct us; reflexivity. }
    rewrite Hus. cbn [S MaxLength]. rewrite E.
    destruct optional; cbn [andb].
    + rewrite <- !app_assoc. reflexivity.
    + pose proof (writeConformantVaryingString_stringArray) as A.
      destruct (negb (refId =? 0));
        match goal with
        | |- context [writeConformantVaryingString ?w0 ?bo0 ?us0] =>
            specialize (A w0 bo0 us0);
            destruct (writeConformantVaryingString w0 bo0 us0) as [w1 n1]
        end; cbn [fst] in A; subst w1; rewrite <- !app_assoc; reflexivity.
  - set (str := NullTerminate (S us)) in *.
    set (us' := if MaxLength us <? uint16 (len str) then _ else _).
    assert (Hus : us' = {| MaxLength := if MaxLength us <? uint16 (len str)
                                         then uint16 (len str) else MaxLength us;
                           S := str |}).
    { subst us'. destruct (MaxLength us <? uint16 (len str)); reflexivity. }
    rewrite Hus. cbn [S MaxLength]. rewrite T. cbn [andb].
    pose proof (writeConformantVaryingString_stringArray) as A.
    destruct (negb (refId =? 0));
      match goal with
      | |- context [writeConformantVaryingString ?w0 ?bo0 ?us0] =>
          specialize (A w0 bo0 us0);
          destruct (writeConformantVaryingString w0 bo0 us0) as [w1 n1]
      end; cbn [fst] in A; subst w1; rewrite <- !app_assoc; reflexivity.
Qed.

Lemma terminated_nonempty us :
  isEmpty (S us) = false ->
  terminated us
  = {| MaxLength := Z.max (MaxLength us) (uint16 (len (NullTerminate (S us))));
       S := NullTerminate (S us) |}.
Proof.
  intros E. unfold terminated. rewrite E. cbv zeta. f_equal.
  destruct (Z.ltb_spec (MaxLength us) (uint16 (len (NullTerminate (S us))))); lia.
Qed.

Lemma stringArray_nonempty bo us :
  isEmpty (S us) = false ->
  stringArray bo us
  = PutUint32 bo (uint32 (MaxLength us)) ++ PutUint32 bo 0
      ++ PutUint32 bo (elementCount (NullTerminate (S us)))
      ++ ToUnicode (NullTerminate (S us))
      ++ make (paddingRule 0 (elementCount (NullTerminate (S us)))).
Proof. intros E. unfold stringArray, wireCount, wireElems. rewrite E. reflexivity. Qed.

Lemma elementCount_BMP str :
  isBMPString str = true ->
  Z.of_nat (List.length str) < 4294967296 ->
  elementCount str = Z.of_nat (List.length str).
Proof.
  intros H B. unfold elementCount, uint32. rewrite (blen_ToUnicode_BMP str H).
  rewrite Z.mul_comm, Z.div_mul by lia. apply Z.mod_small. lia.
Qed.

(** ** The fields of the conformant-varying array (C3) *)

(** "a" with a MaxLength of 10: the array starts with MaxCount = 10, while
    its element count ("a" and the terminator) is 2. *)
Lemma string_array_maxcount_counterexample :
  isEmpty (S usLargerMax) = false
  /\ elementCount (NullTerminate (S usLargerMax)) = 2
  /\ fst (writeConformantVaryingString [] le usLargerMax)
     = PutUint32 le 10 ++ PutUint32 le 0 ++ PutUint32 le 2 ++ [97; 0; 0; 0]
  /\ fst (writeConformantVaryingString [] le usLargerMax)
     <> claimedStringArray le usLargerMax.
Proof.
  split; [reflexivity |]. split; [reflexivity |]. split; [reflexivity |].
  vm_compute. discriminate.
Qed.

(** C3 (amended). For every non-empty string, the conformant-varying array
    that [writeConformantVaryingString] emits has MaxCount equal to the
    MaxLength field of the string record, Offset equal to 0 and ActualCount
    equal to the element count of the terminated string, followed by the
    UTF-16LE bytes and the alignment padding; [writeRRPUnicodeStr] hands it
    the record with MaxLength raised to the 16-bit length of the terminated
    string where it was smaller, so MaxCount is the larger of the two. *)
Theorem string_array_fields
  (w : bytes) (bo : ByteOrder) (us : RRPUnicodeStr) (refId : Z) (optional : bool) :
  isEmpty (S us) = false ->
  refId <> 0 ->
  let str := NullTerminate (S us) in
  let count := elementCount str in
  let array maxCount :=
    PutUint32 bo (uint32 maxCount) ++ PutUint32 bo 0 ++ PutUint32 bo count
      ++ ToUnicode str ++ make (paddingRule 0 count) in
  fst (writeConformantVaryingString w bo us) = w ++ array (MaxLength us)
  /\ fst (fst (writeRRPUnicodeStr w bo us refId optional))
     = w ++ stringLengths bo us ++ PutUint32 bo refId
         ++ array (Z.max (MaxLength us) (uint16 (len str))).
Proof.
  intros E R str count array. subst array. cbv beta. split.
  - rewrite writeConformantVaryingString_stringArray, (stringArray_nonempty bo us E).
    reflexivity.
  - rewrite writeRRPUnicodeStr_eq, E. cbn [andb fst].
    assert ((refId =? 0) = false) as -> by (apply Z.eqb_neq; exact R). cbn [negb].
    rewrite stringArray_nonempty by (rewrite isEmpty_terminated; exact E).
    rewrite (terminated_nonempty us E). cbn [S MaxLength].
    rewrite NullTerminate_idempotent. reflexivity.
Qed.

Lemma string_array_fields_witness :
  fst (writeConformantVaryingString [] le usLargerMax)
  = [] ++ (PutUint32 le (uint32 (MaxLength usLargerMax)) ++ PutUint32 le 0
             ++ PutUint32 le (elementCount (NullTerminate (S usLargerMax)))
             ++ ToUnicode (NullTerminate (S usLargerMax))
             ++ make (paddingRule 0 (elementCount (NullTerminate (S usLargerMax)))))
  /\ fst (fst (writeRRPUnicodeStr [] le usLargerMax 1 false))
     = [] ++ stringLengths le usLargerMax ++ PutUint32 le 1
         ++ (PutUint32 le (uint32 (Z.max (MaxLength usLargerMax)
                                      (uint16 (len (NullTerminate (S usLargerMax))))))
               ++ PutUint32 le 0
               ++ PutUint32 le (elementCount (NullTerminate (S usLargerMax)))
               ++ ToUnicode (NullTerminate (S usLargerMax))
               ++ make (paddingRule 0 (elementCount (NullTerminate (S usLargerMax))))).
Proof.
  apply (string_array_fields [] le usLargerMax (refId := 1) false); [reflexivity | lia].
Defined.

(** ** Encoding updates the caller's string record (C9) *)

(** A caller that hands in "a\0" with MaxLength 2, as the comment on the
    field asks for ("Must be null terminated"), gets its request back
    unchanged from a successful [MarshalBinary]. *)
Lemma marshal_leaves_terminated_string_counterexample :
  isEmpty (S usTerminated) = false
  /\ snd (fst (writeRRPUnicodeStr [] le usTerminated 1 false)) = usTerminated
  /\ snd (snd (BaseRegOpenKeyReq.MarshalBinary openKeyTerminated)) = None
  /\ fst (BaseRegOpenKeyReq.MarshalBinary openKeyTerminated) = openKeyTerminated.
Proof. split; [| split; [| split]]; reflexivity. Qed.

Lemma NullTerminate_changes str : endsInNull str = false -> NullTerminate str <> str.
Proof.
  intros E H. unfold NullTerminate in H. rewrite E in H.
  apply (f_equal (@List.length rune)) in H. rewrite length_app in H. cbn in H. lia.
Qed.

(** C9 (amended). Encoding a request is not read-only on its input: for
    every non-empty string field, [writeRRPUnicodeStr] assigns to the
    caller's record the terminated string and raises MaxLength to the 16-bit
    [len] of the terminated string (its length in bytes, which for an ASCII
    string is its character count) when it was smaller, and a successful
    [MarshalBinary] hands the request back with the record so updated. The
    string field differs from what the caller supplied when the supplied
    string did not already end in a null. *)
Theorem writeRRPUnicodeStr_updates_record
  (w : bytes) (bo : ByteOrder) (us : RRPUnicodeStr) (refId : Z) (optional : bool) :
  isEmpty (S us) = false ->
  let us' := snd (fst (writeRRPUnicodeStr w bo us refId optional)) in
  S us' = NullTerminate (S us)
  /\ MaxLength us'
     = (if MaxLength us <? uint16 (len (S us')) then uint16 (len (S us')) else MaxLength us)
  /\ (endsInNull (S us) = false -> S us' <> S us)
  /\ (forall (hkey : bytes) (options desiredAccess : Z),
         blen hkey = 20 ->
         let req := {| BaseRegOpenKeyReq.HKey := hkey;
                       BaseRegOpenKeyReq.SubKey := us;
                       BaseRegOpenKeyReq.Options := options;
                       BaseRegOpenKeyReq.DesiredAccess := desiredAccess |} in
         snd (snd (BaseRegOpenKeyReq.MarshalBinary req)) = None
         /\ fst (BaseRegOpenKeyReq.MarshalBinary req)
            = {| BaseRegOpenKeyReq.HKey := hkey;
                 BaseRegOpenKeyReq.SubKey := us';
                 BaseRegOpenKeyReq.Options := options;
                 BaseRegOpenKeyReq.DesiredAccess := desiredAccess |}).
Proof.
  intros E us'.
  assert (Hus : us' = terminated us).
  { subst us'. rewrite writeRRPUnicodeStr_eq, E. reflexivity. }
  rewrite Hus. clear Hus us'. unfold terminated. rewrite E. cbn [S MaxLength].
  split; [reflexivity |]. split; [reflexivity |].
  split; [intros N; apply NullTerminate_changes; exact N |].
  intros hkey options desiredAccess Hk.
  unfold BaseRegOpenKeyReq.MarshalBinary. cbn [BaseRegOpenKeyReq.HKey
    BaseRegOpenKeyReq.SubKey BaseRegOpenKeyReq.Options BaseRegOpenKeyReq.DesiredAccess].
  rewrite Hk. cbn [Z.eqb Pos.eqb negb].
  rewrite writeRRPUnicodeStr_eq, E. cbn [andb fst snd].
  unfold terminated. rewrite E. split; reflexivity.
Qed.

Lemma writeRRPUnicodeStr_updates_record_witness :
  S (snd (fst (writeRRPUnicodeStr [] le usLargerMax 1 false)))
  = NullTerminate (S usLargerMax)
  /\ MaxLength (snd (fst (writeRRPUnicodeStr [] le usLargerMax 1 false)))
     = (if MaxLength usLargerMax
           <? uint16 (len (S (snd (fst (writeRRPUnicodeStr [] le usLargerMax 1 false)))))
        then uint16 (len (S (snd (fst (writeRRPUnicodeStr [] le usLargerMax 1 false)))))
        else MaxLength usLargerMax)
  /\ (endsInNull (S usLargerMax) = false
      -> S (snd (fst (writeRRPUnicodeStr [] le usLargerMax 1 false))) <> S usLargerMax)
  /\ (forall (hkey : bytes) (options desiredAccess : Z),
         blen hkey = 20 ->
         let req := {| BaseRegOpenKeyReq.HKey := hkey;
                       BaseRegOpenKeyReq.SubKey := usLargerMax;
                       BaseRegOpenKeyReq.Options := options;
                       BaseRegOpenKeyReq.DesiredAccess := desiredAccess |} in
         snd (snd (BaseRegOpenKeyReq.MarshalBinary req)) = None
         /\ fst (BaseRegOpenKeyReq.MarshalBinary req)
            = {| BaseRegOpenKeyReq.HKey := hkey;
                 BaseRegOpenKeyReq.SubKey :=
                   snd (fst (writeRRPUnicodeStr [] le usLargerMax 1 false));
                 BaseRegOpenKeyReq.Options := options;
                 BaseRegOpenKeyReq.DesiredAccess := desiredAccess |}).
Proof.
  apply (writeRRPUnicodeStr_updates_record [] le usLargerMax 1 false). reflexivity.
Defined.

(** ** Round trip of the null-terminated string (C2) *)

Lemma uint16_range x : 0 <= uint16 x < 65536.
Proof. unfold uint16. apply Z.mod_pos_bound. lia. Qed.

Lemma uint32_range x : 0 <= uint32 x < 4294967296.
Proof. unfold uint32. apply Z.mod_pos_bound. lia. Qed.

Lemma readRPCUnicodeStr_null (pre rest : bytes) (maxLength : Z) :
  0 <= maxLength < 65536 ->
  exists r',
    readRPCUnicodeStr (at_ pre (PutUint16 le 0 ++ PutUint16 le maxLength ++ rest))
    = (r', ([], maxLength, None)).
Proof.
  intros H. unfold readRPCUnicodeStr.
  rewrite Read_uint16_at by lia. rewrite Read_uint16_at by lia.
  cbn [Z.eqb]. unfold Seek. cbn [ri at_].
  pose proof (blen_nonneg ((pre ++ PutUint16 le 0) ++ PutUint16 le maxLength)).
  assert ((blen ((pre ++ PutUint16 le 0) ++ PutUint16 le maxLength) + 4 <? 0) = false) as ->
    by (apply Z.ltb_ge; lia).
  eexists. reflexivity.
Qed.

Lemma readRPCUnicodeStr_string (pre rest : bytes) (l maxLength refId maxCount count : Z)
  (elems : bytes) :
  0 < l < 65536 ->
  0 <= maxLength < 65536 ->
  0 < maxCount < 4294967296 ->
  0 <= count < 4294967296 ->
  blen elems = uint32 (count * 2) ->
  exists r',
    readRPCUnicodeStr
      (at_ pre (PutUint16 le l ++ PutUint16 le maxLength ++ PutUint32 le refId
                  ++ PutUint32 le maxCount ++ PutUint32 le 0 ++ PutUint32 le count
                  ++ elems ++ rest))
    = (r', (if 0 <? count then fst (FromUnicodeString elems) else [], maxLength, None)).
Proof.
  intros Hl Hm Hc Ha He. unfold readRPCUnicodeStr.
  rewrite Read_uint16_at by lia. rewrite Read_uint16_at by lia.
  assert ((l =? 0) = false) as -> by (apply Z.eqb_neq; lia).
  unfold readConformantVaryingStringPtr.
  change 4 with (blen (PutUint32 le refId)). rewrite Seek_current_at.
  destruct (@readConformantVaryingString_wellformed
              (((pre ++ PutUint16 le l) ++ PutUint16 le maxLength) ++ PutUint32 le refId)
              [] elems rest maxCount 0 count Hc ltac:(lia) Ha eq_refl He) as (r' & E & _).
  cbn [app] in E. rewrite E. eexists. reflexivity.
Qed.

(** The ASCII string of 32767 characters does not come back: the decoder
    takes the zero length for a null pointer and returns the empty string. *)
Lemma rrp_string_roundtrip_counterexample :
  forallb isASCII (S usLong) = true
  /\ len (S usLong) <= MaxLength usLong
  /\ snd (snd (readRRPUnicodeStr
                 (NewReader (fst (fst (writeRRPUnicodeStr [] le usLong 1 false)))))) = None
  /\ fst (fst (snd (readRRPUnicodeStr
                      (NewReader (fst (fst (writeRRPUnicodeStr [] le usLong 1 false)))))))
     = []
  /\ isEmpty (S usLong) = false.
Proof.
  split; [vm_compute; reflexivity |].
  split; [apply Z.leb_le; vm_compute; reflexivity |].
  split; [vm_compute; reflexivity |].
  split; [vm_compute; reflexivity |].
  vm_compute. reflexivity.
Qed.

(** C2 (amended). For every string S of the Basic Multilingual Plane (ASCII
    included) that does not end in a null character, and every MaxLength
    with len(S) <= MaxLength, provided len(S) is neither 32767 nor 65535 (the
    lengths at which the 16-bit byte length of the terminated string wraps to
    zero): [readRRPUnicodeStr] applied to the bytes [writeRRPUnicodeStr]
    produces returns exactly S, the appended terminator stripped, and no
    error. *)
Theorem rrp_string_roundtrip
  (us : RRPUnicodeStr) (refId : Z) (optional : bool) (rest : bytes) :
  isBMPString (S us) = true ->
  endsInNull (S us) = false ->
  len (S us) <= MaxLength us < 65536 ->
  len (S us) <> 32767 ->
  len (S us) <> 65535 ->
  refId <> 0 ->
  let w := fst (fst (writeRRPUnicodeStr [] le us refId optional)) in
  let res := snd (readRRPUnicodeStr (NewReader (w ++ rest))) in
  fst (fst res) = S us /\ snd res = None.
Proof.
  intros Hbmp Hnull Hmax H1 H2 Hr w res. subst res w.
  rewrite writeRRPUnicodeStr_eq, NewReader_at.
  pose proof (length_le_len (S us)) as Hlen.
  destruct (isEmpty (S us)) eqn:E.
  - assert (Hs : S us = []) by (destruct (S us); [reflexivity | discriminate E]).
    assert (Hl : stringLengths le us
                 = PutUint16 le 0 ++ PutUint16 le (uint16 (MaxLength (terminated us) * 2))).
    { unfold stringLengths. rewrite E. reflexivity. }
    unfold readRRPUnicodeStr.
    destruct optional; cbn [andb fst]; rewrite Hl, <- !app_assoc;
      cbn [app];
      match goal with
      | |- context [at_ [] (PutUint16 le 0 ++ PutUint16 le ?m ++ ?tail)] =>
          destruct (readRPCUnicodeStr_null [] tail (uint16_range (MaxLength (terminated us) * 2)))
            as (r' & ->)
      end; cbn [fst snd]; rewrite Hs; split; reflexivity.
  - cbn [andb fst].
    assert ((refId =? 0) = false) as -> by (apply Z.eqb_neq; exact Hr). cbn [negb].
    rewrite stringArray_nonempty by (rewrite isEmpty_terminated; exact E).
    rewrite (terminated_nonempty us E). cbn [S MaxLength].
    rewrite NullTerminate_idempotent.
    unfold stringLengths. rewrite E, (terminated_nonempty us E). cbn [S MaxLength].
    assert (Hstr : NullTerminate (S us) = S us ++ [0])
      by (unfold NullTerminate; rewrite Hnull; reflexivity).
    rewrite Hstr.
    assert (Hbmp' : isBMPString (S us ++ [0]) = true)
      by (rewrite isBMPString_app, Hbmp; reflexivity).
    assert (Hlen' : len (S us ++ [0]) = len (S us) + 1)
      by (rewrite len_app; reflexivity).
    assert (Hn : Z.of_nat (List.length (S us ++ [0])) = Z.of_nat (List.length (S us)) + 1)
      by (rewrite length_app; cbn; lia).
    rewrite (elementCount_BMP _ Hbmp') by lia.
    set (n := Z.of_nat (List.length (S us ++ [0]))) in *.
    set (L := uint16 (uint16 (len (S us ++ [0])) * 2)).
    set (ML := Z.max (MaxLength us) (uint16 (len (S us ++ [0])))).
    assert (Hl16 : 0 < uint16 (len (S us ++ [0]))).
    { pose proof (uint16_range (len (S us ++ [0]))).
      assert (uint16 (len (S us ++ [0])) <> 0); [| lia].
      unfold uint16. rewrite Hlen'. intros Z0.
      apply Z.mod_divide in Z0; [| lia]. destruct Z0 as [k Hk]. lia. }
    assert (HL : 0 < L < 65536).
    { pose proof (uint16_range (uint16 (len (S us ++ [0])) * 2)). fold L in H.
      assert (L <> 0); [| lia].
      subst L. unfold uint16. rewrite Hlen'. intros Z0.
      apply Z.mod_divide in Z0; [| lia]. destruct Z0 as [k Hk].
      pose proof (Z.mod_pos_bound (len (S us) + 1) 65536 ltac:(lia)).
      pose proof (Z.div_mod (len (S us) + 1) 65536 ltac:(lia)).
      assert ((len (S us) + 1) / 65536 = 0 \/ (len (S us) + 1) / 65536 = 1) as [D | D].
      { assert (0 <= (len (S us) + 1) / 65536 < 2); [| lia].
        split; [apply Z.div_pos; lia | apply Z.div_lt_upper_bound; lia]. }
      - lia.
      - lia. }
    assert (HML : 0 < uint32 ML < 4294967296).
    { pose proof (uint16_range (len (S us ++ [0]))).
      unfold uint32. rewrite Z.mod_small; lia. }
    rewrite <- !app_assoc. cbn [app].
    destruct (@readRPCUnicodeStr_string [] (make (paddingRule 0 n) ++ rest)
                L (uint16 (ML * 2)) refId (uint32 ML) n (ToUnicode (S us ++ [0]))
                HL (uint16_range _) HML ltac:(lia))
      as (r' & R).
    { rewrite (blen_ToUnicode_BMP _ Hbmp'). fold n. unfold uint32.
      rewrite Z.mod_small; lia. }
    unfold readRRPUnicodeStr. rewrite R. cbn [fst snd].
    assert ((0 <? n) = true) as -> by lia.
    rewrite (FromUnicodeString_ToUnicode _ Hbmp'). cbn [fst].
    rewrite StripNullByte_app_null. split; reflexivity.
Qed.

Lemma rrp_string_roundtrip_witness :
  fst (fst (snd (readRRPUnicodeStr
                   (NewReader (fst (fst (writeRRPUnicodeStr [] le usLargerMax 1 false))
                                 ++ [1; 2; 3])))))
  = S usLargerMax
  /\ snd (snd (readRRPUnicodeStr
                 (NewReader (fst (fst (writeRRPUnicodeStr [] le usLargerMax 1 false))
                               ++ [1; 2; 3])))) = None.
Proof.
  apply (rrp_string_roundtrip usLargerMax (refId := 1) false [1; 2; 3]);
    first [reflexivity | vm_compute; intuition discriminate | discriminate].
Defined.

(** ** The unimplemented direction (C8) *)

Ltac not_implemented := intros; eexists; split; reflexivity.

(** C8. Every message type that implements one direction only answers the
    other one with a not-implemented error: [UnmarshalBinary] of the
    request-only types and [MarshalBinary] of the response-only types return
    (they are total functions of the model, nothing in them can panic) and
    leave the receiver unchanged. *)
Theorem unimplemented_direction (M : Msdtyp) :
  (unsupportedDecode BaseRegCreateKeyReq.UnmarshalBinary
   /\ unsupportedDecode BaseRegDeleteKeyReq.UnmarshalBinary
   /\ unsupportedDecode BaseRegDeleteValueReq.UnmarshalBinary
   /\ unsupportedDecode BaseRegEnumKeyReq.UnmarshalBinary
   /\ unsupportedDecode BaseRegEnumValueReq.UnmarshalBinary
   /\ unsupportedDecode BaseRegGetKeySecurityReq.UnmarshalBinary
   /\ unsupportedDecode BaseRegOpenKeyReq.UnmarshalBinary
   /\ unsupportedDecode BaseRegQueryInfoKeyReq.UnmarshalBinary
   /\ unsupportedDecode BaseRegQueryValueReq.UnmarshalBinary
   /\ unsupportedDecode BaseRegSaveKeyReq.UnmarshalBinary
   /\ unsupportedDecode BaseRegSetKeySecurityReq.UnmarshalBinary
   /\ unsupportedDecode BaseRegSetValueReq.UnmarshalBinary
   /\ unsupportedDecode RpcSecurityAttributes_UnmarshalBinary)
  /\
  (unsupportedEncode ReturnCode.MarshalBinary
   /\ unsupportedEncode BaseRegCreateKeyRes.MarshalBinary
   /\ unsupportedEncode BaseRegEnumKeyRes.MarshalBinary
   /\ unsupportedEncode BaseRegEnumValueRes.MarshalBinary
   /\ unsupportedEncode BaseRegGetKeySecurityRes.MarshalBinary
   /\ unsupportedEncode BaseRegQueryInfoKeyRes.MarshalBinary
   /\ unsupportedEncode BaseRegQueryValueRes.MarshalBinary).
Proof.
  split.
  - repeat match goal with |- _ /\ _ => split end;
      unfold unsupportedDecode; not_implemented.
  - repeat match goal with |- _ /\ _ => split end;
      unfold unsupportedEncode; not_implemented.
Qed.

(** ** The return code of BaseRegGetKeySecurity (C7) *)

Lemma Uint32_firstn (b : bytes) : Uint32 (firstn 4 b) = Uint32 b.
Proof. destruct b as [| b0 [| b1 [| b2 [| b3 rest]]]]; reflexivity. Qed.

Lemma blen_skipn (n : Z) (b : bytes) :
  0 <= n <= blen b -> blen (skipn (Z.to_nat n) b) = blen b - n.
Proof. intros H. unfold blen in *. rewrite length_skipn. lia. Qed.

(** C7. [BaseRegGetKeySecurityRes.UnmarshalBinary] reads the return code
    from the last four bytes of the buffer before any other field; when it
    is not zero the call returns no error and has assigned the return code
    only: the descriptor fields (SecurityDescriptorOut, whose
    SecurityDescriptor pointer is nil in a fresh receiver) are as they were. *)
Theorem get_key_security_return_code_first
  (M : Msdtyp) (self : BaseRegGetKeySecurityRes.t) (buf : bytes) (rc : Z) :
  16 <= blen buf ->
  Uint32 (lastFour buf) = Some rc ->
  rc <> 0 ->
  BaseRegGetKeySecurityRes.UnmarshalBinary self buf
  = ({| BaseRegGetKeySecurityRes.SecurityDescriptorOut :=
          BaseRegGetKeySecurityRes.SecurityDescriptorOut self;
        BaseRegGetKeySecurityRes.ReturnCode := rc |}, None).
Proof.
  intros Hlen Hrc Hnz. unfold BaseRegGetKeySecurityRes.UnmarshalBinary.
  assert ((blen buf <? 16) = false) as -> by (apply Z.ltb_ge; lia).
  unfold Seek, NewReader. cbn [rs ri].
  assert ((blen buf + -4 <? 0) = false) as -> by (apply Z.ltb_ge; lia).
  unfold readField, Read_uint32, ReadFull. cbn [Z.leb Z.compare].
  unfold unread. cbn [rs ri].
  assert ((blen buf <=? blen buf + -4) = false) as -> by (apply Z.leb_gt; lia).
  replace (blen buf + -4) with (blen buf - 4) by lia. fold (lastFour buf).
  assert (Hl : blen (lastFour buf) = 4).
  { unfold lastFour. rewrite blen_skipn; lia. }
  rewrite Hl. cbn [Z.eqb Z.ltb Z.compare Pos.compare Pos.compare_cont].
  unfold GetUint32, le. change (Z.to_nat 4) with 4%nat.
  rewrite Uint32_firstn, Hrc. cbn [BaseRegGetKeySecurityRes.ReturnCode].
  assert ((rc =? 0) = false) as -> by (apply Z.eqb_neq; exact Hnz).
  reflexivity.
Qed.

Lemma get_key_security_return_code_first_witness :
  BaseRegGetKeySecurityRes.UnmarshalBinary emptySecurityRes failedSecurityCall
  = ({| BaseRegGetKeySecurityRes.SecurityDescriptorOut :=
          BaseRegGetKeySecurityRes.SecurityDescriptorOut emptySecurityRes;
        BaseRegGetKeySecurityRes.ReturnCode := 5 |}, None).
Proof.
  apply (@get_key_security_return_code_first specMsdtyp emptySecurityRes failedSecurityCall 5);
    [vm_compute; discriminate | reflexivity | discriminate].
Defined.

(** ** Referent IDs of the security attributes (C10) *)

Lemma uint32_succ x : uint32 (uint32 x + 1) = uint32 (x + 1).
Proof. unfold uint32. apply Z.add_mod_idemp_l. lia. Qed.

(** C10. [writeRPCSecurityAttributes], entered with the counter at [r] and
    given a descriptor that marshals, writes the referent ID [r], the length,
    the referent ID [r + 2] and the rest, and leaves the counter at [r + 3]
    (all three in 32-bit arithmetic): the counter is incremented twice
    between the two referent IDs, and [r + 1] is never written as one. *)
Theorem security_attributes_referent_ids
  (M : Msdtyp) (w : bytes) (bo : ByteOrder) (sa : RpcSecurityAttributes.t)
  (r : Z) (buf : bytes) :
  msdtyp_SecurityDescriptor_MarshalBinary
    (RpcSecurityDescriptor.SecurityDescriptor (RpcSecurityAttributes.SecurityDescriptor sa))
  = (buf, None) ->
  let buflen := uint32 (blen buf) in
  let length := if RpcSecurityAttributes.Length sa <? buflen then buflen
                else RpcSecurityAttributes.Length sa in
  writeRPCSecurityAttributes w bo sa r
  = (w ++ PutUint32 bo r ++ PutUint32 bo length ++ PutUint32 bo (uint32 (r + 2))
       ++ PutUint32 bo buflen ++ PutUint32 bo buflen
       ++ PutUint32 le (uint32 (RpcSecurityAttributes.InheritHandle sa))
       ++ fst (msdtyp_WriteConformantVaryingArray buf 0),
     uint32 (r + 3),
     snd (msdtyp_WriteConformantVaryingArray buf 0))
  /\ (0 <= r -> r + 3 < 4294967296 -> uint32 (r + 2) = r + 2 /\ uint32 (r + 3) = r + 3).
Proof.
  intros Hm buflen length. split.
  - unfold writeRPCSecurityAttributes. rewrite Hm.
    destruct (msdtyp_WriteConformantVaryingArray buf 0) as [out err]. cbn [fst snd].
    rewrite !uint32_succ.
    replace (r + 1 + 1) with (r + 2) by lia. replace (r + 2 + 1) with (r + 3) by lia.
    subst length buflen. rewrite <- !app_assoc. reflexivity.
  - intros H0 H3. unfold uint32. rewrite !Z.mod_small by lia. split; reflexivity.
Qed.

Lemma security_attributes_referent_ids_witness :
  writeRPCSecurityAttributes [] le someAttributes 2
  = ([] ++ PutUint32 le 2 ++ PutUint32 le 4 ++ PutUint32 le (uint32 (2 + 2))
        ++ PutUint32 le 4 ++ PutUint32 le 4 ++ PutUint32 le (uint32 1)
        ++ fst (specWriteConformantVaryingArray [1; 0; 4; 128] 0),
     uint32 (2 + 3),
     snd (specWriteConformantVaryingArray [1; 0; 4; 128] 0))
  /\ (0 <= 2 -> 2 + 3 < 4294967296 -> uint32 (2 + 2) = 2 + 2 /\ uint32 (2 + 3) = 2 + 3).
Proof.
  apply (@security_attributes_referent_ids specMsdtyp [] le someAttributes 2 [1; 0; 4; 128]).
  reflexivity.
Defined.

(** ** The referent-ID sequence (C6) *)

Lemma firstn_HKey (hkey : bytes) : blen hkey = 20 -> firstn 20 hkey = hkey.
Proof. intros H. apply firstn_all2. unfold blen in H. lia. Qed.

Lemma HKey_check (hkey : bytes) : blen hkey = 20 -> negb (blen hkey =? 20) = false.
Proof. intros ->. reflexivity. Qed.

(** C6. The encoder of a request starts its referent-ID counter at 1 and
    every pointer field takes the next value in order. The four pointer
    slots of [BaseRegEnumKeyReq.MarshalBinary] (the name, the extra pointer,
    the class, the last write time) carry 1, 2, 3 and 4; the first two of
    [BaseRegEnumValueReq.MarshalBinary] (the name, the type) carry 1 and 2,
    and the third, the data pointer that
    [msdtyp.WriteConformantVaryingArrayPtr] writes, is handed the counter
    at 3. *)
Theorem referent_id_sequence (M : Msdtyp) :
  (forall (hkey : bytes) (index : Z) (nameIn classIn : RRPUnicodeStr)
          (lastWriteTime : PFiletime.t),
      blen hkey = 20 ->
      BaseRegEnumKeyReq.MarshalBinary
        {| BaseRegEnumKeyReq.HKey := hkey;
           BaseRegEnumKeyReq.Index := index;
           BaseRegEnumKeyReq.NameIn := nameIn;
           BaseRegEnumKeyReq.ClassIn := classIn;
           BaseRegEnumKeyReq.LastWriteTime := Some lastWriteTime |}
      = Returns
          ({| BaseRegEnumKeyReq.HKey := hkey;
              BaseRegEnumKeyReq.Index := index;
              BaseRegEnumKeyReq.NameIn := terminated nameIn;
              BaseRegEnumKeyReq.ClassIn := terminated classIn;
              BaseRegEnumKeyReq.LastWriteTime := Some lastWriteTime |},
           (hkey ++ PutUint32 le index
              ++ stringLengths le nameIn ++ PutUint32 le 1
              ++ stringArray le (terminated nameIn)
              ++ PutUint32 le 2
              ++ stringLengths le classIn ++ PutUint32 le 3
              ++ stringArray le (terminated classIn)
              ++ PutUint32 le 4
              ++ PutUint32 le (PFiletime.LowDateTime lastWriteTime)
              ++ PutUint32 le (PFiletime.HighDateTime lastWriteTime),
            None)))
  /\
  (forall (hkey : bytes) (index : Z) (nameIn : RRPUnicodeStr) (type : Z) (data : bytes)
          (maxLen dataLen : Z),
      blen hkey = 20 ->
      let dataPtr := msdtyp_WriteConformantVaryingArrayPtr data maxLen 3 in
      snd dataPtr = None ->
      BaseRegEnumValueReq.MarshalBinary
        {| BaseRegEnumValueReq.HKey := hkey;
           BaseRegEnumValueReq.Index := index;
           BaseRegEnumValueReq.NameIn := nameIn;
           BaseRegEnumValueReq.Type_ := type;
           BaseRegEnumValueReq.Data := data;
           BaseRegEnumValueReq.MaxLen := maxLen;
           BaseRegEnumValueReq.DataLen := dataLen |}
      = ({| BaseRegEnumValueReq.HKey := hkey;
            BaseRegEnumValueReq.Index := index;
            BaseRegEnumValueReq.NameIn := terminated nameIn;
            BaseRegEnumValueReq.Type_ := type;
            BaseRegEnumValueReq.Data := data;
            BaseRegEnumValueReq.MaxLen := maxLen;
            BaseRegEnumValueReq.DataLen := dataLen |},
         (hkey ++ PutUint32 le index
            ++ stringLengths le nameIn ++ PutUint32 le 1
            ++ stringArray le (terminated nameIn)
            ++ PutUint32 le 2 ++ PutUint32 le type
            ++ fst (fst dataPtr)
            ++ PutUint32 le (snd (fst dataPtr)) ++ PutUint32 le maxLen
            ++ PutUint32 le (uint32 (snd (fst dataPtr) + 1))
            ++ PutUint32 le (uint32 (blen data)),
          None))).
Proof.
  split.
  - intros hkey index nameIn classIn lastWriteTime Hk.
    unfold BaseRegEnumKeyReq.MarshalBinary.
    cbn [BaseRegEnumKeyReq.HKey BaseRegEnumKeyReq.Index BaseRegEnumKeyReq.NameIn
         BaseRegEnumKeyReq.ClassIn BaseRegEnumKeyReq.LastWriteTime].
    rewrite (HKey_check hkey Hk), (firstn_HKey hkey Hk).
    rewrite writeRRPUnicodeStr_eq, andb_false_r. cbv beta iota zeta.
    change (uint32 1) with 1. change (uint32 (1 + 1)) with 2.
    change (uint32 (2 + 1)) with 3.
    rewrite writeRRPUnicodeStr_eq, andb_false_r. cbv beta iota zeta.
    change (uint32 (3 + 1)) with 4.
    cbn [Z.eqb negb Pos.eqb BaseRegEnumKeyReq.LastWriteTime]. cbn [app].
    rewrite <- !app_assoc. reflexivity.
  - intros hkey index nameIn type data maxLen dataLen Hk dataPtr Herr.
    unfold BaseRegEnumValueReq.MarshalBinary.
    cbn [BaseRegEnumValueReq.HKey BaseRegEnumValueReq.Index BaseRegEnumValueReq.NameIn
         BaseRegEnumValueReq.Type_ BaseRegEnumValueReq.Data BaseRegEnumValueReq.MaxLen
         BaseRegEnumValueReq.DataLen].
    rewrite (HKey_check hkey Hk), (firstn_HKey hkey Hk).
    rewrite writeRRPUnicodeStr_eq, andb_false_r. cbv beta iota zeta.
    change (uint32 1) with 1. change (uint32 (1 + 1)) with 2.
    change (uint32 (2 + 1)) with 3.
    cbn [Z.eqb negb Pos.eqb].
    cbn [BaseRegEnumValueReq.HKey BaseRegEnumValueReq.Index BaseRegEnumValueReq.NameIn
         BaseRegEnumValueReq.Type_ BaseRegEnumValueReq.Data BaseRegEnumValueReq.MaxLen
         BaseRegEnumValueReq.DataLen].
    fold dataPtr. destruct dataPtr as [[out refId] err]. cbn [fst snd] in *. subst err.
    cbn [app]. rewrite <- !app_assoc. reflexivity.
Qed.

Lemma referent_id_sequence_witness :
  BaseRegEnumKeyReq.MarshalBinary
    {| BaseRegEnumKeyReq.HKey := make 20;
       BaseRegEnumKeyReq.Index := 7;
       BaseRegEnumKeyReq.NameIn := usLargerMax;
       BaseRegEnumKeyReq.ClassIn := usEmpty;
       BaseRegEnumKeyReq.LastWriteTime := Some noTime |}
  = Returns
      ({| BaseRegEnumKeyReq.HKey := make 20;
          BaseRegEnumKeyReq.Index := 7;
          BaseRegEnumKeyReq.NameIn := terminated usLargerMax;
          BaseRegEnumKeyReq.ClassIn := terminated usEmpty;
          BaseRegEnumKeyReq.LastWriteTime := Some noTime |},
       (make 20 ++ PutUint32 le 7
          ++ stringLengths le usLargerMax ++ PutUint32 le 1
          ++ stringArray le (terminated usLargerMax)
          ++ PutUint32 le 2
          ++ stringLengths le usEmpty ++ PutUint32 le 3
          ++ stringArray le (terminated usEmpty)
          ++ PutUint32 le 4
          ++ PutUint32 le (PFiletime.LowDateTime noTime)
          ++ PutUint32 le (PFiletime.HighDateTime noTime),
        None))
  /\
  @BaseRegEnumValueReq.MarshalBinary specMsdtyp
    {| BaseRegEnumValueReq.HKey := make 20;
       BaseRegEnumValueReq.Index := 7;
       BaseRegEnumValueReq.NameIn := usLargerMax;
       BaseRegEnumValueReq.Type_ := 0;
       BaseRegEnumValueReq.Data := [];
       BaseRegEnumValueReq.MaxLen := 64;
       BaseRegEnumValueReq.DataLen := 0 |}
  = ({| BaseRegEnumValueReq.HKey := make 20;
        BaseRegEnumValueReq.Index := 7;
        BaseRegEnumValueReq.NameIn := terminated usLargerMax;
        BaseRegEnumValueReq.Type_ := 0;
        BaseRegEnumValueReq.Data := [];
        BaseRegEnumValueReq.MaxLen := 64;
        BaseRegEnumValueReq.DataLen := 0 |},
     (make 20 ++ PutUint32 le 7
        ++ stringLengths le usLargerMax ++ PutUint32 le 1
        ++ stringArray le (terminated usLargerMax)
        ++ PutUint32 le 2 ++ PutUint32 le 0
        ++ fst (fst (@msdtyp_WriteConformantVaryingArrayPtr specMsdtyp [] 64 3))
        ++ PutUint32 le (snd (fst (@msdtyp_WriteConformantVaryingArrayPtr specMsdtyp [] 64 3)))
        ++ PutUint32 le 64
        ++ PutUint32 le
             (uint32 (snd (fst (@msdtyp_WriteConformantVaryingArrayPtr specMsdtyp [] 64 3)) + 1))
        ++ PutUint32 le (uint32 (blen [])),
      None)).
Proof.
  split.
  - exact (proj1 (referent_id_sequence specMsdtyp) (make 20) 7 usLargerMax usEmpty noTime
             eq_refl).
  - exact (proj2 (referent_id_sequence specMsdtyp) (make 20) 7 usLargerMax 0 [] 64 0
             eq_refl eq_refl).
Defined.

(** ** Key handles (C5) *)

Lemma HKey_check_bad (hkey : bytes) : blen hkey <> 20 -> negb (blen hkey =? 20) = true.
Proof. intros H. apply negb_true_iff, Z.eqb_neq, H. Qed.

Lemma firstn_HKey_app (hkey rest : bytes) : blen hkey = 20 -> firstn 20 (hkey ++ rest) = hkey.
Proof.
  intros H. rewrite firstn_app.
  assert (List.length hkey = 20%nat) as -> by (unfold blen in H; lia).
  rewrite Nat.sub_diag, (firstn_HKey hkey H). cbn. apply app_nil_r.
Qed.

Lemma writeRRPUnicodeStr_appends w bo us refId optional :
  exists out, fst (fst (writeRRPUnicodeStr w bo us refId optional)) = w ++ out.
Proof.
  rewrite writeRRPUnicodeStr_eq. destruct (isEmpty (S us) && optional); eexists; reflexivity.
Qed.

Lemma writeRPCSecurityAttributes_appends (M : Msdtyp) w bo sa refId :
  exists out, fst (fst (writeRPCSecurityAttributes w bo sa refId)) = w ++ out.
Proof.
  unfold writeRPCSecurityAttributes.
  destruct (msdtyp_SecurityDescriptor_MarshalBinary _) as [buf [e |]].
  - eexists. reflexivity.
  - destruct (msdtyp_WriteConformantVaryingArray buf 0) as [out err].
    eexists. cbn [fst]. rewrite <- ?app_assoc. reflexivity.
Qed.

Lemma writeRPCSecurityDescriptor_appends (M : Msdtyp) w bo sd refId :
  exists out, fst (fst (writeRPCSecurityDescriptor w bo sd refId)) = w ++ out.
Proof.
  unfold writeRPCSecurityDescriptor.
  destruct (RpcSecurityDescriptor.SecurityDescriptor sd) as [d |].
  - destruct (negb (refId =? 0));
      destruct (msdtyp_SecurityDescriptor_MarshalBinary (Some d)) as [buf [e |]];
      try destruct (msdtyp_WriteConformantVaryingArray buf 0) as [out err];
      cbn [fst]; rewrite <- ?app_assoc;
      first [eexists; reflexivity | exists []; rewrite app_nil_r; reflexivity].
  - eexists. cbn [fst]. rewrite <- ?app_assoc. reflexivity.
Qed.

Ltac bad_handle :=
  let self := fresh "self" in
  let H := fresh "H" in
  intros self H;
  match goal with
  | |- exists e, ?m ?M self = _ /\ _ => unfold m
  | |- exists e, ?m self = _ /\ _ => unfold m
  end;
  rewrite (HKey_check_bad _ H); eexists; split; reflexivity.

(** Splits the result of each writer in a hypothesis into the buffer it was
    given and what it appended. *)
Ltac split_writers H :=
  repeat match type of H with
    | context [writeRRPUnicodeStr ?w ?bo ?us ?r ?o] =>
        let out := fresh "out" in let E := fresh "E" in
        destruct (writeRRPUnicodeStr_appends w bo us r o) as [out E];
        destruct (writeRRPUnicodeStr w bo us r o) as [[? ?] ?];
        cbn [fst] in E; subst
    | context [@writeRPCSecurityAttributes ?M ?w ?bo ?sa ?r] =>
        let out := fresh "out" in let E := fresh "E" in
        destruct (@writeRPCSecurityAttributes_appends M w bo sa r) as [out E];
        destruct (@writeRPCSecurityAttributes M w bo sa r) as [[? ?] ?];
        cbn [fst] in E; subst
    | context [@writeRPCSecurityDescriptor ?M ?w ?bo ?sd ?r] =>
        let out := fresh "out" in let E := fresh "E" in
        destruct (@writeRPCSecurityDescriptor_appends M w bo sd r) as [out E];
        destruct (@writeRPCSecurityDescriptor M w bo sd r) as [[? ?] ?];
        cbn [fst] in E; subst
    | context [match ?x with Some _ => _ | None => _ end] => destruct x
    | context [let '(_, _) := ?x in _] => destruct x
    | context [if ?x then _ else _] => destruct x
    end.

Ltac starts_with_handle :=
  let self := fresh "self" in
  let w := fresh "w" in
  let Hk := fresh "Hk" in
  let Hs := fresh "Hs" in
  intros self w Hk Hs;
  match type of Hs with
  | snd (?m ?M self) = _ => unfold m in Hs
  | snd (?m self) = _ => unfold m in Hs
  end;
  rewrite (HKey_check _ Hk), (firstn_HKey _ Hk) in Hs;
  cbn [app] in Hs;
  split_writers Hs;
  cbn [snd] in Hs;
  first [discriminate Hs
        | injection Hs as <-; rewrite <- ?app_assoc; apply (firstn_HKey_app _ _ Hk) ].

Lemma CloseKeyReq_roundtrip (self self0 : BaseRegCloseKeyReq.t) :
  blen (BaseRegCloseKeyReq.HKey self) = 20 ->
  BaseRegCloseKeyReq.MarshalBinary self = (self, (BaseRegCloseKeyReq.HKey self, None))
  /\ BaseRegCloseKeyReq.UnmarshalBinary self0 (BaseRegCloseKeyReq.HKey self)
     = ({| BaseRegCloseKeyReq.HKey := BaseRegCloseKeyReq.HKey self |}, None).
Proof.
  intros Hk. split.
  - unfold BaseRegCloseKeyReq.MarshalBinary. rewrite (HKey_check _ Hk). reflexivity.
  - unfold BaseRegCloseKeyReq.UnmarshalBinary. rewrite Hk. cbn [Z.ltb Z.compare Pos.compare Pos.compare_cont].
    unfold run, readHKey. rewrite NewReader_at.
    rewrite <- (app_nil_r (BaseRegCloseKeyReq.HKey self)) at 1.
    rewrite <- Hk at 1. rewrite Read_bytes_at. reflexivity.
Qed.

(** [BaseRegOpenKeyReq] encodes a 20-byte handle, but the bytes cannot be
    decoded back: its [UnmarshalBinary] is not implemented. *)
Lemma handle_roundtrip_counterexample :
  blen (BaseRegOpenKeyReq.HKey openKeyRequest) = 20
  /\ snd (snd (BaseRegOpenKeyReq.MarshalBinary openKeyRequest)) = None
  /\ snd (BaseRegOpenKeyReq.UnmarshalBinary
            (fst (BaseRegOpenKeyReq.MarshalBinary openKeyRequest))
            (fst (snd (BaseRegOpenKeyReq.MarshalBinary openKeyRequest))))
     = Some (Errorf "NOT IMPLEMENTED UnmarshalBinary for BaseRegOpenKeyReq")
  /\ isNotImplemented (Errorf "NOT IMPLEMENTED UnmarshalBinary for BaseRegOpenKeyReq") = true.
Proof. split; [| split; [| split]]; reflexivity. Qed.

(** What the writers of the encoders leave to do, field by field: the
    projections of an updated receiver, the results of the calls into
    package msdtyp, and the tests. *)
Ltac is_scrutinee x :=
  lazymatch x with
  | snd _ => fail
  | (match _ with Some _ => _ | None => _ end) => fail
  | (let '(_, _) := _ in _) => fail
  | (if _ then _ else _) => fail
  | _ => idtac
  end.

Ltac encoder_steps :=
  repeat first
    [ progress cbn [fst snd
        BaseRegCreateKeyReq.Options BaseRegCreateKeyReq.DesiredAccess
        BaseRegCreateKeyReq.SecurityAttr BaseRegCreateKeyReq.Disposition
        BaseRegEnumValueReq.Type_ BaseRegEnumValueReq.Data BaseRegEnumValueReq.MaxLen
        BaseRegOpenKeyReq.Options BaseRegOpenKeyReq.DesiredAccess
        BaseRegQueryValueReq.Type_ BaseRegQueryValueReq.Data BaseRegQueryValueReq.MaxLen
        BaseRegSaveKeyReq.SecurityAttributes
        BaseRegSetValueReq.Type_ BaseRegSetValueReq.Data]
    | match goal with
      | |- context [if ?x then _ else _] => is_scrutinee x; destruct x
      | |- context [match ?x with Some _ => _ | None => _ end] => is_scrutinee x; destruct x
      | |- context [let '(_, _) := ?x in _] => is_scrutinee x; destruct x
      end ].

Ltac encodes_handle marshal :=
  let self := fresh "self" in
  let Hk := fresh "Hk" in
  unfold encodesHandle, encodesHandleUnless; intros self Hk;
  unfold marshal;
  rewrite (HKey_check _ Hk), (firstn_HKey _ Hk); cbn [app];
  repeat (rewrite writeRRPUnicodeStr_eq; rewrite ?andb_false_r; cbv beta iota zeta);
  change (uint32 1) with 1; change (uint32 (1 + 1)) with 2; change (uint32 (2 + 1)) with 3;
  unfold attributesError, descriptorError, writeRPCSecurityAttributes,
    writeRPCSecurityDescriptor;
  encoder_steps;
  first [ eexists; reflexivity
        | do 2 eexists; split;
          [reflexivity | rewrite <- ?app_assoc; apply (firstn_HKey_app _ _ Hk)] ].

(** C5 (amended). For every request type that carries a key handle,
    [MarshalBinary] of a handle whose length is not exactly 20 bytes fails
    with an invalid-handle-length error before any bytes are produced. For
    [BaseRegCloseKeyReq], the one request type with a decoder, encoding a
    20-byte handle succeeds and decoding the resulting bytes yields back the
    identical 20 bytes. The other request types have no decoder; whenever
    their encoding of a 20-byte handle succeeds, its first 20 bytes are the
    handle. And it does succeed: always for [BaseRegDeleteKeyReq],
    [BaseRegDeleteValueReq], [BaseRegOpenKeyReq] and
    [BaseRegQueryInfoKeyReq]; for the types that call into package msdtyp
    ([BaseRegCreateKeyReq] with security attributes, [BaseRegEnumValueReq],
    [BaseRegGetKeySecurityReq] and [BaseRegSetKeySecurityReq] with a
    descriptor, [BaseRegQueryValueReq], [BaseRegSaveKeyReq],
    [BaseRegSetValueReq]) unless that call returns an error, which is then
    returned with no bytes; for [BaseRegEnumKeyReq] unless [LastWriteTime] is
    nil, on which it panics. *)
Theorem handle_codec (M : Msdtyp) :
  (rejectsBadHandle BaseRegCloseKeyReq.HKey BaseRegCloseKeyReq.MarshalBinary
   /\ rejectsBadHandle BaseRegCreateKeyReq.HKey BaseRegCreateKeyReq.MarshalBinary
   /\ rejectsBadHandle BaseRegDeleteKeyReq.HKey BaseRegDeleteKeyReq.MarshalBinary
   /\ rejectsBadHandle BaseRegDeleteValueReq.HKey BaseRegDeleteValueReq.MarshalBinary
   /\ rejectsBadHandle BaseRegEnumValueReq.HKey BaseRegEnumValueReq.MarshalBinary
   /\ rejectsBadHandle BaseRegGetKeySecurityReq.HKey BaseRegGetKeySecurityReq.MarshalBinary
   /\ rejectsBadHandle BaseRegOpenKeyReq.HKey BaseRegOpenKeyReq.MarshalBinary
   /\ rejectsBadHandle BaseRegQueryInfoKeyReq.HKey BaseRegQueryInfoKeyReq.MarshalBinary
   /\ rejectsBadHandle BaseRegQueryValueReq.HKey BaseRegQueryValueReq.MarshalBinary
   /\ rejectsBadHandle BaseRegSaveKeyReq.HKey BaseRegSaveKeyReq.MarshalBinary
   /\ rejectsBadHandle BaseRegSetKeySecurityReq.HKey BaseRegSetKeySecurityReq.MarshalBinary
   /\ rejectsBadHandle BaseRegSetValueReq.HKey BaseRegSetValueReq.MarshalBinary
   /\ (forall self : BaseRegEnumKeyReq.t,
          blen (BaseRegEnumKeyReq.HKey self) <> 20 ->
          exists e,
            BaseRegEnumKeyReq.MarshalBinary self = Returns (self, ([], Some e))
            /\ isInvalidHandleLength e = true))
  /\
  (forall self self0 : BaseRegCloseKeyReq.t,
      blen (BaseRegCloseKeyReq.HKey self) = 20 ->
      BaseRegCloseKeyReq.MarshalBinary self = (self, (BaseRegCloseKeyReq.HKey self, None))
      /\ BaseRegCloseKeyReq.UnmarshalBinary self0 (BaseRegCloseKeyReq.HKey self)
         = ({| BaseRegCloseKeyReq.HKey := BaseRegCloseKeyReq.HKey self |}, None))
  /\
  (startsWithHandle BaseRegCreateKeyReq.HKey BaseRegCreateKeyReq.MarshalBinary
   /\ startsWithHandle BaseRegDeleteKeyReq.HKey BaseRegDeleteKeyReq.MarshalBinary
   /\ startsWithHandle BaseRegDeleteValueReq.HKey BaseRegDeleteValueReq.MarshalBinary
   /\ startsWithHandle BaseRegEnumValueReq.HKey BaseRegEnumValueReq.MarshalBinary
   /\ startsWithHandle BaseRegGetKeySecurityReq.HKey BaseRegGetKeySecurityReq.MarshalBinary
   /\ startsWithHandle BaseRegOpenKeyReq.HKey BaseRegOpenKeyReq.MarshalBinary
   /\ startsWithHandle BaseRegQueryInfoKeyReq.HKey BaseRegQueryInfoKeyReq.MarshalBinary
   /\ startsWithHandle BaseRegQueryValueReq.HKey BaseRegQueryValueReq.MarshalBinary
   /\ startsWithHandle BaseRegSaveKeyReq.HKey BaseRegSaveKeyReq.MarshalBinary
   /\ startsWithHandle BaseRegSetKeySecurityReq.HKey BaseRegSetKeySecurityReq.MarshalBinary
   /\ startsWithHandle BaseRegSetValueReq.HKey BaseRegSetValueReq.MarshalBinary
   /\ (forall (self self' : BaseRegEnumKeyReq.t) (w : bytes),
          blen (BaseRegEnumKeyReq.HKey self) = 20 ->
          BaseRegEnumKeyReq.MarshalBinary self = Returns (self', (w, None)) ->
          firstn 20 w = BaseRegEnumKeyReq.HKey self))
  /\
  (encodesHandle BaseRegDeleteKeyReq.HKey BaseRegDeleteKeyReq.MarshalBinary
   /\ encodesHandle BaseRegDeleteValueReq.HKey BaseRegDeleteValueReq.MarshalBinary
   /\ encodesHandle BaseRegOpenKeyReq.HKey BaseRegOpenKeyReq.MarshalBinary
   /\ encodesHandle BaseRegQueryInfoKeyReq.HKey BaseRegQueryInfoKeyReq.MarshalBinary
   /\ encodesHandleUnless
        (fun self => match BaseRegCreateKeyReq.SecurityAttr self with
                     | None => None
                     | Some sa => attributesError sa
                     end)
        BaseRegCreateKeyReq.HKey BaseRegCreateKeyReq.MarshalBinary
   /\ encodesHandleUnless
        (fun self => snd (msdtyp_WriteConformantVaryingArrayPtr
                            (BaseRegEnumValueReq.Data self)
                            (BaseRegEnumValueReq.MaxLen self) 3))
        BaseRegEnumValueReq.HKey BaseRegEnumValueReq.MarshalBinary
   /\ encodesHandleUnless
        (fun self => descriptorError (BaseRegGetKeySecurityReq.SecurityDescriptorIn self))
        BaseRegGetKeySecurityReq.HKey BaseRegGetKeySecurityReq.MarshalBinary
   /\ encodesHandleUnless
        (fun self => snd (msdtyp_WriteConformantVaryingArrayPtr
                            (BaseRegQueryValueReq.Data self)
                            (BaseRegQueryValueReq.MaxLen self) 3))
        BaseRegQueryValueReq.HKey BaseRegQueryValueReq.MarshalBinary
   /\ encodesHandleUnless
        (fun self => attributesError (BaseRegSaveKeyReq.SecurityAttributes self))
        BaseRegSaveKeyReq.HKey BaseRegSaveKeyReq.MarshalBinary
   /\ encodesHandleUnless
        (fun self => descriptorError (BaseRegSetKeySecurityReq.SecurityDescriptorIn self))
        BaseRegSetKeySecurityReq.HKey BaseRegSetKeySecurityReq.MarshalBinary
   /\ encodesHandleUnless
        (fun self => snd (msdtyp_WriteConformantArray (BaseRegSetValueReq.Data self)))
        BaseRegSetValueReq.HKey BaseRegSetValueReq.MarshalBinary
   /\ (forall self : BaseRegEnumKeyReq.t,
          blen (BaseRegEnumKeyReq.HKey self) = 20 ->
          match BaseRegEnumKeyReq.LastWriteTime self with
          | None => BaseRegEnumKeyReq.MarshalBinary self = Panics
          | Some _ =>
              exists self' w,
                BaseRegEnumKeyReq.MarshalBinary self = Returns (self', (w, None))
                /\ firstn 20 w = BaseRegEnumKeyReq.HKey self
          end)).
Proof.
  split; [| split; [| split]].
  - repeat match goal with |- _ /\ _ => split end;
      unfold rejectsBadHandle; bad_handle.
  - intros self self0 Hk. apply CloseKeyReq_roundtrip, Hk.
  - repeat match goal with |- _ /\ _ => split end;
      try (unfold startsWithHandle; starts_with_handle).
    intros self self' w Hk Hs. unfold BaseRegEnumKeyReq.MarshalBinary in Hs.
    rewrite (HKey_check _ Hk), (firstn_HKey _ Hk) in Hs. cbn [app] in Hs.
    split_writers Hs; first [discriminate Hs | injection Hs as _ <-].
    rewrite <- ?app_assoc. apply (firstn_HKey_app _ _ Hk).
  - repeat match goal with |- _ /\ _ => split end.
    + encodes_handle BaseRegDeleteKeyReq.MarshalBinary.
    + encodes_handle BaseRegDeleteValueReq.MarshalBinary.
    + encodes_handle BaseRegOpenKeyReq.MarshalBinary.
    + encodes_handle BaseRegQueryInfoKeyReq.MarshalBinary.
    + encodes_handle (@BaseRegCreateKeyReq.MarshalBinary).
    + encodes_handle (@BaseRegEnumValueReq.MarshalBinary).
    + encodes_handle (@BaseRegGetKeySecurityReq.MarshalBinary).
    + encodes_handle (@BaseRegQueryValueReq.MarshalBinary).
    + encodes_handle (@BaseRegSaveKeyReq.MarshalBinary).
    + encodes_handle (@BaseRegSetKeySecurityReq.MarshalBinary).
    + encodes_handle (@BaseRegSetValueReq.MarshalBinary).
    + intros self Hk. unfold BaseRegEnumKeyReq.MarshalBinary.
      rewrite (HKey_check _ Hk), (firstn_HKey _ Hk). cbn [app].
      repeat (rewrite writeRRPUnicodeStr_eq; rewrite ?andb_false_r; cbv beta iota zeta).
      cbn [BaseRegEnumKeyReq.LastWriteTime].
      destruct (BaseRegEnumKeyReq.LastWriteTime self) as [lastWriteTime |]; [| reflexivity].
      do 2 eexists. split; [reflexivity |].
      rewrite <- ?app_assoc. apply (firstn_HKey_app _ _ Hk).
Qed.

Lemma handle_codec_witness :
  (exists e,
      BaseRegCloseKeyReq.MarshalBinary shortHandle = (shortHandle, ([], Some e))
      /\ isInvalidHandleLength e = true)
  /\ (BaseRegCloseKeyReq.MarshalBinary goodHandle
      = (goodHandle, (BaseRegCloseKeyReq.HKey goodHandle, None))
      /\ BaseRegCloseKeyReq.UnmarshalBinary shortHandle (BaseRegCloseKeyReq.HKey goodHandle)
         = ({| BaseRegCloseKeyReq.HKey := BaseRegCloseKeyReq.HKey goodHandle |}, None))
  /\ (exists self' w,
         BaseRegOpenKeyReq.MarshalBinary openKeyRequest = (self', (w, None))
         /\ firstn 20 w = BaseRegOpenKeyReq.HKey openKeyRequest).
Proof.
  split; [| split].
  - apply (proj1 (proj1 (handle_codec specMsdtyp)) shortHandle). vm_compute. discriminate.
  - apply (proj1 (proj2 (handle_codec specMsdtyp)) goodHandle shortHandle). reflexivity.
  - apply (proj1 (proj2 (proj2 (proj2 (proj2 (proj2 (handle_codec specMsdtyp))))))
             openKeyRequest).
    reflexivity.
Defined.

(** ** Short buffers (C4) *)

Ltac too_short :=
  let self := fresh "self" in
  let buf := fresh "buf" in
  let H := fresh "H" in
  intros self buf H;
  match goal with
  | |- exists e, ?m ?M self buf = _ /\ _ => unfold m
  | |- exists e, ?m self buf = _ /\ _ => unfold m
  end;
  match goal with
  | |- context [blen buf <? ?n] =>
      assert ((blen buf <? n) = true) as -> by (apply Z.ltb_lt; exact H)
  end;
  eexists; split; reflexivity.

(** The decoders that declare a minimum length reject a shorter buffer
    before they read any field. *)
Lemma guarded_decoders (M : Msdtyp) :
  checksLength 20 RRPUnicodeStr_UnmarshalBinary
  /\ checksLength 20 OpenKeyRes.UnmarshalBinary
  /\ checksLength 20 BaseRegCloseKeyReq.UnmarshalBinary
  /\ checksLength 28 BaseRegCreateKeyRes.UnmarshalBinary
  /\ checksLength 36 BaseRegEnumKeyRes.UnmarshalBinary
  /\ checksLength 36 BaseRegEnumValueRes.UnmarshalBinary
  /\ checksLength 16 BaseRegGetKeySecurityRes.UnmarshalBinary.
Proof.
  repeat match goal with |- _ /\ _ => split end; unfold checksLength; too_short.
Qed.

(** C4, at the inputs where the code departs from it.
    [BaseRegQueryInfoKeyRes.UnmarshalBinary] and
    [BaseRegQueryValueRes.UnmarshalBinary] check no length. On the six bytes
    00 00 05 00 00 00 the first reads the two length fields, assigns
    ClassOut (MaxLength 5), seeks past the end of the buffer and then fails
    with [io.EOF]; on the empty buffer both fail with [io.EOF]. The error is
    not the buffer-too-short error, and on the six bytes it comes after a
    field was assigned. [ReturnCode.UnmarshalBinary] indexes the buffer
    unchecked and panics on fewer than four bytes. *)
Theorem unguarded_decoders_short_buffer (M : Msdtyp) :
  BaseRegQueryInfoKeyRes.UnmarshalBinary zeroQueryInfoKeyRes [0; 0; 5; 0; 0; 0]
  = (BaseRegQueryInfoKeyRes.setClassOut zeroQueryInfoKeyRes [] 5, Some EOF)
  /\ BaseRegQueryInfoKeyRes.UnmarshalBinary zeroQueryInfoKeyRes []
     = (zeroQueryInfoKeyRes, Some EOF)
  /\ BaseRegQueryValueRes.UnmarshalBinary zeroQueryValueRes [] = (zeroQueryValueRes, Some EOF)
  /\ isBufferTooShort EOF = false
  /\ ReturnCode.UnmarshalBinary {| ReturnCode.uint32_ := 0 |} [0; 0] = Panics.
Proof. split; [| split; [| split; [| split]]]; reflexivity. Qed.

(** ** The empty string and the layout of BaseRegOpenKeyReq *)

(** The empty string is encoded by its length fields and pointer alone: a
    zero length, the doubled maximum length, and then a null pointer where
    the field is optional, or the referent ID and an array of MaxCount,
    Offset 0 and ActualCount 0 without element bytes where it is not. *)
Lemma empty_string_encoding (w : bytes) (bo : ByteOrder) (maxLength refId : Z) :
  0 <= maxLength ->
  refId <> 0 ->
  let us := {| MaxLength := maxLength; S := [] |} in
  fst (fst (writeRRPUnicodeStr w bo us refId true))
  = w ++ PutUint16 bo 0 ++ PutUint16 bo (uint16 (maxLength * 2)) ++ PutUint32 bo 0
  /\ fst (fst (writeRRPUnicodeStr w bo us refId false))
     = w ++ PutUint16 bo 0 ++ PutUint16 bo (uint16 (maxLength * 2)) ++ PutUint32 bo refId
         ++ PutUint32 bo (uint32 maxLength) ++ PutUint32 bo 0 ++ PutUint32 bo 0.
Proof.
  intros Hm Hr us. subst us. rewrite !writeRRPUnicodeStr_eq. cbn [S isEmpty andb fst].
  assert (T : terminated {| MaxLength := maxLength; S := [] |}
              = {| MaxLength := maxLength; S := [] |}).
  { unfold terminated. cbn [S MaxLength isEmpty len]. change (uint16 0) with 0.
    assert ((maxLength <? 0) = false) as -> by (apply Z.ltb_ge; exact Hm). reflexivity. }
  unfold stringLengths, stringArray, wireCount, wireElems. rewrite T.
  cbn [S MaxLength isEmpty].
  assert ((refId =? 0) = false) as -> by (apply Z.eqb_neq; exact Hr). cbn [negb].
  change (make (paddingRule 0 0)) with (@nil byte). change (uint16 0) with 0.
  change (uint32 0) with 0. rewrite !app_nil_r, <- !app_assoc. split; reflexivity.
Qed.

Lemma empty_string_encoding_witness :
  fst (fst (writeRRPUnicodeStr [] le {| MaxLength := 7; S := [] |} 1 true))
  = [] ++ PutUint16 le 0 ++ PutUint16 le (uint16 (7 * 2)) ++ PutUint32 le 0
  /\ fst (fst (writeRRPUnicodeStr [] le {| MaxLength := 7; S := [] |} 1 false))
     = [] ++ PutUint16 le 0 ++ PutUint16 le (uint16 (7 * 2)) ++ PutUint32 le 1
         ++ PutUint32 le (uint32 7) ++ PutUint32 le 0 ++ PutUint32 le 0.
Proof. apply (@empty_string_encoding [] le 7 1); lia. Defined.

(** [BaseRegOpenKeyReq] with a 20-byte handle encodes to the handle, the
    string (two lengths, the referent ID 1, the conformant-varying array of
    the terminated sub key) and the two 32-bit fields Options and
    DesiredAccess, in little-endian order. *)
Lemma open_key_request_layout (hkey : bytes) (subKey : RRPUnicodeStr)
  (options desiredAccess : Z) :
  blen hkey = 20 ->
  snd (BaseRegOpenKeyReq.MarshalBinary
         {| BaseRegOpenKeyReq.HKey := hkey;
            BaseRegOpenKeyReq.SubKey := subKey;
            BaseRegOpenKeyReq.Options := options;
            BaseRegOpenKeyReq.DesiredAccess := desiredAccess |})
  = (hkey ++ stringLengths le subKey ++ PutUint32 le 1
       ++ stringArray le (terminated subKey)
       ++ PutUint32 le options ++ PutUint32 le desiredAccess, None).
Proof.
  intros Hk. unfold BaseRegOpenKeyReq.MarshalBinary.
  cbn [BaseRegOpenKeyReq.HKey BaseRegOpenKeyReq.SubKey BaseRegOpenKeyReq.Options
       BaseRegOpenKeyReq.DesiredAccess].
  rewrite (HKey_check hkey Hk), (firstn_HKey hkey Hk).
  rewrite writeRRPUnicodeStr_eq, andb_false_r. cbv beta iota zeta.
  change (uint32 1) with 1. cbn [Z.eqb negb snd app BaseRegOpenKeyReq.Options
    BaseRegOpenKeyReq.DesiredAccess].
  rewrite <- !app_assoc. reflexivity.
Qed.

(** The sub key "Software\0" under the handle of twenty zero bytes, with
    Options 0 and DesiredAccess 0x20019. *)
Lemma open_key_request_layout_witness :
  snd (BaseRegOpenKeyReq.MarshalBinary
         {| BaseRegOpenKeyReq.HKey := make 20;
            BaseRegOpenKeyReq.SubKey := {| MaxLength := 9; S := lit "Software" ++ [0] |};
            BaseRegOpenKeyReq.Options := 0;
            BaseRegOpenKeyReq.DesiredAccess := 131097 |})
  = (make 20
       ++ stringLengths le {| MaxLength := 9; S := lit "Software" ++ [0] |}
       ++ PutUint32 le 1
       ++ stringArray le (terminated {| MaxLength := 9; S := lit "Software" ++ [0] |})
       ++ PutUint32 le 0 ++ PutUint32 le 131097, None).
Proof.
  apply (@open_key_request_layout (make 20) {| MaxLength := 9; S := lit "Software" ++ [0] |}
           0 131097).
  reflexivity.
Defined.

(** * Properties of the rest of the code *)

(** ** Lists of strings: [fromUnicodeStrArray] *)

Lemma pair_induction (A : Type) (P : list A -> Prop) :
  P [] -> (forall x, P [x]) -> (forall x y l, P l -> P (x :: y :: l)) ->
  forall l, P l.
Proof.
  intros H0 H1 H2.
  fix IH 1. intros [| x [| y l]]; [exact H0 | apply H1 | apply H2, IH].
Qed.

Lemma land_shifted_byte (b0 b1 : Z) : 0 <= b0 < 256 -> Z.land (b1 * 2 ^ 8) b0 = 0.
Proof.
  intros H. apply Z.bits_inj'. intros n Hn.
  rewrite Z.land_spec, Z.bits_0.
  destruct (Z.ltb_spec n 8).
  - rewrite Z.mul_pow2_bits_low by lia. reflexivity.
  - rewrite <- (Z.mod_small b0 (2 ^ 8)) by (change (2 ^ 8) with 256; lia).
    rewrite Z.mod_pow2_bits_high by lia. apply andb_false_r.
Qed.

(** The character of two bytes, as the loop computes it. *)
Lemma char_of_bytes (b0 b1 : Z) :
  0 <= b0 < 256 -> 0 <= b1 < 256 ->
  Z.lor (uint16 (Z.shiftl b1 8)) b0 = b0 + 256 * b1.
Proof.
  intros H0 H1. rewrite Z.shiftl_mul_pow2 by lia.
  unfold uint16. rewrite Z.mod_small by (change (2 ^ 8) with 256; lia).
  pose proof (Z.add_lor_land (b1 * 2 ^ 8) b0) as A.
  rewrite (land_shifted_byte b1 H0) in A. change (2 ^ 8) with 256 in *. lia.
Qed.

Lemma char_of_unit (x : Z) :
  0 <= x < 65536 ->
  Z.lor (uint16 (Z.shiftl ((x / 256) mod 256) 8)) (x mod 256) = x.
Proof.
  intros H. rewrite char_of_bytes by (apply Z.mod_pos_bound; lia).
  pose proof (Z.div_mod x 256 ltac:(lia)).
  rewrite (Z.mod_small (x / 256) 256); [lia |].
  split; [apply Z.div_pos; lia | apply Z.div_lt_upper_bound; lia].
Qed.

(** Characters that are not null are collected. *)
Lemma loop_units (u : list Z) (rest : bytes) (cs : list Z) (res : list gostring) :
  Forall (fun x => 0 < x < 65536) u ->
  fromUnicodeStrArray_loop (encodeUnits u ++ rest) cs res
  = fromUnicodeStrArray_loop rest (cs ++ u) res.
Proof.
  intros H. revert cs. induction H as [| x u Hx _ IH]; intros cs.
  - cbn. rewrite app_nil_r. reflexivity.
  - unfold encodeUnits. cbn [flat_map]. unfold PutUint16 at 1, le at 1.
    cbn [app fromUnicodeStrArray_loop]. rewrite char_of_unit by lia.
    assert ((x =? 0) = false) as -> by (apply Z.eqb_neq; lia).
    fold (encodeUnits u). rewrite IH, <- app_assoc. reflexivity.
Qed.

(** A null character ends the current string, or the list when the current
    string is empty. *)
Lemma loop_null (rest : bytes) (cs : list Z) (res : list gostring) :
  fromUnicodeStrArray_loop ([0; 0] ++ rest) cs res
  = match cs with
    | [] => res
    | _ :: _ => fromUnicodeStrArray_loop rest [] (res ++ [utf16_Decode cs])
    end.
Proof. destruct cs; reflexivity. Qed.

(** The UTF-16 units of a code point are decoded back to it. *)
Lemma utf16_Decode_EncodeRune (r : rune) (rest : list Z) :
  isScalar r = true ->
  utf16_Decode (utf16_EncodeRune r ++ rest) = r :: utf16_Decode rest.
Proof.
  intros H. unfold isScalar in H. unfold utf16_EncodeRune.
  destruct (isBMP r) eqn:B.
  - apply isBMP_range in B. cbn [app utf16_Decode].
    assert (((r <? 55296) || (57344 <=? r)) = true) as -> by lia. reflexivity.
  - cbn [orb] in H. rewrite H.
    assert (Hr : 65536 <= r <= 1114111) by lia.
    pose proof (Z.div_mod (r - 65536) 1024 ltac:(lia)) as D.
    pose proof (Z.mod_pos_bound (r - 65536) 1024 ltac:(lia)) as Bm.
    assert (Bd : 0 <= (r - 65536) / 1024 < 1024).
    { split; [apply Z.div_pos; lia | apply Z.div_lt_upper_bound; lia]. }
    set (hi := (r - 65536) / 1024) in *. set (lo := (r - 65536) mod 1024) in *.
    cbn [app utf16_Decode].
    assert (((55296 + hi <? 55296) || (57344 <=? 55296 + hi)) = false) as -> by lia.
    assert (((55296 + hi <? 56320) && (56320 <=? 56320 + lo) && (56320 + lo <? 57344)) = true)
      as -> by lia.
    f_equal. lia.
Qed.

Lemma utf16_EncodeRune_units (r : rune) :
  isItemChar r = true ->
  utf16_EncodeRune r <> [] /\ Forall (fun x => 0 < x < 65536) (utf16_EncodeRune r).
Proof.
  unfold isItemChar, isScalar, utf16_EncodeRune. intros H.
  destruct (isBMP r) eqn:B.
  - apply isBMP_range in B. split; [discriminate |]. constructor; [lia | constructor].
  - assert (Hr : 65536 <= r <= 1114111) by lia.
    assert (((65536 <=? r) && (r <=? 1114111)) = true) as -> by lia.
    pose proof (Z.mod_pos_bound (r - 65536) 1024 ltac:(lia)) as Bm.
    assert (Bd : 0 <= (r - 65536) / 1024 < 1024).
    { split; [apply Z.div_pos; lia | apply Z.div_lt_upper_bound; lia]. }
    split; [discriminate |]. repeat constructor; lia.
Qed.

Lemma utf16_string (str : gostring) :
  forallb isItemChar str = true ->
  utf16_Decode (flat_map utf16_EncodeRune str) = str
  /\ Forall (fun x => 0 < x < 65536) (flat_map utf16_EncodeRune str)
  /\ (str <> [] -> flat_map utf16_EncodeRune str <> []).
Proof.
  induction str as [| r rest IH]; cbn [forallb flat_map]; intros H.
  - split; [reflexivity |]. split; [constructor | intros C; contradiction C; reflexivity].
  - apply andb_true_iff in H as [Hr Hrest].
    destruct (IH Hrest) as (Hd & Hu & _).
    destruct (utf16_EncodeRune_units r Hr) as (Hne & Hur).
    assert (Hs : isScalar r = true)
      by (unfold isItemChar in Hr; apply andb_true_iff in Hr; apply Hr).
    split; [rewrite (@utf16_Decode_EncodeRune r _ Hs), Hd; reflexivity |].
    split; [apply Forall_app; split; assumption |].
    intros _ C. apply app_eq_nil in C. destruct C as [C _]. contradiction.
Qed.

Lemma isItem_spec (str : gostring) :
  isItem str = true -> str <> [] /\ forallb isItemChar str = true.
Proof.
  unfold isItem. intros H. apply andb_true_iff in H as [Hne Hall].
  split; [destruct str; [discriminate Hne | discriminate] | exact Hall].
Qed.

Lemma loop_items (strs : list gostring) (rest : bytes) (res : list gostring) :
  forallb isItem strs = true ->
  fromUnicodeStrArray_loop (multiString strs ++ rest) [] res
  = fromUnicodeStrArray_loop rest [] (res ++ strs).
Proof.
  revert res. induction strs as [| str strs IH]; intros res H.
  - cbn. rewrite app_nil_r. reflexivity.
  - cbn [forallb] in H. apply andb_true_iff in H as [Hs Hrest].
    destruct (isItem_spec str Hs) as (Hne & Hall).
    destruct (utf16_string str Hall) as (Hd & Hu & Hn). specialize (Hn Hne).
    unfold multiString. cbn [flat_map]. fold (multiString strs).
    unfold utf16le. rewrite <- !app_assoc.
    rewrite loop_units by exact Hu. cbn [app].
    change (0 :: 0 :: multiString strs ++ rest) with ([0; 0] ++ multiString strs ++ rest).
    rewrite loop_null.
    destruct (flat_map utf16_EncodeRune str) as [| u us] eqn:Eu;
      [contradiction Hn; reflexivity |].
    rewrite Hd, (IH _ Hrest), <- app_assoc. reflexivity.
Qed.

(** A list of strings comes back from its encoding: each string in UTF-16LE
    followed by a null character, and a null character at the end, after
    which nothing is looked at. *)
Theorem fromUnicodeStrArray_roundtrip (strs : list gostring) (ignored : bytes) :
  forallb isItem strs = true ->
  fromUnicodeStrArray (multiString strs ++ [0; 0] ++ ignored) = (strs, None).
Proof.
  intros H. unfold fromUnicodeStrArray.
  assert ((blen (multiString strs ++ [0; 0] ++ ignored) <? 2) = false) as ->.
  { apply Z.ltb_ge. rewrite !blen_app. change (blen [0; 0]) with 2.
    pose proof (blen_nonneg (multiString strs)). pose proof (blen_nonneg ignored). lia. }
  rewrite (loop_items strs _ [] H), loop_null. reflexivity.
Qed.

Lemma fromUnicodeStrArray_roundtrip_witness :
  fromUnicodeStrArray (multiString [lit "ab"; [128512]] ++ [0; 0] ++ [100; 0; 7])
  = ([lit "ab"; [128512]], None).
Proof.
  apply (@fromUnicodeStrArray_roundtrip [lit "ab"; [128512]] [100; 0; 7]). reflexivity.
Defined.

(** A last string that no null character ends is dropped, and so is a last
    odd byte. *)
Theorem fromUnicodeStrArray_drops_unterminated
  (strs : list gostring) (last : gostring) (odd : bytes) :
  forallb isItem strs = true ->
  forallb isItemChar last = true ->
  blen odd < 2 ->
  fromUnicodeStrArray (multiString strs ++ utf16le last ++ odd) = (strs, None).
Proof.
  intros H Hl Ho. unfold fromUnicodeStrArray.
  destruct (blen (multiString strs ++ utf16le last ++ odd) <? 2) eqn:E.
  - destruct strs as [| str strs]; [reflexivity |].
    apply Z.ltb_lt in E. exfalso.
    unfold multiString in E. cbn [flat_map] in E. rewrite !blen_app in E.
    change (blen [0; 0]) with 2 in E.
    pose proof (blen_nonneg (utf16le str)). pose proof (blen_nonneg (utf16le last)).
    pose proof (blen_nonneg odd).
    pose proof (blen_nonneg (flat_map (fun str0 => utf16le str0 ++ [0; 0]) strs)). lia.
  - rewrite (loop_items strs _ [] H). cbn [app].
    destruct (utf16_string last Hl) as (_ & Hu & _).
    unfold utf16le. rewrite loop_units by exact Hu.
    destruct odd as [| x [| y odd']]; [reflexivity | reflexivity |].
    rewrite !blen_cons in Ho. pose proof (blen_nonneg odd'). lia.
Qed.

Lemma fromUnicodeStrArray_drops_unterminated_witness :
  fromUnicodeStrArray (multiString [lit "ab"] ++ utf16le (lit "c") ++ [7]) = ([lit "ab"], None).
Proof.
  apply (@fromUnicodeStrArray_drops_unterminated [lit "ab"] (lit "c") [7]);
    [reflexivity | reflexivity | vm_compute; reflexivity].
Defined.

Lemma utf16_Decode_no_null (u : list Z) :
  Forall (fun x => x <> 0) u -> Forall (fun r => r <> 0) (utf16_Decode u).
Proof.
  remember (List.length u) as n eqn:Hn.
  assert (Hle : (List.length u <= n)%nat) by lia. clear Hn.
  revert u Hle. induction n as [| n IH]; intros [| r rest] Hle H;
    try (constructor; fail); cbn [List.length] in Hle; [lia |].
  inversion H as [| ? ? Hr Hrest]; subst. cbn [utf16_Decode].
  destruct ((r <? 55296) || (57344 <=? r)) eqn:E.
  - constructor; [exact Hr | apply IH; [lia | exact Hrest]].
  - destruct rest as [| r2 rest2]; [constructor; [lia | constructor] |].
    cbn [List.length] in Hle.
    destruct ((r <? 56320) && (56320 <=? r2) && (r2 <? 57344)) eqn:E2.
    + constructor; [lia |]. apply IH; [lia |]. inversion Hrest; assumption.
    + constructor; [lia |]. apply IH; [cbn [List.length]; lia | exact Hrest].
Qed.

Lemma utf16_Decode_nonempty (u : list Z) : u <> [] -> utf16_Decode u <> [].
Proof.
  destruct u as [| r rest]; [contradiction |]. intros _. cbn [utf16_Decode].
  destruct ((r <? 55296) || (57344 <=? r)); [discriminate |].
  destruct rest as [| r2 rest2]; [discriminate |].
  destruct ((r <? 56320) && (56320 <=? r2) && (r2 <? 57344)); discriminate.
Qed.

(** The strings the loop adds to the result are not empty and hold no null
    character. *)
Lemma loop_result_items (buf : bytes) :
  forall (cs : list Z) (res : list gostring),
    Forall (fun x => x <> 0) cs ->
    Forall (fun str => str <> [] /\ Forall (fun r => r <> 0) str) res ->
    Forall (fun str => str <> [] /\ Forall (fun r => r <> 0) str)
           (fromUnicodeStrArray_loop buf cs res).
Proof.
  induction buf as [| x | b0 b1 rest IH] using pair_induction; intros cs res Hcs Hres;
    [exact Hres | exact Hres |].
  cbn [fromUnicodeStrArray_loop].
  destruct (Z.eqb_spec (Z.lor (uint16 (Z.shiftl b1 8)) b0) 0) as [E | E].
  - destruct (Z.ltb_spec 0 (Z.of_nat (List.length cs))); [| exact Hres].
    apply IH; [constructor |]. apply Forall_app. split; [exact Hres |].
    constructor; [| constructor]. split.
    + apply utf16_Decode_nonempty. destruct cs; [cbn in *; lia | discriminate].
    + apply utf16_Decode_no_null, Hcs.
  - apply IH; [| exact Hres]. apply Forall_app. split; [exact Hcs |].
    constructor; [exact E | constructor].
Qed.

(** Whatever the buffer, [fromUnicodeStrArray] returns no error, and no
    string of its result is empty or holds a null character. *)
Theorem fromUnicodeStrArray_result_items (buf : bytes) :
  snd (fromUnicodeStrArray buf) = None
  /\ Forall (fun str => str <> [] /\ Forall (fun r => r <> 0) str)
            (fst (fromUnicodeStrArray buf)).
Proof.
  unfold fromUnicodeStrArray. destruct (blen buf <? 2); cbn [fst snd].
  - split; [reflexivity | constructor].
  - split; [reflexivity |]. apply loop_result_items; constructor.
Qed.

(** ** Decoders of responses *)

(** A 32-bit field that is not there in full: nothing is assigned, and the
    error is [io.EOF] when no byte is left and [io.ErrUnexpectedEOF]
    otherwise. *)
Lemma Read_uint32_short old (pre rest : bytes) :
  blen rest < 4 ->
  snd (Read_uint32 le old (at_ pre rest))
  = (old, Some (if blen rest =? 0 then EOF else ErrUnexpectedEOF)).
Proof.
  intros H. unfold Read_uint32, ReadFull. cbn [Z.leb Z.compare].
  rewrite unread_at. destruct (blen rest =? 0); [reflexivity |].
  assert ((blen rest <? 4) = true) as -> by (apply Z.ltb_lt; exact H). reflexivity.
Qed.

Lemma readField_short {T : Type} (set : T -> Z -> T) (pre rest : bytes) (self : T) :
  blen rest < 4 ->
  exists r',
    readField set (at_ pre rest, self)
    = ((r', self), Some (if blen rest =? 0 then EOF else ErrUnexpectedEOF)).
Proof.
  intros H. unfold readField. pose proof (@Read_uint32_short 0 pre rest H) as E.
  destruct (Read_uint32 le 0 (at_ pre rest)) as [r' [v err]]. cbn [snd] in E.
  injection E as -> ->. eexists. reflexivity.
Qed.

Lemma readField_at {T : Type} (set : T -> Z -> T) (pre rest : bytes) (self : T) (x : Z) :
  0 <= x < 4294967296 ->
  readField set (at_ pre (PutUint32 le x ++ rest), self)
  = ((at_ (pre ++ PutUint32 le x) rest, set self x), None).
Proof. intros H. unfold readField. rewrite Read_uint32_at by exact H. reflexivity. Qed.

Lemma readHKey_at {T : Type} (set : T -> bytes -> T) (pre hkey rest : bytes) (self : T) :
  blen hkey = 20 ->
  readHKey set (at_ pre (hkey ++ rest), self) = ((at_ (pre ++ hkey) rest, set self hkey), None).
Proof. intros H. unfold readHKey. rewrite <- H at 1. rewrite Read_bytes_at. reflexivity. Qed.

Lemma seek_at {T : Type} (pre x rest : bytes) (self : T) :
  seek (blen x) SeekCurrent (at_ pre (x ++ rest), self) = ((at_ (pre ++ x) rest, self), None).
Proof. unfold seek. rewrite Seek_current_at. reflexivity. Qed.

Lemma length_check_passes (buf : bytes) (n : Z) : n <= blen buf -> (blen buf <? n) = false.
Proof. intros H. apply Z.ltb_ge. exact H. Qed.

(** [OpenRootKeyReq]: the two 32-bit fields are written one after the
    other, eight bytes in all, and the decoder reads both back from them,
    whatever follows. *)
Theorem OpenRootKeyReq_roundtrip (self self0 : OpenRootKeyReq.t) (rest : bytes) :
  0 <= OpenRootKeyReq.ServerName self < 4294967296 ->
  0 <= OpenRootKeyReq.DesiredAccess self < 4294967296 ->
  exists w,
    OpenRootKeyReq.MarshalBinary self = (self, (w, None))
    /\ blen w = 8
    /\ OpenRootKeyReq.UnmarshalBinary self0 (w ++ rest) = (self, None).
Proof.
  intros Hs Hd. eexists. split; [reflexivity |]. split; [reflexivity |].
  unfold OpenRootKeyReq.UnmarshalBinary, run, andThen. cbn [app].
  rewrite NewReader_at, <- app_assoc.
  rewrite readField_at by exact Hs. rewrite readField_at by exact Hd.
  destruct self. reflexivity.
Qed.

Lemma OpenRootKeyReq_roundtrip_witness :
  exists w,
    OpenRootKeyReq.MarshalBinary
      {| OpenRootKeyReq.ServerName := 0; OpenRootKeyReq.DesiredAccess := 33554432 |}
    = ({| OpenRootKeyReq.ServerName := 0; OpenRootKeyReq.DesiredAccess := 33554432 |},
       (w, None))
    /\ blen w = 8
    /\ OpenRootKeyReq.UnmarshalBinary
         {| OpenRootKeyReq.ServerName := 7; OpenRootKeyReq.DesiredAccess := 7 |} (w ++ [1; 2])
       = ({| OpenRootKeyReq.ServerName := 0; OpenRootKeyReq.DesiredAccess := 33554432 |}, None).
Proof.
  apply (@OpenRootKeyReq_roundtrip
           {| OpenRootKeyReq.ServerName := 0; OpenRootKeyReq.DesiredAccess := 33554432 |}
           {| OpenRootKeyReq.ServerName := 7; OpenRootKeyReq.DesiredAccess := 7 |} [1; 2]);
    cbn; lia.
Defined.

(** [OpenKeyRes]: a 20-byte handle and a return code are written as 24
    bytes, and the decoder reads both back from them, whatever follows. *)
Theorem OpenKeyRes_roundtrip (self self0 : OpenKeyRes.t) (rest : bytes) :
  blen (OpenKeyRes.HKey self) = 20 ->
  0 <= OpenKeyRes.ReturnCode self < 4294967296 ->
  exists w,
    OpenKeyRes.MarshalBinary self = (self, (w, None))
    /\ blen w = 24
    /\ OpenKeyRes.UnmarshalBinary self0 (w ++ rest) = (self, None).
Proof.
  intros Hk Hr. exists (OpenKeyRes.HKey self ++ PutUint32 le (OpenKeyRes.ReturnCode self)).
  split; [| split].
  - unfold OpenKeyRes.MarshalBinary. rewrite (HKey_check _ Hk). reflexivity.
  - rewrite blen_app, blen_PutUint32, Hk. reflexivity.
  - unfold OpenKeyRes.UnmarshalBinary.
    rewrite length_check_passes
      by (rewrite !blen_app, blen_PutUint32, Hk; pose proof (blen_nonneg rest); lia).
    unfold run, andThen. rewrite NewReader_at, <- app_assoc.
    rewrite readHKey_at by exact Hk. rewrite readField_at by exact Hr.
    destruct self. reflexivity.
Qed.

Lemma OpenKeyRes_roundtrip_witness :
  exists w,
    OpenKeyRes.MarshalBinary {| OpenKeyRes.HKey := make 20; OpenKeyRes.ReturnCode := 5 |}
    = ({| OpenKeyRes.HKey := make 20; OpenKeyRes.ReturnCode := 5 |}, (w, None))
    /\ blen w = 24
    /\ OpenKeyRes.UnmarshalBinary {| OpenKeyRes.HKey := []; OpenKeyRes.ReturnCode := 0 |}
         (w ++ [9])
       = ({| OpenKeyRes.HKey := make 20; OpenKeyRes.ReturnCode := 5 |}, None).
Proof.
  apply (@OpenKeyRes_roundtrip {| OpenKeyRes.HKey := make 20; OpenKeyRes.ReturnCode := 5 |}
           {| OpenKeyRes.HKey := []; OpenKeyRes.ReturnCode := 0 |} [9]);
    [reflexivity | cbn; lia].
Defined.

(** [OpenKeyRes.UnmarshalBinary] asks for 20 bytes and reads 24. A buffer
    of 20 to 23 bytes passes the length check; the handle is assigned from
    its first 20 bytes, the return code keeps its value, and the call fails
    with [io.EOF] (20 bytes) or [io.ErrUnexpectedEOF] (21 to 23), not with
    the buffer-too-short error. *)
Theorem OpenKeyRes_length_check_gap (self : OpenKeyRes.t) (buf : bytes) :
  20 <= blen buf < 24 ->
  OpenKeyRes.UnmarshalBinary self buf
  = ({| OpenKeyRes.HKey := firstn 20 buf; OpenKeyRes.ReturnCode := OpenKeyRes.ReturnCode self |},
     Some (if blen buf =? 20 then EOF else ErrUnexpectedEOF))
  /\ isBufferTooShort (if blen buf =? 20 then EOF else ErrUnexpectedEOF) = false.
Proof.
  intros H. split; [| destruct (blen buf =? 20); reflexivity].
  unfold OpenKeyRes.UnmarshalBinary. rewrite length_check_passes by lia.
  assert (Hk : blen (firstn 20 buf) = 20).
  { unfold blen in *. rewrite length_firstn. lia. }
  assert (Ht : blen (skipn 20 buf) = blen buf - 20).
  { unfold blen in *. rewrite length_skipn. lia. }
  rewrite <- (firstn_skipn 20 buf) at 1.
  unfold run, andThen. rewrite NewReader_at. rewrite readHKey_at by exact Hk.
  destruct (@readField_short OpenKeyRes.t
              (fun self v => {| OpenKeyRes.HKey := OpenKeyRes.HKey self;
                                OpenKeyRes.ReturnCode := v |})
              ([] ++ firstn 20 buf) (skipn 20 buf)
              {| OpenKeyRes.HKey := firstn 20 buf;
                 OpenKeyRes.ReturnCode := OpenKeyRes.ReturnCode self |}
              ltac:(lia)) as [r' E].
  rewrite E, Ht. cbn [OpenKeyRes.HKey OpenKeyRes.ReturnCode].
  replace (blen buf - 20 =? 0) with (blen buf =? 20); [reflexivity |].
  destruct (Z.eqb_spec (blen buf) 20), (Z.eqb_spec (blen buf - 20) 0); (reflexivity || lia).
Qed.

Lemma OpenKeyRes_length_check_gap_witness :
  OpenKeyRes.UnmarshalBinary {| OpenKeyRes.HKey := []; OpenKeyRes.ReturnCode := 7 |}
    (make 20 ++ [1; 2])
  = ({| OpenKeyRes.HKey := firstn 20 (make 20 ++ [1; 2]); OpenKeyRes.ReturnCode := 7 |},
     Some (if blen (make 20 ++ [1; 2]) =? 20 then EOF else ErrUnexpectedEOF))
  /\ isBufferTooShort (if blen (make 20 ++ [1; 2]) =? 20 then EOF else ErrUnexpectedEOF)
     = false.
Proof.
  apply (@OpenKeyRes_length_check_gap {| OpenKeyRes.HKey := []; OpenKeyRes.ReturnCode := 7 |}
           (make 20 ++ [1; 2])).
  vm_compute. split; [discriminate | reflexivity].
Defined.

(** [BaseRegCreateKeyRes.UnmarshalBinary] reads the 20-byte handle, skips
    the four bytes of the disposition pointer, and reads the disposition and
    the return code: 32 bytes in all, in this order, whatever follows. *)
Theorem BaseRegCreateKeyRes_decode
  (self : BaseRegCreateKeyRes.t) (hkey ptr rest : bytes) (disposition returnCode : Z) :
  blen hkey = 20 ->
  blen ptr = 4 ->
  0 <= disposition < 4294967296 ->
  0 <= returnCode < 4294967296 ->
  BaseRegCreateKeyRes.UnmarshalBinary self
    (hkey ++ ptr ++ PutUint32 le disposition ++ PutUint32 le returnCode ++ rest)
  = ({| BaseRegCreateKeyRes.HKey := hkey;
        BaseRegCreateKeyRes.Disposition := disposition;
        BaseRegCreateKeyRes.ReturnCode := returnCode |}, None).
Proof.
  intros Hk Hp Hd Hr. unfold BaseRegCreateKeyRes.UnmarshalBinary.
  rewrite length_check_passes
    by (rewrite !blen_app, !blen_PutUint32, Hk, Hp; pose proof (blen_nonneg rest); lia).
  unfold run, andThen. rewrite NewReader_at. rewrite readHKey_at by exact Hk.
  rewrite <- Hp at 1. rewrite seek_at.
  rewrite readField_at by exact Hd. rewrite readField_at by exact Hr. reflexivity.
Qed.

Lemma BaseRegCreateKeyRes_decode_witness :
  BaseRegCreateKeyRes.UnmarshalBinary
    {| BaseRegCreateKeyRes.HKey := []; BaseRegCreateKeyRes.Disposition := 0;
       BaseRegCreateKeyRes.ReturnCode := 0 |}
    (make 20 ++ [0; 0; 2; 0] ++ PutUint32 le 1 ++ PutUint32 le 5 ++ [])
  = ({| BaseRegCreateKeyRes.HKey := make 20;
        BaseRegCreateKeyRes.Disposition := 1;
        BaseRegCreateKeyRes.ReturnCode := 5 |}, None).
Proof.
  apply (@BaseRegCreateKeyRes_decode
           {| BaseRegCreateKeyRes.HKey := []; BaseRegCreateKeyRes.Disposition := 0;
              BaseRegCreateKeyRes.ReturnCode := 0 |}
           (make 20) [0; 0; 2; 0] [] 1 5); [reflexivity | reflexivity | lia | lia].
Defined.

(** [BaseRegCreateKeyRes.UnmarshalBinary] asks for 28 bytes and reads 32.
    A buffer of 28 to 31 bytes passes the length check; the handle and the
    disposition are assigned, the return code keeps its value, and the call
    fails with [io.EOF] (28 bytes) or [io.ErrUnexpectedEOF] (29 to 31). *)
Theorem BaseRegCreateKeyRes_length_check_gap
  (self : BaseRegCreateKeyRes.t) (hkey ptr tail : bytes) (disposition : Z) :
  blen hkey = 20 ->
  blen ptr = 4 ->
  0 <= disposition < 4294967296 ->
  blen tail < 4 ->
  BaseRegCreateKeyRes.UnmarshalBinary self (hkey ++ ptr ++ PutUint32 le disposition ++ tail)
  = ({| BaseRegCreateKeyRes.HKey := hkey;
        BaseRegCreateKeyRes.Disposition := disposition;
        BaseRegCreateKeyRes.ReturnCode := BaseRegCreateKeyRes.ReturnCode self |},
     Some (if blen tail =? 0 then EOF else ErrUnexpectedEOF)).
Proof.
  intros Hk Hp Hd Ht. unfold BaseRegCreateKeyRes.UnmarshalBinary.
  rewrite length_check_passes
    by (rewrite !blen_app, !blen_PutUint32, Hk, Hp; pose proof (blen_nonneg tail); lia).
  unfold run, andThen. rewrite NewReader_at. rewrite readHKey_at by exact Hk.
  rewrite <- Hp at 1. rewrite seek_at. rewrite readField_at by exact Hd.
  match goal with
  | |- context [readField ?set (at_ ?pre tail, ?s)] =>
      destruct (@readField_short _ set pre tail s Ht) as [r' E]; rewrite E
  end.
  reflexivity.
Qed.

Lemma BaseRegCreateKeyRes_length_check_gap_witness :
  BaseRegCreateKeyRes.UnmarshalBinary
    {| BaseRegCreateKeyRes.HKey := []; BaseRegCreateKeyRes.Disposition := 0;
       BaseRegCreateKeyRes.ReturnCode := 9 |}
    (make 20 ++ [0; 0; 2; 0] ++ PutUint32 le 1 ++ [])
  = ({| BaseRegCreateKeyRes.HKey := make 20;
        BaseRegCreateKeyRes.Disposition := 1;
        BaseRegCreateKeyRes.ReturnCode := 9 |},
     Some (if blen (@nil byte) =? 0 then EOF else ErrUnexpectedEOF)).
Proof.
  apply (@BaseRegCreateKeyRes_length_check_gap
           {| BaseRegCreateKeyRes.HKey := []; BaseRegCreateKeyRes.Disposition := 0;
              BaseRegCreateKeyRes.ReturnCode := 9 |}
           (make 20) [0; 0; 2; 0] [] 1); [reflexivity | reflexivity | lia | reflexivity].
Defined.

(** ** Strings on the wire *)

(** The decoder on a conformant-varying array without offset, followed by
    its padding: it returns the string of the elements and leaves the reader
    after the padding. *)
Lemma readConformantVaryingString_at (pre elems rest : bytes) (maxCount count : Z) :
  0 < maxCount < 4294967296 ->
  0 < count ->
  2 * count < 4294967296 ->
  blen elems = 2 * count ->
  readConformantVaryingString
    (at_ pre (PutUint32 le maxCount ++ PutUint32 le 0 ++ PutUint32 le count
                ++ elems ++ make (paddingFormula 0 count) ++ rest))
  = (at_ (pre ++ PutUint32 le maxCount ++ PutUint32 le 0 ++ PutUint32 le count
              ++ elems ++ make (paddingFormula 0 count)) rest,
     (fst (FromUnicodeString elems), None)).
Proof.
  intros Hm Hc Hc2 He. unfold readConformantVaryingString.
  rewrite Read_uint32_at by lia.
  assert ((maxCount =? 0) = false) as -> by (apply Z.eqb_neq; lia).
  rewrite Read_uint32_at by lia. rewrite Read_uint32_at by lia.
  change (0 <? 0) with false. cbv beta iota.
  assert ((0 <? count) = true) as -> by (apply Z.ltb_lt; exact Hc).
  assert (Hu : uint32 (count * 2) = blen elems).
  { unfold uint32. rewrite Z.mod_small; lia. }
  rewrite Hu, Read_bytes_at.
  pose proof (FromUnicodeString_even elems) as Ev.
  rewrite <- Hu in Ev. specialize (Ev (uint32_double_even count)).
  destruct (FromUnicodeString elems) as [str err]. cbn [snd fst] in *. subst err.
  pose proof (paddLen_formula 0 count) as P. cbv zeta in P.
  rewrite Hu in *.
  pose proof (paddingFormula_bound 0 count) as B.
  set (paddLen := uint32 (4 - uint32 (uint32 (0 * 2) + blen elems) mod 4)) in *.
  set (pf := paddingFormula 0 count) in *.
  destruct (paddLen =? 4); cbn [negb] in *.
  - rewrite <- P. change (make 0) with (@nil byte). cbn [app].
    rewrite !app_nil_r, <- !app_assoc. reflexivity.
  - rewrite P.
    match goal with
    | |- context [Seek pf SeekCurrent (at_ ?p (make pf ++ rest))] =>
        pose proof (Seek_current_at p (make pf) rest) as Sk
    end.
    rewrite blen_make in Sk by lia. rewrite Sk, <- !app_assoc. reflexivity.
Qed.

Lemma blen_utf16le_BMP (str : gostring) :
  isBMPString str = true -> blen (utf16le str) = 2 * Z.of_nat (List.length str).
Proof. apply blen_ToUnicode_BMP. Qed.

Lemma FromUnicodeString_utf16le (str : gostring) :
  isBMPString str = true -> FromUnicodeString (utf16le str) = (str, None).
Proof. apply FromUnicodeString_ToUnicode. Qed.

Lemma readRPCUnicodeStr_wireString
  (pre rest : bytes) (str : gostring) (l maxLength refId maxCount : Z) :
  isBMPString str = true ->
  0 < l < 65536 ->
  0 <= maxLength < 65536 ->
  0 < maxCount < 4294967296 ->
  Z.of_nat (List.length str) + 1 < 2147483648 ->
  readRPCUnicodeStr (at_ pre (wireString str l maxLength refId maxCount ++ rest))
  = (at_ (pre ++ wireString str l maxLength refId maxCount) rest,
     (str ++ [0], maxLength, None)).
Proof.
  intros Hbmp Hl Hm Hc Hn. unfold wireString.
  assert (Hbmp' : isBMPString (str ++ [0]) = true)
    by (rewrite isBMPString_app, Hbmp; reflexivity).
  assert (Hlen : Z.of_nat (List.length (str ++ [0])) = Z.of_nat (List.length str) + 1)
    by (rewrite length_app; cbn [List.length]; lia).
  set (n := Z.of_nat (List.length (str ++ [0]))) in *.
  rewrite <- !app_assoc. unfold readRPCUnicodeStr.
  rewrite Read_uint16_at by lia. rewrite Read_uint16_at by lia.
  assert ((l =? 0) = false) as -> by (apply Z.eqb_neq; lia).
  unfold readConformantVaryingStringPtr.
  change 4 with (blen (PutUint32 le refId)). rewrite Seek_current_at.
  rewrite readConformantVaryingString_at
    by (first [lia | rewrite (blen_utf16le_BMP _ Hbmp'); fold n; lia]).
  rewrite (FromUnicodeString_utf16le _ Hbmp'). cbn [fst].
  rewrite <- !app_assoc. reflexivity.
Qed.

Lemma readRPCUnicodeStr_wireNull (pre rest ptr : bytes) (maxLength : Z) :
  0 <= maxLength < 65536 ->
  blen ptr = 4 ->
  readRPCUnicodeStr (at_ pre (wireNull maxLength ptr ++ rest))
  = (at_ (pre ++ wireNull maxLength ptr) rest, ([], maxLength, None)).
Proof.
  intros Hm Hp. unfold wireNull. rewrite <- !app_assoc. unfold readRPCUnicodeStr.
  rewrite Read_uint16_at by lia. rewrite Read_uint16_at by lia.
  change (0 =? 0) with true. cbv beta iota.
  rewrite <- Hp, Seek_current_at, <- !app_assoc. reflexivity.
Qed.

(** The two string readers on a counted string of the Basic Multilingual
    Plane: each leaves the reader right after the padding of the string, so
    that the field that follows is read from its place; [readRPCUnicodeStr]
    returns the string with its terminator, [readRRPUnicodeStr] without. The
    length field is only compared with zero. *)
Theorem string_readers_on_wire
  (pre rest : bytes) (str : gostring) (l maxLength refId maxCount : Z) :
  isBMPString str = true ->
  0 < l < 65536 ->
  0 <= maxLength < 65536 ->
  0 < maxCount < 4294967296 ->
  Z.of_nat (List.length str) + 1 < 2147483648 ->
  readRPCUnicodeStr (at_ pre (wireString str l maxLength refId maxCount ++ rest))
  = (at_ (pre ++ wireString str l maxLength refId maxCount) rest,
     (str ++ [0], maxLength, None))
  /\ readRRPUnicodeStr (at_ pre (wireString str l maxLength refId maxCount ++ rest))
     = (at_ (pre ++ wireString str l maxLength refId maxCount) rest,
        (str, maxLength, None)).
Proof.
  intros Hbmp Hl Hm Hc Hn. split.
  - apply readRPCUnicodeStr_wireString; assumption.
  - unfold readRRPUnicodeStr. rewrite readRPCUnicodeStr_wireString by assumption.
    rewrite StripNullByte_app_null. reflexivity.
Qed.

Lemma string_readers_on_wire_witness :
  readRPCUnicodeStr (at_ [7] (wireString (lit "ab") 6 8 131072 4 ++ [1; 2; 3]))
  = (at_ ([7] ++ wireString (lit "ab") 6 8 131072 4) [1; 2; 3], (lit "ab" ++ [0], 8, None))
  /\ readRRPUnicodeStr (at_ [7] (wireString (lit "ab") 6 8 131072 4 ++ [1; 2; 3]))
     = (at_ ([7] ++ wireString (lit "ab") 6 8 131072 4) [1; 2; 3], (lit "ab", 8, None)).
Proof.
  apply (@string_readers_on_wire [7] [1; 2; 3] (lit "ab") 6 8 131072 4);
    first [reflexivity | cbn; lia].
Defined.

Lemma blen_wireString (str : gostring) (l maxLength refId maxCount : Z) :
  20 <= blen (wireString str l maxLength refId maxCount).
Proof.
  unfold wireString. rewrite !blen_app, !blen_PutUint16, !blen_PutUint32.
  pose proof (blen_nonneg (utf16le (str ++ [0]))).
  pose proof (blen_nonneg
                (make (paddingFormula 0 (Z.of_nat (List.length (str ++ [0])))))).
  lia.
Qed.

Lemma readStr_wireString {T : Type} (set : T -> gostring -> Z -> T) (self : T)
  (pre rest : bytes) (str : gostring) (l maxLength refId maxCount : Z) :
  isBMPString str = true ->
  0 < l < 65536 ->
  0 <= maxLength < 65536 ->
  0 < maxCount < 4294967296 ->
  Z.of_nat (List.length str) + 1 < 2147483648 ->
  readStr readRRPUnicodeStr set
    (at_ pre (wireString str l maxLength refId maxCount ++ rest), self)
  = ((at_ (pre ++ wireString str l maxLength refId maxCount) rest, set self str maxLength),
     None).
Proof.
  intros Hbmp Hl Hm Hc Hn. unfold readStr, readRRPUnicodeStr.
  rewrite readRPCUnicodeStr_wireString by assumption.
  rewrite StripNullByte_app_null. reflexivity.
Qed.

(** [BaseRegEnumKeyRes.UnmarshalBinary] on a response that carries the name
    and the class as counted strings of the Basic Multilingual Plane: the
    name, four bytes that are skipped, the class, four bytes that are
    skipped, the two halves of the last write time and the return code. Every
    field gets its value, the strings without their terminators. *)
Theorem BaseRegEnumKeyRes_decode
  (self : BaseRegEnumKeyRes.t) (name class : gostring)
  (l1 max1 ref1 count1 l2 max2 ref2 count2 : Z) (ptr1 ptr2 rest : bytes)
  (low high returnCode : Z) :
  isBMPString name = true ->
  isBMPString class = true ->
  0 < l1 < 65536 -> 0 <= max1 < 65536 -> 0 < count1 < 4294967296 ->
  0 < l2 < 65536 -> 0 <= max2 < 65536 -> 0 < count2 < 4294967296 ->
  Z.of_nat (List.length name) + 1 < 2147483648 ->
  Z.of_nat (List.length class) + 1 < 2147483648 ->
  blen ptr1 = 4 ->
  blen ptr2 = 4 ->
  0 <= low < 4294967296 ->
  0 <= high < 4294967296 ->
  0 <= returnCode < 4294967296 ->
  BaseRegEnumKeyRes.UnmarshalBinary self
    (wireString name l1 max1 ref1 count1 ++ ptr1
       ++ wireString class l2 max2 ref2 count2 ++ ptr2
       ++ PutUint32 le low ++ PutUint32 le high ++ PutUint32 le returnCode ++ rest)
  = ({| BaseRegEnumKeyRes.NameOut := {| MaxLength := max1; S := name |};
        BaseRegEnumKeyRes.ClassOut := {| MaxLength := max2; S := class |};
        BaseRegEnumKeyRes.LastWriteTime :=
          {| PFiletime.LowDateTime := low; PFiletime.HighDateTime := high |};
        BaseRegEnumKeyRes.ReturnCode := returnCode |}, None).
Proof.
  intros Hn Hc Hl1 Hm1 Hc1 Hl2 Hm2 Hc2 Hn1 Hn2 Hp1 Hp2 Hlo Hhi Hrc.
  unfold BaseRegEnumKeyRes.UnmarshalBinary.
  rewrite length_check_passes.
  2:{ rewrite !blen_app, !blen_PutUint32, Hp1, Hp2.
      pose proof (blen_wireString name l1 max1 ref1 count1).
      pose proof (blen_wireString class l2 max2 ref2 count2).
      pose proof (blen_nonneg rest). lia. }
  unfold run, andThen. rewrite NewReader_at.
  rewrite readStr_wireString by assumption.
  rewrite <- Hp1 at 1. rewrite seek_at.
  rewrite readStr_wireString by assumption.
  rewrite <- Hp2 at 1. rewrite seek_at.
  rewrite readField_at by exact Hlo. rewrite readField_at by exact Hhi.
  rewrite readField_at by exact Hrc. reflexivity.
Qed.

Lemma BaseRegEnumKeyRes_decode_witness :
  BaseRegEnumKeyRes.UnmarshalBinary
    {| BaseRegEnumKeyRes.NameOut := usEmpty; BaseRegEnumKeyRes.ClassOut := usEmpty;
       BaseRegEnumKeyRes.LastWriteTime := noTime; BaseRegEnumKeyRes.ReturnCode := 0 |}
    (wireString (lit "SAM") 8 512 131072 256 ++ [4; 0; 2; 0]
       ++ wireString (lit "") 2 2 131080 1 ++ [8; 0; 2; 0]
       ++ PutUint32 le 17 ++ PutUint32 le 30000000 ++ PutUint32 le 0 ++ [])
  = ({| BaseRegEnumKeyRes.NameOut := {| MaxLength := 512; S := lit "SAM" |};
        BaseRegEnumKeyRes.ClassOut := {| MaxLength := 2; S := lit "" |};
        BaseRegEnumKeyRes.LastWriteTime :=
          {| PFiletime.LowDateTime := 17; PFiletime.HighDateTime := 30000000 |};
        BaseRegEnumKeyRes.ReturnCode := 0 |}, None).
Proof.
  apply (@BaseRegEnumKeyRes_decode
           {| BaseRegEnumKeyRes.NameOut := usEmpty; BaseRegEnumKeyRes.ClassOut := usEmpty;
              BaseRegEnumKeyRes.LastWriteTime := noTime; BaseRegEnumKeyRes.ReturnCode := 0 |}
           (lit "SAM") (lit "") 8 512 131072 256 2 2 131080 1 [4; 0; 2; 0] [8; 0; 2; 0] []
           17 30000000 0);
    first [reflexivity | cbn; lia].
Defined.

(** [BaseRegQueryInfoKeyRes.UnmarshalBinary] on a response with a null
    class: the two length fields and the pointer of the class, then ten
    32-bit fields in the order SubKeys, MaxSubKeyLen, MaxClassLen, Values,
    MaxValueNameLen, MaxValueLen, SecurityDescriptor, the two halves of
    LastWriteTime, ReturnCode. Every field gets its value, whatever the
    return code is. *)
Theorem BaseRegQueryInfoKeyRes_decode
  (self : BaseRegQueryInfoKeyRes.t) (maxLength : Z) (ptr rest : bytes)
  (subKeys maxSubKeyLen maxClassLen values maxValueNameLen maxValueLen
     securityDescriptor low high returnCode : Z) :
  0 <= maxLength < 65536 ->
  blen ptr = 4 ->
  0 <= subKeys < 4294967296 ->
  0 <= maxSubKeyLen < 4294967296 ->
  0 <= maxClassLen < 4294967296 ->
  0 <= values < 4294967296 ->
  0 <= maxValueNameLen < 4294967296 ->
  0 <= maxValueLen < 4294967296 ->
  0 <= securityDescriptor < 4294967296 ->
  0 <= low < 4294967296 ->
  0 <= high < 4294967296 ->
  0 <= returnCode < 4294967296 ->
  BaseRegQueryInfoKeyRes.UnmarshalBinary self
    (wireNull maxLength ptr
       ++ PutUint32 le subKeys ++ PutUint32 le maxSubKeyLen ++ PutUint32 le maxClassLen
       ++ PutUint32 le values ++ PutUint32 le maxValueNameLen ++ PutUint32 le maxValueLen
       ++ PutUint32 le securityDescriptor ++ PutUint32 le low ++ PutUint32 le high
       ++ PutUint32 le returnCode ++ rest)
  = ({| BaseRegQueryInfoKeyRes.ClassOut := {| RPC_MaxLength := maxLength; RPC_S := [] |};
        BaseRegQueryInfoKeyRes.SubKeys := subKeys;
        BaseRegQueryInfoKeyRes.MaxSubKeyLen := maxSubKeyLen;
        BaseRegQueryInfoKeyRes.MaxClassLen := maxClassLen;
        BaseRegQueryInfoKeyRes.Values := values;
        BaseRegQueryInfoKeyRes.MaxValueNameLen := maxValueNameLen;
        BaseRegQueryInfoKeyRes.MaxValueLen := maxValueLen;
        BaseRegQueryInfoKeyRes.SecurityDescriptor := securityDescriptor;
        BaseRegQueryInfoKeyRes.LastWriteTime :=
          {| Filetime.LowDateTime := low; Filetime.HighDateTime := high |};
        BaseRegQueryInfoKeyRes.ReturnCode := returnCode |}, None).
Proof.
  intros Hm Hp H1 H2 H3 H4 H5 H6 H7 H8 H9 H10.
  unfold BaseRegQueryInfoKeyRes.UnmarshalBinary, run, andThen.
  rewrite NewReader_at. unfold readStr at 1.
  rewrite readRPCUnicodeStr_wireNull by assumption.
  repeat (rewrite readField_at by assumption). reflexivity.
Qed.

Lemma BaseRegQueryInfoKeyRes_decode_witness :
  BaseRegQueryInfoKeyRes.UnmarshalBinary zeroQueryInfoKeyRes
    (wireNull 2 [0; 0; 0; 0]
       ++ PutUint32 le 6 ++ PutUint32 le 22 ++ PutUint32 le 0
       ++ PutUint32 le 1 ++ PutUint32 le 10 ++ PutUint32 le 100
       ++ PutUint32 le 180 ++ PutUint32 le 17 ++ PutUint32 le 30000000
       ++ PutUint32 le 5 ++ [])
  = ({| BaseRegQueryInfoKeyRes.ClassOut := {| RPC_MaxLength := 2; RPC_S := [] |};
        BaseRegQueryInfoKeyRes.SubKeys := 6;
        BaseRegQueryInfoKeyRes.MaxSubKeyLen := 22;
        BaseRegQueryInfoKeyRes.MaxClassLen := 0;
        BaseRegQueryInfoKeyRes.Values := 1;
        BaseRegQueryInfoKeyRes.MaxValueNameLen := 10;
        BaseRegQueryInfoKeyRes.MaxValueLen := 100;
        BaseRegQueryInfoKeyRes.SecurityDescriptor := 180;
        BaseRegQueryInfoKeyRes.LastWriteTime :=
          {| Filetime.LowDateTime := 17; Filetime.HighDateTime := 30000000 |};
        BaseRegQueryInfoKeyRes.ReturnCode := 5 |}, None).
Proof.
  apply (@BaseRegQueryInfoKeyRes_decode zeroQueryInfoKeyRes 2 [0; 0; 0; 0] []
           6 22 0 1 10 100 180 17 30000000 5);
    first [reflexivity | lia].
Defined.

(** ** The string writer against the string readers *)

(** What [writeRRPUnicodeStr] appends for a string of the Basic
    Multilingual Plane that is not empty and not yet terminated is a counted
    string as the readers take it. *)
Lemma writeRRPUnicodeStr_wireString
  (w : bytes) (us : RRPUnicodeStr) (refId : Z) (optional : bool) :
  isEmpty (S us) = false ->
  isBMPString (S us) = true ->
  endsInNull (S us) = false ->
  refId <> 0 ->
  Z.of_nat (List.length (S us)) + 1 < 4294967296 ->
  let l := uint16 (len (S us ++ [0])) in
  let maxLength := Z.max (MaxLength us) l in
  writeRRPUnicodeStr w le us refId optional
  = (w ++ wireString (S us) (uint16 (l * 2)) (uint16 (maxLength * 2)) refId (uint32 maxLength),
     {| MaxLength := maxLength; S := S us ++ [0] |}, uint32 (refId + 1)).
Proof.
  intros E Hbmp Hnull Hr Hn l maxLength. subst l maxLength.
  rewrite writeRRPUnicodeStr_eq, E. cbn [andb].
  assert ((refId =? 0) = false) as -> by (apply Z.eqb_neq; exact Hr). cbn [negb].
  rewrite stringArray_nonempty by (rewrite isEmpty_terminated; exact E).
  unfold stringLengths. rewrite E, (terminated_nonempty us E). cbn [S MaxLength].
  rewrite NullTerminate_idempotent.
  assert (Hstr : NullTerminate (S us) = S us ++ [0])
    by (unfold NullTerminate; rewrite Hnull; reflexivity).
  rewrite Hstr.
  assert (Hbmp' : isBMPString (S us ++ [0]) = true)
    by (rewrite isBMPString_app, Hbmp; reflexivity).
  rewrite (elementCount_BMP _ Hbmp') by (rewrite length_app; cbn [List.length]; lia).
  rewrite paddingRule_formula. unfold wireString.
  rewrite <- !app_assoc. reflexivity.
Qed.

Lemma doubled_length_positive (n : Z) :
  0 <= n < 65535 -> n <> 32767 ->
  0 < uint16 (n + 1) /\ 0 < uint16 (uint16 (n + 1) * 2) < 65536.
Proof.
  intros H H1. unfold uint16. rewrite (Z.mod_small (n + 1)) by lia.
  split; [lia |].
  pose proof (Z.mod_pos_bound ((n + 1) * 2) 65536 ltac:(lia)).
  assert (((n + 1) * 2) mod 65536 <> 0); [| lia].
  intros Z0. apply Z.mod_divide in Z0; [| lia]. destruct Z0 as [k Hk]. lia.
Qed.

(** [RRPUnicodeStr.MarshalBinary] followed by [UnmarshalBinary], for a
    string of the Basic Multilingual Plane that is not empty and not yet
    terminated: the string comes back as it was before the encoder
    terminated it, and the maximum length comes back doubled (modulo
    2^16), because the decoder stores the length field of the wire, which
    counts bytes, where the encoder took a count of characters. The encoder
    leaves the terminated string and the raised maximum in its receiver. *)
Theorem RRPUnicodeStr_roundtrip (us self0 : RRPUnicodeStr) :
  isEmpty (S us) = false ->
  isBMPString (S us) = true ->
  endsInNull (S us) = false ->
  len (S us) < 65535 ->
  len (S us) <> 32767 ->
  0 <= MaxLength us < 65536 ->
  let maxLength := Z.max (MaxLength us) (len (S us) + 1) in
  exists w,
    RRPUnicodeStr_MarshalBinary us
    = ({| MaxLength := maxLength; S := S us ++ [0] |}, (w, None))
    /\ RRPUnicodeStr_UnmarshalBinary self0 w
       = ({| MaxLength := uint16 (maxLength * 2); S := S us |}, None).
Proof.
  intros E Hbmp Hnull Hlen H1 Hmax maxLength. subst maxLength.
  pose proof (length_le_len (S us)) as Hle.
  assert (H0 : 0 <= len (S us)) by lia.
  destruct (@doubled_length_positive (len (S us)) ltac:(lia) H1) as [Hl HL].
  assert (Hl' : uint16 (len (S us ++ [0])) = len (S us) + 1).
  { rewrite len_app. cbn [len utf8_width Z.ltb Z.compare].
    unfold uint16. apply Z.mod_small. lia. }
  unfold RRPUnicodeStr_MarshalBinary. change (uint32 1) with 1.
  rewrite (@writeRRPUnicodeStr_wireString [] us 1 false E Hbmp Hnull) by lia.
  cbv zeta. rewrite Hl'. cbn [app]. eexists. split; [reflexivity |].
  unfold RRPUnicodeStr_UnmarshalBinary.
  rewrite length_check_passes by apply blen_wireString.
  rewrite NewReader_at. unfold readRRPUnicodeStr.
  rewrite <- (app_nil_r (wireString _ _ _ _ _)).
  rewrite readRPCUnicodeStr_wireString.
  - rewrite StripNullByte_app_null. reflexivity.
  - exact Hbmp.
  - replace (len (S us) + 1) with (uint16 (len (S us) + 1))
      by (unfold uint16; apply Z.mod_small; lia).
    exact HL.
  - apply uint16_range.
  - unfold uint32. rewrite Z.mod_small; lia.
  - lia.
Qed.

Lemma RRPUnicodeStr_roundtrip_witness :
  exists w,
    RRPUnicodeStr_MarshalBinary usLargerMax
    = ({| MaxLength := Z.max (MaxLength usLargerMax) (len (S usLargerMax) + 1);
          S := S usLargerMax ++ [0] |}, (w, None))
    /\ RRPUnicodeStr_UnmarshalBinary usEmpty w
       = ({| MaxLength := uint16 (Z.max (MaxLength usLargerMax) (len (S usLargerMax) + 1) * 2);
             S := S usLargerMax |}, None).
Proof.
  apply (@RRPUnicodeStr_roundtrip usLargerMax usEmpty);
    first [reflexivity | discriminate | cbn; lia].
Defined.

(** The empty string that is not optional: [writeRRPUnicodeStr] writes the
    two length fields, the referent ID and an array of twelve bytes, and
    [readRRPUnicodeStr], which takes a zero length for a null pointer, stops
    after the referent ID. The twelve bytes of the array are left in the
    reader for whatever is read next. *)
Theorem empty_string_left_unread (pre rest : bytes) (maxLength refId : Z) :
  0 <= maxLength ->
  refId <> 0 ->
  let us := {| MaxLength := maxLength; S := [] |} in
  let head := wireNull (uint16 (maxLength * 2)) (PutUint32 le refId) in
  let array := PutUint32 le (uint32 maxLength) ++ PutUint32 le 0 ++ PutUint32 le 0 in
  fst (fst (writeRRPUnicodeStr [] le us refId false)) = head ++ array
  /\ readRRPUnicodeStr (at_ pre ((head ++ array) ++ rest))
     = (at_ (pre ++ head) (array ++ rest), ([], uint16 (maxLength * 2), None)).
Proof.
  intros Hm Hr us head array. subst us head array. split.
  - rewrite writeRRPUnicodeStr_eq. cbn [S isEmpty andb fst].
    assert (T : terminated {| MaxLength := maxLength; S := [] |}
                = {| MaxLength := maxLength; S := [] |}).
    { unfold terminated. cbn [S MaxLength isEmpty len]. change (uint16 0) with 0.
      assert ((maxLength <? 0) = false) as -> by (apply Z.ltb_ge; exact Hm). reflexivity. }
    unfold stringLengths, stringArray, wireCount, wireElems, wireNull. rewrite T.
    cbn [S MaxLength isEmpty].
    assert ((refId =? 0) = false) as -> by (apply Z.eqb_neq; exact Hr). cbn [negb].
    change (make (paddingRule 0 0)) with (@nil byte). change (uint16 0) with 0.
    rewrite !app_nil_r, <- !app_assoc. reflexivity.
  - rewrite <- app_assoc. unfold readRRPUnicodeStr.
    rewrite readRPCUnicodeStr_wireNull by (first [apply uint16_range | reflexivity]).
    reflexivity.
Qed.

Lemma empty_string_left_unread_witness :
  fst (fst (writeRRPUnicodeStr [] le {| MaxLength := 7; S := [] |} 1 false))
  = wireNull (uint16 (7 * 2)) (PutUint32 le 1)
      ++ PutUint32 le (uint32 7) ++ PutUint32 le 0 ++ PutUint32 le 0
  /\ readRRPUnicodeStr
       (at_ [9] ((wireNull (uint16 (7 * 2)) (PutUint32 le 1)
                    ++ PutUint32 le (uint32 7) ++ PutUint32 le 0 ++ PutUint32 le 0)
                   ++ [5; 0; 0; 0]))
     = (at_ ([9] ++ wireNull (uint16 (7 * 2)) (PutUint32 le 1))
            ((PutUint32 le (uint32 7) ++ PutUint32 le 0 ++ PutUint32 le 0) ++ [5; 0; 0; 0]),
        ([], uint16 (7 * 2), None)).
Proof.
  apply (@empty_string_left_unread [9] [5; 0; 0; 0] 7 1); [lia | discriminate].
Defined.

(** ** Security descriptors and the requests that carry pointers *)

(** [writeRPCSecurityDescriptor]. Without a descriptor it writes a null
    pointer and the two size fields as they are, and leaves the counter
    alone. With a descriptor that marshals to [buf], and a counter that is
    not zero, it writes the referent ID, the larger of the announced size
    and the length of [buf], the length of [buf] in the place of the second
    size field (whose value is not written), and the array; the counter
    moves on by one. *)
Theorem writeRPCSecurityDescriptor_layout
  (M : Msdtyp) (w : bytes) (bo : ByteOrder) (d : msdtyp_SecurityDescriptor)
  (inSize outSize refId : Z) (buf : bytes) :
  msdtyp_SecurityDescriptor_MarshalBinary (Some d) = (buf, None) ->
  refId <> 0 ->
  writeRPCSecurityDescriptor w bo
    {| RpcSecurityDescriptor.SecurityDescriptor := None;
       RpcSecurityDescriptor.InSecurityDescriptor := inSize;
       RpcSecurityDescriptor.OutSecurityDescriptor := outSize |} refId
  = (w ++ PutUint32 bo 0 ++ PutUint32 bo inSize ++ PutUint32 bo outSize, refId, None)
  /\ writeRPCSecurityDescriptor w bo
       {| RpcSecurityDescriptor.SecurityDescriptor := Some d;
          RpcSecurityDescriptor.InSecurityDescriptor := inSize;
          RpcSecurityDescriptor.OutSecurityDescriptor := outSize |} refId
     = (w ++ PutUint32 bo refId ++ PutUint32 bo (Z.max inSize (uint32 (blen buf)))
          ++ PutUint32 bo (uint32 (blen buf))
          ++ fst (msdtyp_WriteConformantVaryingArray buf 0),
        uint32 (refId + 1),
        snd (msdtyp_WriteConformantVaryingArray buf 0)).
Proof.
  intros Hm Hr. split.
  - unfold writeRPCSecurityDescriptor. cbn [RpcSecurityDescriptor.SecurityDescriptor
      RpcSecurityDescriptor.InSecurityDescriptor RpcSecurityDescriptor.OutSecurityDescriptor].
    change (uint32 0) with 0. rewrite <- !app_assoc. reflexivity.
  - unfold writeRPCSecurityDescriptor. cbn [RpcSecurityDescriptor.SecurityDescriptor
      RpcSecurityDescriptor.InSecurityDescriptor RpcSecurityDescriptor.OutSecurityDescriptor].
    assert ((refId =? 0) = false) as -> by (apply Z.eqb_neq; exact Hr). cbn [negb].
    rewrite Hm.
    destruct (msdtyp_WriteConformantVaryingArray buf 0) as [out err]. cbn [fst snd].
    assert ((if inSize <? uint32 (blen buf) then uint32 (blen buf) else inSize)
            = Z.max inSize (uint32 (blen buf))) as ->
      by (destruct (Z.ltb_spec inSize (uint32 (blen buf))); lia).
    rewrite <- !app_assoc. reflexivity.
Qed.

Lemma writeRPCSecurityDescriptor_layout_witness :
  @writeRPCSecurityDescriptor specMsdtyp [] le
    (@RpcSecurityDescriptor.Build_t specMsdtyp None 2 9) 1
  = ([] ++ PutUint32 le 0 ++ PutUint32 le 2 ++ PutUint32 le 9, 1, None)
  /\ @writeRPCSecurityDescriptor specMsdtyp [] le
       (@RpcSecurityDescriptor.Build_t specMsdtyp (Some [1; 0; 4; 128]) 2 9) 1
     = ([] ++ PutUint32 le 1 ++ PutUint32 le (Z.max 2 (uint32 (blen [1; 0; 4; 128])))
          ++ PutUint32 le (uint32 (blen [1; 0; 4; 128]))
          ++ fst (@msdtyp_WriteConformantVaryingArray specMsdtyp [1; 0; 4; 128] 0),
        uint32 (1 + 1),
        snd (@msdtyp_WriteConformantVaryingArray specMsdtyp [1; 0; 4; 128] 0)).
Proof.
  apply (@writeRPCSecurityDescriptor_layout specMsdtyp [] le [1; 0; 4; 128] 2 9 1
           [1; 0; 4; 128]); [reflexivity | discriminate].
Defined.

Lemma writeRPCSecurityAttributes_eq
  (M : Msdtyp) (w : bytes) (bo : ByteOrder) (sa : RpcSecurityAttributes.t)
  (r : Z) (buf : bytes) :
  msdtyp_SecurityDescriptor_MarshalBinary
    (RpcSecurityDescriptor.SecurityDescriptor (RpcSecurityAttributes.SecurityDescriptor sa))
  = (buf, None) ->
  writeRPCSecurityAttributes w bo sa r
  = (w ++ PutUint32 bo r
       ++ PutUint32 bo (Z.max (RpcSecurityAttributes.Length sa) (uint32 (blen buf)))
       ++ PutUint32 bo (uint32 (r + 2))
       ++ PutUint32 bo (uint32 (blen buf)) ++ PutUint32 bo (uint32 (blen buf))
       ++ PutUint32 le (uint32 (RpcSecurityAttributes.InheritHandle sa))
       ++ fst (msdtyp_WriteConformantVaryingArray buf 0),
     uint32 (r + 3),
     snd (msdtyp_WriteConformantVaryingArray buf 0)).
Proof.
  intros Hm. unfold writeRPCSecurityAttributes. rewrite Hm.
  destruct (msdtyp_WriteConformantVaryingArray buf 0) as [out err]. cbn [fst snd].
  rewrite !uint32_succ.
  replace (r + 1 + 1) with (r + 2) by lia. replace (r + 2 + 1) with (r + 3) by lia.
  assert ((if RpcSecurityAttributes.Length sa <? uint32 (blen buf)
           then uint32 (blen buf) else RpcSecurityAttributes.Length sa)
          = Z.max (RpcSecurityAttributes.Length sa) (uint32 (blen buf))) as ->
    by (destruct (Z.ltb_spec (RpcSecurityAttributes.Length sa) (uint32 (blen buf))); lia).
  rewrite <- !app_assoc. reflexivity.
Qed.

(** [BaseRegCreateKeyReq.MarshalBinary] with a 20-byte handle and a
    disposition that is not zero. The sub key carries the referent ID 1 and
    the class 2. Without security attributes a null pointer follows the two
    32-bit fields and the pointer to the disposition carries 3; with
    security attributes, which take 3 and 5 and leave the counter at 6, it
    carries 6. *)
Theorem BaseRegCreateKeyReq_layout
  (M : Msdtyp) (hkey : bytes) (subKey class : RRPUnicodeStr)
  (options desiredAccess disposition : Z) (sa : RpcSecurityAttributes.t) (buf : bytes) :
  blen hkey = 20 ->
  disposition <> 0 ->
  msdtyp_SecurityDescriptor_MarshalBinary
    (RpcSecurityDescriptor.SecurityDescriptor (RpcSecurityAttributes.SecurityDescriptor sa))
  = (buf, None) ->
  snd (msdtyp_WriteConformantVaryingArray buf 0) = None ->
  let strings :=
    hkey ++ stringLengths le subKey ++ PutUint32 le 1 ++ stringArray le (terminated subKey)
      ++ stringLengths le class ++ PutUint32 le 2 ++ stringArray le (terminated class)
      ++ PutUint32 le options ++ PutUint32 le desiredAccess in
  snd (BaseRegCreateKeyReq.MarshalBinary
         {| BaseRegCreateKeyReq.HKey := hkey;
            BaseRegCreateKeyReq.SubKey := subKey;
            BaseRegCreateKeyReq.Class := class;
            BaseRegCreateKeyReq.Options := options;
            BaseRegCreateKeyReq.DesiredAccess := desiredAccess;
            BaseRegCreateKeyReq.SecurityAttr := None;
            BaseRegCreateKeyReq.Disposition := disposition |})
  = (strings ++ PutUint32 le 0 ++ PutUint32 le 3 ++ PutUint32 le disposition, None)
  /\ snd (BaseRegCreateKeyReq.MarshalBinary
            {| BaseRegCreateKeyReq.HKey := hkey;
               BaseRegCreateKeyReq.SubKey := subKey;
               BaseRegCreateKeyReq.Class := class;
               BaseRegCreateKeyReq.Options := options;
               BaseRegCreateKeyReq.DesiredAccess := desiredAccess;
               BaseRegCreateKeyReq.SecurityAttr := Some sa;
               BaseRegCreateKeyReq.Disposition := disposition |})
     = (strings ++ PutUint32 le 3
          ++ PutUint32 le (Z.max (RpcSecurityAttributes.Length sa) (uint32 (blen buf)))
          ++ PutUint32 le 5
          ++ PutUint32 le (uint32 (blen buf)) ++ PutUint32 le (uint32 (blen buf))
          ++ PutUint32 le (uint32 (RpcSecurityAttributes.InheritHandle sa))
          ++ fst (msdtyp_WriteConformantVaryingArray buf 0)
          ++ PutUint32 le 6 ++ PutUint32 le disposition, None).
Proof.
  intros Hk Hd Hm Ha strings. subst strings.
  assert (Hd' : negb (disposition =? 0) = true)
    by (apply negb_true_iff, Z.eqb_neq; exact Hd).
  split; unfold BaseRegCreateKeyReq.MarshalBinary;
    cbn [BaseRegCreateKeyReq.HKey BaseRegCreateKeyReq.SubKey BaseRegCreateKeyReq.Class
         BaseRegCreateKeyReq.Options BaseRegCreateKeyReq.DesiredAccess
         BaseRegCreateKeyReq.SecurityAttr BaseRegCreateKeyReq.Disposition];
    rewrite (HKey_check hkey Hk), (firstn_HKey hkey Hk);
    rewrite writeRRPUnicodeStr_eq, andb_false_r; cbv beta iota zeta;
    rewrite writeRRPUnicodeStr_eq, andb_false_r; cbv beta iota zeta;
    change (uint32 1) with 1; change (uint32 (1 + 1)) with 2;
    change (uint32 (2 + 1)) with 3; change (uint32 0) with 0;
    cbn [Z.eqb negb BaseRegCreateKeyReq.Options BaseRegCreateKeyReq.DesiredAccess
         BaseRegCreateKeyReq.SecurityAttr BaseRegCreateKeyReq.Disposition].
  - rewrite Hd'. cbn [snd app]. rewrite <- !app_assoc. reflexivity.
  - rewrite (writeRPCSecurityAttributes_eq _ le sa 3 Hm), Ha.
    change (uint32 (3 + 2)) with 5. change (uint32 (3 + 3)) with 6.
    cbv beta iota zeta.
    cbn [BaseRegCreateKeyReq.Disposition]. rewrite Hd'. cbn [snd app].
    rewrite <- !app_assoc. reflexivity.
Qed.

Lemma BaseRegCreateKeyReq_layout_witness :
  snd (@BaseRegCreateKeyReq.MarshalBinary specMsdtyp
         {| BaseRegCreateKeyReq.HKey := make 20;
            BaseRegCreateKeyReq.SubKey := usLargerMax;
            BaseRegCreateKeyReq.Class := usEmpty;
            BaseRegCreateKeyReq.Options := 0;
            BaseRegCreateKeyReq.DesiredAccess := 131097;
            BaseRegCreateKeyReq.SecurityAttr := None;
            BaseRegCreateKeyReq.Disposition := 1 |})
  = ((make 20 ++ stringLengths le usLargerMax ++ PutUint32 le 1
        ++ stringArray le (terminated usLargerMax)
        ++ stringLengths le usEmpty ++ PutUint32 le 2 ++ stringArray le (terminated usEmpty)
        ++ PutUint32 le 0 ++ PutUint32 le 131097)
       ++ PutUint32 le 0 ++ PutUint32 le 3 ++ PutUint32 le 1, None)
  /\ snd (@BaseRegCreateKeyReq.MarshalBinary specMsdtyp
            {| BaseRegCreateKeyReq.HKey := make 20;
               BaseRegCreateKeyReq.SubKey := usLargerMax;
               BaseRegCreateKeyReq.Class := usEmpty;
               BaseRegCreateKeyReq.Options := 0;
               BaseRegCreateKeyReq.DesiredAccess := 131097;
               BaseRegCreateKeyReq.SecurityAttr := Some someAttributes;
               BaseRegCreateKeyReq.Disposition := 1 |})
     = ((make 20 ++ stringLengths le usLargerMax ++ PutUint32 le 1
           ++ stringArray le (terminated usLargerMax)
           ++ stringLengths le usEmpty ++ PutUint32 le 2
           ++ stringArray le (terminated usEmpty)
           ++ PutUint32 le 0 ++ PutUint32 le 131097)
          ++ PutUint32 le 3
          ++ PutUint32 le (Z.max (RpcSecurityAttributes.Length someAttributes)
                                 (uint32 (blen [1; 0; 4; 128])))
          ++ PutUint32 le 5
          ++ PutUint32 le (uint32 (blen [1; 0; 4; 128]))
          ++ PutUint32 le (uint32 (blen [1; 0; 4; 128]))
          ++ PutUint32 le (uint32 (RpcSecurityAttributes.InheritHandle someAttributes))
          ++ fst (@msdtyp_WriteConformantVaryingArray specMsdtyp [1; 0; 4; 128] 0)
          ++ PutUint32 le 6 ++ PutUint32 le 1, None).
Proof.
  apply (@BaseRegCreateKeyReq_layout specMsdtyp (make 20) usLargerMax usEmpty 0 131097 1
           someAttributes [1; 0; 4; 128]);
    [reflexivity | discriminate | reflexivity | reflexivity].
Defined.

(** The requests that carry data never look at their [DataLen] field: what
    [BaseRegEnumValueReq], [BaseRegQueryValueReq] and [BaseRegSetValueReq]
    encode, bytes and error, is the same whatever it holds. The length they
    write is the length of [Data]: with a 20-byte handle, and when the array
    writer of package msdtyp returns [out] and no error, the output is the
    handle, the fields and [out] in their order, and it ends with the 32-bit
    length of [Data]. *)
Theorem DataLen_is_not_encoded (M : Msdtyp) (dataLen : Z) :
  (forall self : BaseRegEnumValueReq.t,
      snd (BaseRegEnumValueReq.MarshalBinary
             {| BaseRegEnumValueReq.HKey := BaseRegEnumValueReq.HKey self;
                BaseRegEnumValueReq.Index := BaseRegEnumValueReq.Index self;
                BaseRegEnumValueReq.NameIn := BaseRegEnumValueReq.NameIn self;
                BaseRegEnumValueReq.Type_ := BaseRegEnumValueReq.Type_ self;
                BaseRegEnumValueReq.Data := BaseRegEnumValueReq.Data self;
                BaseRegEnumValueReq.MaxLen := BaseRegEnumValueReq.MaxLen self;
                BaseRegEnumValueReq.DataLen := dataLen |})
      = snd (BaseRegEnumValueReq.MarshalBinary self))
  /\ (forall self : BaseRegQueryValueReq.t,
         snd (BaseRegQueryValueReq.MarshalBinary
                {| BaseRegQueryValueReq.HKey := BaseRegQueryValueReq.HKey self;
                   BaseRegQueryValueReq.ValueName := BaseRegQueryValueReq.ValueName self;
                   BaseRegQueryValueReq.Type_ := BaseRegQueryValueReq.Type_ self;
                   BaseRegQueryValueReq.Data := BaseRegQueryValueReq.Data self;
                   BaseRegQueryValueReq.MaxLen := BaseRegQueryValueReq.MaxLen self;
                   BaseRegQueryValueReq.DataLen := dataLen |})
         = snd (BaseRegQueryValueReq.MarshalBinary self))
  /\ (forall self : BaseRegSetValueReq.t,
         snd (BaseRegSetValueReq.MarshalBinary
                {| BaseRegSetValueReq.HKey := BaseRegSetValueReq.HKey self;
                   BaseRegSetValueReq.ValueName := BaseRegSetValueReq.ValueName self;
                   BaseRegSetValueReq.Type_ := BaseRegSetValueReq.Type_ self;
                   BaseRegSetValueReq.Data := BaseRegSetValueReq.Data self;
                   BaseRegSetValueReq.DataLen := dataLen |})
         = snd (BaseRegSetValueReq.MarshalBinary self))
  /\ (forall (hkey : bytes) (index : Z) (nameIn : RRPUnicodeStr) (type_ : Z)
             (data : bytes) (maxLen : Z) (out : bytes) (r : Z),
         blen hkey = 20 ->
         msdtyp_WriteConformantVaryingArrayPtr data maxLen 3 = (out, r, None) ->
         snd (BaseRegEnumValueReq.MarshalBinary
                {| BaseRegEnumValueReq.HKey := hkey;
                   BaseRegEnumValueReq.Index := index;
                   BaseRegEnumValueReq.NameIn := nameIn;
                   BaseRegEnumValueReq.Type_ := type_;
                   BaseRegEnumValueReq.Data := data;
                   BaseRegEnumValueReq.MaxLen := maxLen;
                   BaseRegEnumValueReq.DataLen := dataLen |})
         = (hkey ++ PutUint32 le index ++ stringLengths le nameIn ++ PutUint32 le 1
              ++ stringArray le (terminated nameIn) ++ PutUint32 le 2
              ++ PutUint32 le type_ ++ out ++ PutUint32 le r ++ PutUint32 le maxLen
              ++ PutUint32 le (uint32 (r + 1)) ++ PutUint32 le (uint32 (blen data)), None))
  /\ (forall (hkey : bytes) (valueName : RRPUnicodeStr) (type_ : Z)
             (data : bytes) (maxLen : Z) (out : bytes) (r : Z),
         blen hkey = 20 ->
         msdtyp_WriteConformantVaryingArrayPtr data maxLen 3 = (out, r, None) ->
         snd (BaseRegQueryValueReq.MarshalBinary
                {| BaseRegQueryValueReq.HKey := hkey;
                   BaseRegQueryValueReq.ValueName := valueName;
                   BaseRegQueryValueReq.Type_ := type_;
                   BaseRegQueryValueReq.Data := data;
                   BaseRegQueryValueReq.MaxLen := maxLen;
                   BaseRegQueryValueReq.DataLen := dataLen |})
         = (hkey ++ stringLengths le valueName ++ PutUint32 le 1
              ++ stringArray le (terminated valueName) ++ PutUint32 le 2
              ++ PutUint32 le type_ ++ out ++ PutUint32 le r ++ PutUint32 le maxLen
              ++ PutUint32 le (uint32 (r + 1)) ++ PutUint32 le (uint32 (blen data)), None))
  /\ (forall (hkey : bytes) (valueName : RRPUnicodeStr) (type_ : Z)
             (data out : bytes),
         blen hkey = 20 ->
         msdtyp_WriteConformantArray data = (out, None) ->
         snd (BaseRegSetValueReq.MarshalBinary
                {| BaseRegSetValueReq.HKey := hkey;
                   BaseRegSetValueReq.ValueName := valueName;
                   BaseRegSetValueReq.Type_ := type_;
                   BaseRegSetValueReq.Data := data;
                   BaseRegSetValueReq.DataLen := dataLen |})
         = (hkey ++ stringLengths le valueName ++ PutUint32 le 1
              ++ stringArray le (terminated valueName)
              ++ PutUint32 le type_ ++ out ++ PutUint32 le (uint32 (blen data)), None)).
Proof.
  split; [| split; [| split; [| split; [| split]]]]; [intros self | intros self | intros self | | |].
  - unfold BaseRegEnumValueReq.MarshalBinary.
    cbn [BaseRegEnumValueReq.HKey BaseRegEnumValueReq.Index BaseRegEnumValueReq.NameIn
         BaseRegEnumValueReq.Type_ BaseRegEnumValueReq.Data BaseRegEnumValueReq.MaxLen].
    destruct (negb (blen (BaseRegEnumValueReq.HKey self) =? 20)); [reflexivity |].
    destruct (writeRRPUnicodeStr _ le (BaseRegEnumValueReq.NameIn self) _ false)
      as [[w nameIn] refId].
    cbn [BaseRegEnumValueReq.Type_ BaseRegEnumValueReq.Data BaseRegEnumValueReq.MaxLen].
    destruct (msdtyp_WriteConformantVaryingArrayPtr _ _ _) as [[out r] [e |]]; reflexivity.
  - unfold BaseRegQueryValueReq.MarshalBinary.
    cbn [BaseRegQueryValueReq.HKey BaseRegQueryValueReq.ValueName
         BaseRegQueryValueReq.Type_ BaseRegQueryValueReq.Data BaseRegQueryValueReq.MaxLen].
    destruct (negb (blen (BaseRegQueryValueReq.HKey self) =? 20)); [reflexivity |].
    destruct (writeRRPUnicodeStr _ le (BaseRegQueryValueReq.ValueName self) _ false)
      as [[w valueName] refId].
    cbn [BaseRegQueryValueReq.Type_ BaseRegQueryValueReq.Data BaseRegQueryValueReq.MaxLen].
    destruct (msdtyp_WriteConformantVaryingArrayPtr _ _ _) as [[out r] [e |]]; reflexivity.
  - unfold BaseRegSetValueReq.MarshalBinary.
    cbn [BaseRegSetValueReq.HKey BaseRegSetValueReq.ValueName
         BaseRegSetValueReq.Type_ BaseRegSetValueReq.Data].
    destruct (negb (blen (BaseRegSetValueReq.HKey self) =? 20)); [reflexivity |].
    destruct (writeRRPUnicodeStr _ le (BaseRegSetValueReq.ValueName self) _ false)
      as [[w valueName] refId].
    cbn [BaseRegSetValueReq.Type_ BaseRegSetValueReq.Data].
    destruct (msdtyp_WriteConformantArray _) as [out [e |]]; reflexivity.
  - intros hkey index nameIn type_ data maxLen out r Hk Ha.
    unfold BaseRegEnumValueReq.MarshalBinary.
    cbn [BaseRegEnumValueReq.HKey BaseRegEnumValueReq.Index BaseRegEnumValueReq.NameIn
         BaseRegEnumValueReq.Type_ BaseRegEnumValueReq.Data BaseRegEnumValueReq.MaxLen].
    rewrite (HKey_check hkey Hk), (firstn_HKey hkey Hk).
    rewrite writeRRPUnicodeStr_eq, andb_false_r. cbv beta iota zeta.
    change (uint32 1) with 1. change (uint32 (1 + 1)) with 2. change (uint32 (2 + 1)) with 3.
    cbn [Z.eqb negb BaseRegEnumValueReq.Type_ BaseRegEnumValueReq.Data
         BaseRegEnumValueReq.MaxLen].
    rewrite Ha. cbn [snd app]. rewrite <- !app_assoc. reflexivity.
  - intros hkey valueName type_ data maxLen out r Hk Ha.
    unfold BaseRegQueryValueReq.MarshalBinary.
    cbn [BaseRegQueryValueReq.HKey BaseRegQueryValueReq.ValueName
         BaseRegQueryValueReq.Type_ BaseRegQueryValueReq.Data BaseRegQueryValueReq.MaxLen].
    rewrite (HKey_check hkey Hk), (firstn_HKey hkey Hk).
    rewrite writeRRPUnicodeStr_eq, andb_false_r. cbv beta iota zeta.
    change (uint32 1) with 1. change (uint32 (1 + 1)) with 2. change (uint32 (2 + 1)) with 3.
    cbn [Z.eqb negb BaseRegQueryValueReq.Type_ BaseRegQueryValueReq.Data
         BaseRegQueryValueReq.MaxLen].
    rewrite Ha. cbn [snd app]. rewrite <- !app_assoc. reflexivity.
  - intros hkey valueName type_ data out Hk Ha.
    unfold BaseRegSetValueReq.MarshalBinary.
    cbn [BaseRegSetValueReq.HKey BaseRegSetValueReq.ValueName
         BaseRegSetValueReq.Type_ BaseRegSetValueReq.Data].
    rewrite (HKey_check hkey Hk), (firstn_HKey hkey Hk).
    rewrite writeRRPUnicodeStr_eq, andb_false_r. cbv beta iota zeta.
    change (uint32 1) with 1.
    cbn [Z.eqb negb BaseRegSetValueReq.Type_ BaseRegSetValueReq.Data].
    rewrite Ha. cbn [snd app]. rewrite <- !app_assoc. reflexivity.
Qed.

(** A DWORD value of four bytes under the name "v", with a [DataLen] of 99
    that is not written. *)
Lemma DataLen_is_not_encoded_witness :
  snd (@BaseRegEnumValueReq.MarshalBinary specMsdtyp
         {| BaseRegEnumValueReq.HKey := make 20;
            BaseRegEnumValueReq.Index := 0;
            BaseRegEnumValueReq.NameIn := usLargerMax;
            BaseRegEnumValueReq.Type_ := 4;
            BaseRegEnumValueReq.Data := [1; 0; 0; 0];
            BaseRegEnumValueReq.MaxLen := 4;
            BaseRegEnumValueReq.DataLen := 99 |})
  = (make 20 ++ PutUint32 le 0 ++ stringLengths le usLargerMax ++ PutUint32 le 1
       ++ stringArray le (terminated usLargerMax) ++ PutUint32 le 2
       ++ PutUint32 le 4
       ++ fst (fst (@msdtyp_WriteConformantVaryingArrayPtr specMsdtyp [1; 0; 0; 0] 4 3))
       ++ PutUint32 le 4 ++ PutUint32 le 4
       ++ PutUint32 le (uint32 (4 + 1)) ++ PutUint32 le (uint32 (blen [1; 0; 0; 0])), None)
  /\ snd (@BaseRegSetValueReq.MarshalBinary specMsdtyp
            {| BaseRegSetValueReq.HKey := make 20;
               BaseRegSetValueReq.ValueName := usLargerMax;
               BaseRegSetValueReq.Type_ := 4;
               BaseRegSetValueReq.Data := [1; 0; 0; 0];
               BaseRegSetValueReq.DataLen := 99 |})
     = (make 20 ++ stringLengths le usLargerMax ++ PutUint32 le 1
          ++ stringArray le (terminated usLargerMax)
          ++ PutUint32 le 4
          ++ fst (@msdtyp_WriteConformantArray specMsdtyp [1; 0; 0; 0])
          ++ PutUint32 le (uint32 (blen [1; 0; 0; 0])), None).
Proof.
  split.
  - apply (proj1 (proj2 (proj2 (proj2 (@DataLen_is_not_encoded specMsdtyp 99))))
             (make 20) 0 usLargerMax 4 [1; 0; 0; 0] 4
             (fst (fst (@msdtyp_WriteConformantVaryingArrayPtr specMsdtyp [1; 0; 0; 0] 4 3)))
             4);
      reflexivity.
  - apply (proj2 (proj2 (proj2 (proj2 (proj2 (@DataLen_is_not_encoded specMsdtyp 99)))))
             (make 20) usLargerMax 4 [1; 0; 0; 0]
             (fst (@msdtyp_WriteConformantArray specMsdtyp [1; 0; 0; 0])));
      reflexivity.
Defined.

(** [BaseRegEnumKeyReq.MarshalBinary] dereferences [LastWriteTime], a
    pointer, without a check. With a nil pointer it panics once the handle
    has passed the length check; a handle of another length is refused
    before. *)
Theorem BaseRegEnumKeyReq_nil_time (self : BaseRegEnumKeyReq.t) :
  BaseRegEnumKeyReq.LastWriteTime self = None ->
  BaseRegEnumKeyReq.MarshalBinary self
  = if blen (BaseRegEnumKeyReq.HKey self) =? 20 then Panics
    else Returns (self, ([], Some (Errorf "Invalid length of HKey in BaseRegEnumKeyReq"))).
Proof.
  intros H. unfold BaseRegEnumKeyReq.MarshalBinary.
  destruct (blen (BaseRegEnumKeyReq.HKey self) =? 20); cbn [negb]; [| reflexivity].
  destruct (writeRRPUnicodeStr _ le (BaseRegEnumKeyReq.NameIn self) _ false)
    as [[w nameIn] refId].
  destruct (writeRRPUnicodeStr _ le (BaseRegEnumKeyReq.ClassIn self) _ false)
    as [[w' classIn] refId'].
  cbn [BaseRegEnumKeyReq.LastWriteTime]. rewrite H. reflexivity.
Qed.

Lemma BaseRegEnumKeyReq_nil_time_witness :
  BaseRegEnumKeyReq.MarshalBinary
    {| BaseRegEnumKeyReq.HKey := make 20; BaseRegEnumKeyReq.Index := 0;
       BaseRegEnumKeyReq.NameIn := usEmpty; BaseRegEnumKeyReq.ClassIn := usEmpty;
       BaseRegEnumKeyReq.LastWriteTime := None |}
  = if blen (BaseRegEnumKeyReq.HKey
               {| BaseRegEnumKeyReq.HKey := make 20; BaseRegEnumKeyReq.Index := 0;
                  BaseRegEnumKeyReq.NameIn := usEmpty; BaseRegEnumKeyReq.ClassIn := usEmpty;
                  BaseRegEnumKeyReq.LastWriteTime := None |}) =? 20
    then Panics
    else Returns ({| BaseRegEnumKeyReq.HKey := make 20; BaseRegEnumKeyReq.Index := 0;
                     BaseRegEnumKeyReq.NameIn := usEmpty;
                     BaseRegEnumKeyReq.ClassIn := usEmpty;
                     BaseRegEnumKeyReq.LastWriteTime := None |},
                  ([], Some (Errorf "Invalid length of HKey in BaseRegEnumKeyReq"))).
Proof.
  apply (@BaseRegEnumKeyReq_nil_time
           {| BaseRegEnumKeyReq.HKey := make 20; BaseRegEnumKeyReq.Index := 0;
              BaseRegEnumKeyReq.NameIn := usEmpty; BaseRegEnumKeyReq.ClassIn := usEmpty;
              BaseRegEnumKeyReq.LastWriteTime := None |}).
  reflexivity.
Defined.

(** [BaseRegGetKeySecurityReq] and [BaseRegSetKeySecurityReq] encode alike:
    the 20-byte handle, the security information, and the descriptor with
    the counter at 1. Without a descriptor that is a null pointer and the two
    size fields, 36 bytes in all; with one that marshals to [buf] it is the
    referent ID 1, the larger of the announced size and the length of [buf],
    the length of [buf], and the array. *)
Theorem security_requests_layout
  (M : Msdtyp) (hkey : bytes) (info inSize outSize : Z) (d : msdtyp_SecurityDescriptor)
  (buf : bytes) :
  blen hkey = 20 ->
  msdtyp_SecurityDescriptor_MarshalBinary (Some d) = (buf, None) ->
  snd (msdtyp_WriteConformantVaryingArray buf 0) = None ->
  let none := {| RpcSecurityDescriptor.SecurityDescriptor := None;
                 RpcSecurityDescriptor.InSecurityDescriptor := inSize;
                 RpcSecurityDescriptor.OutSecurityDescriptor := outSize |} in
  let some := {| RpcSecurityDescriptor.SecurityDescriptor := Some d;
                 RpcSecurityDescriptor.InSecurityDescriptor := inSize;
                 RpcSecurityDescriptor.OutSecurityDescriptor := outSize |} in
  let absent := hkey ++ PutUint32 le info ++ PutUint32 le 0
                  ++ PutUint32 le inSize ++ PutUint32 le outSize in
  let present := hkey ++ PutUint32 le info ++ PutUint32 le 1
                   ++ PutUint32 le (Z.max inSize (uint32 (blen buf)))
                   ++ PutUint32 le (uint32 (blen buf))
                   ++ fst (msdtyp_WriteConformantVaryingArray buf 0) in
  snd (BaseRegGetKeySecurityReq.MarshalBinary
         {| BaseRegGetKeySecurityReq.HKey := hkey;
            BaseRegGetKeySecurityReq.SecurityInformation := info;
            BaseRegGetKeySecurityReq.SecurityDescriptorIn := none |}) = (absent, None)
  /\ snd (BaseRegSetKeySecurityReq.MarshalBinary
            {| BaseRegSetKeySecurityReq.HKey := hkey;
               BaseRegSetKeySecurityReq.SecurityInformation := info;
               BaseRegSetKeySecurityReq.SecurityDescriptorIn := none |}) = (absent, None)
  /\ blen absent = 36
  /\ snd (BaseRegGetKeySecurityReq.MarshalBinary
            {| BaseRegGetKeySecurityReq.HKey := hkey;
               BaseRegGetKeySecurityReq.SecurityInformation := info;
               BaseRegGetKeySecurityReq.SecurityDescriptorIn := some |}) = (present, None)
  /\ snd (BaseRegSetKeySecurityReq.MarshalBinary
            {| BaseRegSetKeySecurityReq.HKey := hkey;
               BaseRegSetKeySecurityReq.SecurityInformation := info;
               BaseRegSetKeySecurityReq.SecurityDescriptorIn := some |}) = (present, None).
Proof.
  intros Hk Hm Ha none some absent present. subst none some absent present.
  assert (Hnone : forall w,
             writeRPCSecurityDescriptor w le
               {| RpcSecurityDescriptor.SecurityDescriptor := None;
                  RpcSecurityDescriptor.InSecurityDescriptor := inSize;
                  RpcSecurityDescriptor.OutSecurityDescriptor := outSize |} 1
             = (w ++ PutUint32 le 0 ++ PutUint32 le inSize ++ PutUint32 le outSize, 1, None)).
  { intros w. unfold writeRPCSecurityDescriptor.
    cbn [RpcSecurityDescriptor.SecurityDescriptor RpcSecurityDescriptor.InSecurityDescriptor
         RpcSecurityDescriptor.OutSecurityDescriptor].
    change (uint32 0) with 0. rewrite <- !app_assoc. reflexivity. }
  assert (Hsome : forall w,
             writeRPCSecurityDescriptor w le
               {| RpcSecurityDescriptor.SecurityDescriptor := Some d;
                  RpcSecurityDescriptor.InSecurityDescriptor := inSize;
                  RpcSecurityDescriptor.OutSecurityDescriptor := outSize |} 1
             = (w ++ PutUint32 le 1 ++ PutUint32 le (Z.max inSize (uint32 (blen buf)))
                  ++ PutUint32 le (uint32 (blen buf))
                  ++ fst (msdtyp_WriteConformantVaryingArray buf 0), 2, None)).
  { intros w. unfold writeRPCSecurityDescriptor.
    cbn [RpcSecurityDescriptor.SecurityDescriptor RpcSecurityDescriptor.InSecurityDescriptor
         RpcSecurityDescriptor.OutSecurityDescriptor Z.eqb negb].
    rewrite Hm. destruct (msdtyp_WriteConformantVaryingArray buf 0) as [out err].
    cbn [fst snd] in *. subst err.
    assert ((if inSize <? uint32 (blen buf) then uint32 (blen buf) else inSize)
            = Z.max inSize (uint32 (blen buf))) as ->
      by (destruct (Z.ltb_spec inSize (uint32 (blen buf))); lia).
    rewrite <- !app_assoc. reflexivity. }
  repeat match goal with |- _ /\ _ => split end;
    try (unfold BaseRegGetKeySecurityReq.MarshalBinary, BaseRegSetKeySecurityReq.MarshalBinary;
         cbn [BaseRegGetKeySecurityReq.HKey BaseRegGetKeySecurityReq.SecurityInformation
              BaseRegGetKeySecurityReq.SecurityDescriptorIn
              BaseRegSetKeySecurityReq.HKey BaseRegSetKeySecurityReq.SecurityInformation
              BaseRegSetKeySecurityReq.SecurityDescriptorIn];
         rewrite (HKey_check hkey Hk), (firstn_HKey hkey Hk);
         change (uint32 1) with 1; rewrite ?Hnone, ?Hsome; cbn [snd app];
         rewrite <- ?app_assoc; reflexivity).
  rewrite !blen_app, !blen_PutUint32, Hk. reflexivity.
Qed.

Lemma security_requests_layout_witness :
  snd (@BaseRegGetKeySecurityReq.MarshalBinary specMsdtyp
         {| BaseRegGetKeySecurityReq.HKey := make 20;
            BaseRegGetKeySecurityReq.SecurityInformation := 4;
            BaseRegGetKeySecurityReq.SecurityDescriptorIn :=
              @RpcSecurityDescriptor.Build_t specMsdtyp None 4096 0 |})
  = (make 20 ++ PutUint32 le 4 ++ PutUint32 le 0 ++ PutUint32 le 4096 ++ PutUint32 le 0, None)
  /\ snd (@BaseRegSetKeySecurityReq.MarshalBinary specMsdtyp
            {| BaseRegSetKeySecurityReq.HKey := make 20;
               BaseRegSetKeySecurityReq.SecurityInformation := 4;
               BaseRegSetKeySecurityReq.SecurityDescriptorIn :=
                 @RpcSecurityDescriptor.Build_t specMsdtyp None 4096 0 |})
     = (make 20 ++ PutUint32 le 4 ++ PutUint32 le 0 ++ PutUint32 le 4096 ++ PutUint32 le 0,
        None)
  /\ blen (make 20 ++ PutUint32 le 4 ++ PutUint32 le 0 ++ PutUint32 le 4096 ++ PutUint32 le 0)
     = 36
  /\ snd (@BaseRegGetKeySecurityReq.MarshalBinary specMsdtyp
            {| BaseRegGetKeySecurityReq.HKey := make 20;
               BaseRegGetKeySecurityReq.SecurityInformation := 4;
               BaseRegGetKeySecurityReq.SecurityDescriptorIn :=
                 @RpcSecurityDescriptor.Build_t specMsdtyp (Some [1; 0; 4; 128]) 4096 0 |})
     = (make 20 ++ PutUint32 le 4 ++ PutUint32 le 1
          ++ PutUint32 le (Z.max 4096 (uint32 (blen [1; 0; 4; 128])))
          ++ PutUint32 le (uint32 (blen [1; 0; 4; 128]))
          ++ fst (@msdtyp_WriteConformantVaryingArray specMsdtyp [1; 0; 4; 128] 0), None)
  /\ snd (@BaseRegSetKeySecurityReq.MarshalBinary specMsdtyp
            {| BaseRegSetKeySecurityReq.HKey := make 20;
               BaseRegSetKeySecurityReq.SecurityInformation := 4;
               BaseRegSetKeySecurityReq.SecurityDescriptorIn :=
                 @RpcSecurityDescriptor.Build_t specMsdtyp (Some [1; 0; 4; 128]) 4096 0 |})
     = (make 20 ++ PutUint32 le 4 ++ PutUint32 le 1
          ++ PutUint32 le (Z.max 4096 (uint32 (blen [1; 0; 4; 128])))
          ++ PutUint32 le (uint32 (blen [1; 0; 4; 128]))
          ++ fst (@msdtyp_WriteConformantVaryingArray specMsdtyp [1; 0; 4; 128] 0), None).
Proof.
  apply (@security_requests_layout specMsdtyp (make 20) 4 4096 0 [1; 0; 4; 128]
           [1; 0; 4; 128]); reflexivity.
Defined.

(** ** Decoders that read a data array *)

Lemma readData_at {M : Msdtyp} {T : Type} (set : T -> bytes -> T) (self : T)
  (pre array rest data : bytes) :
  msdtyp_ReadConformantVaryingArrayPtr (at_ pre (array ++ rest))
  = (at_ (pre ++ array) rest, (data, None)) ->
  readData msdtyp_ReadConformantVaryingArrayPtr set (at_ pre (array ++ rest), self)
  = ((at_ (pre ++ array) rest, set self data), None).
Proof. intros H. unfold readData. rewrite H. reflexivity. Qed.

(** [BaseRegQueryValueRes.UnmarshalBinary], given that
    [msdtyp.ReadConformantVaryingArrayPtr] takes [array] off the reader and
    returns [data]: four bytes that are skipped, the type, the array, four
    bytes that are skipped, the 32-bit value stored as DataLen, four bytes
    that are skipped, the one stored as MaxLen, and the return code. *)
Theorem BaseRegQueryValueRes_decode
  (M : Msdtyp) (self : BaseRegQueryValueRes.t)
  (ptr1 array data ptr2 ptr3 rest : bytes) (type_ dataLen maxLen returnCode : Z) :
  blen ptr1 = 4 ->
  blen ptr2 = 4 ->
  blen ptr3 = 4 ->
  0 <= type_ < 4294967296 ->
  0 <= dataLen < 4294967296 ->
  0 <= maxLen < 4294967296 ->
  0 <= returnCode < 4294967296 ->
  let tail := ptr2 ++ PutUint32 le dataLen ++ ptr3 ++ PutUint32 le maxLen
                ++ PutUint32 le returnCode ++ rest in
  msdtyp_ReadConformantVaryingArrayPtr (at_ (ptr1 ++ PutUint32 le type_) (array ++ tail))
  = (at_ ((ptr1 ++ PutUint32 le type_) ++ array) tail, (data, None)) ->
  BaseRegQueryValueRes.UnmarshalBinary self (ptr1 ++ PutUint32 le type_ ++ array ++ tail)
  = ({| BaseRegQueryValueRes.Type_ := type_;
        BaseRegQueryValueRes.Data := data;
        BaseRegQueryValueRes.DataLen := dataLen;
        BaseRegQueryValueRes.MaxLen := maxLen;
        BaseRegQueryValueRes.ReturnCode := returnCode |}, None).
Proof.
  intros Hp1 Hp2 Hp3 Ht Hd Hm Hr tail Ha. subst tail.
  unfold BaseRegQueryValueRes.UnmarshalBinary, run, andThen.
  rewrite NewReader_at. rewrite <- Hp1 at 1. rewrite seek_at. cbn [app].
  rewrite readField_at by exact Ht.
  rewrite (@readData_at M _ _ _ _ _ _ _ Ha).
  rewrite <- Hp2 at 1. rewrite seek_at. rewrite readField_at by exact Hd.
  rewrite <- Hp3 at 1. rewrite seek_at. rewrite readField_at by exact Hm.
  rewrite readField_at by exact Hr. reflexivity.
Qed.

Lemma BaseRegQueryValueRes_decode_witness :
  @BaseRegQueryValueRes.UnmarshalBinary specMsdtyp zeroQueryValueRes
    ([0; 0; 2; 0] ++ PutUint32 le 4
       ++ ([4; 0; 2; 0] ++ PutUint32 le 4 ++ PutUint32 le 0 ++ PutUint32 le 4 ++ [1; 0; 0; 0])
       ++ [8; 0; 2; 0] ++ PutUint32 le 4 ++ [12; 0; 2; 0] ++ PutUint32 le 4
       ++ PutUint32 le 0 ++ [])
  = ({| BaseRegQueryValueRes.Type_ := 4;
        BaseRegQueryValueRes.Data := [1; 0; 0; 0];
        BaseRegQueryValueRes.DataLen := 4;
        BaseRegQueryValueRes.MaxLen := 4;
        BaseRegQueryValueRes.ReturnCode := 0 |}, None).
Proof.
  apply (@BaseRegQueryValueRes_decode specMsdtyp zeroQueryValueRes [0; 0; 2; 0]
           ([4; 0; 2; 0] ++ PutUint32 le 4 ++ PutUint32 le 0 ++ PutUint32 le 4 ++ [1; 0; 0; 0])
           [1; 0; 0; 0] [8; 0; 2; 0] [12; 0; 2; 0] [] 4 4 4 0);
    first [reflexivity | lia].
Defined.

(** [BaseRegEnumValueRes.UnmarshalBinary], under the same condition on the
    array reader, on a response whose name is a counted string of the Basic
    Multilingual Plane: the name, which is stored with its terminator, and
    then the fields as in [BaseRegQueryValueRes]. *)
Theorem BaseRegEnumValueRes_decode
  (M : Msdtyp) (self : BaseRegEnumValueRes.t) (name : gostring)
  (l maxLength refId maxCount : Z)
  (ptr1 array data ptr2 ptr3 rest : bytes) (type_ dataLen maxLen returnCode : Z) :
  isBMPString name = true ->
  0 < l < 65536 ->
  0 <= maxLength < 65536 ->
  0 < maxCount < 4294967296 ->
  Z.of_nat (List.length name) + 1 < 2147483648 ->
  blen ptr1 = 4 ->
  blen ptr2 = 4 ->
  blen ptr3 = 4 ->
  0 <= type_ < 4294967296 ->
  0 <= dataLen < 4294967296 ->
  0 <= maxLen < 4294967296 ->
  0 <= returnCode < 4294967296 ->
  let head := wireString name l maxLength refId maxCount ++ ptr1 ++ PutUint32 le type_ in
  let tail := ptr2 ++ PutUint32 le dataLen ++ ptr3 ++ PutUint32 le maxLen
                ++ PutUint32 le returnCode ++ rest in
  msdtyp_ReadConformantVaryingArrayPtr (at_ head (array ++ tail))
  = (at_ (head ++ array) tail, (data, None)) ->
  BaseRegEnumValueRes.UnmarshalBinary self (head ++ array ++ tail)
  = ({| BaseRegEnumValueRes.NameOut := {| RPC_MaxLength := maxLength; RPC_S := name ++ [0] |};
        BaseRegEnumValueRes.Type_ := type_;
        BaseRegEnumValueRes.Data := data;
        BaseRegEnumValueRes.DataLen := dataLen;
        BaseRegEnumValueRes.MaxLen := maxLen;
        BaseRegEnumValueRes.ReturnCode := returnCode |}, None).
Proof.
  intros Hn Hl Hml Hmc Hlen Hp1 Hp2 Hp3 Ht Hd Hm Hr head tail Ha. subst head tail.
  unfold BaseRegEnumValueRes.UnmarshalBinary.
  rewrite length_check_passes.
  2:{ rewrite !blen_app, !blen_PutUint32, Hp1, Hp2, Hp3.
      pose proof (blen_wireString name l maxLength refId maxCount).
      pose proof (blen_nonneg array). pose proof (blen_nonneg rest). lia. }
  unfold run, andThen. rewrite NewReader_at, <- !app_assoc.
  unfold readStr at 1. rewrite readRPCUnicodeStr_wireString by assumption.
  rewrite <- Hp1 at 1. rewrite seek_at. rewrite readField_at by exact Ht.
  cbn [app] in *. rewrite <- !app_assoc in *.
  unfold readData at 1. rewrite Ha.
  rewrite <- Hp2 at 1. rewrite seek_at. rewrite readField_at by exact Hd.
  rewrite <- Hp3 at 1. rewrite seek_at. rewrite readField_at by exact Hm.
  rewrite readField_at by exact Hr. reflexivity.
Qed.

Lemma BaseRegEnumValueRes_decode_witness :
  @BaseRegEnumValueRes.UnmarshalBinary specMsdtyp
    {| BaseRegEnumValueRes.NameOut := {| RPC_MaxLength := 0; RPC_S := [] |};
       BaseRegEnumValueRes.Type_ := 0; BaseRegEnumValueRes.Data := [];
       BaseRegEnumValueRes.DataLen := 0; BaseRegEnumValueRes.MaxLen := 0;
       BaseRegEnumValueRes.ReturnCode := 0 |}
    ((wireString (lit "v") 4 4 131072 2 ++ [4; 0; 2; 0] ++ PutUint32 le 4)
       ++ ([8; 0; 2; 0] ++ PutUint32 le 4 ++ PutUint32 le 0 ++ PutUint32 le 4 ++ [1; 0; 0; 0])
       ++ [12; 0; 2; 0] ++ PutUint32 le 4 ++ [16; 0; 2; 0] ++ PutUint32 le 4
       ++ PutUint32 le 0 ++ [])
  = ({| BaseRegEnumValueRes.NameOut := {| RPC_MaxLength := 4; RPC_S := lit "v" ++ [0] |};
        BaseRegEnumValueRes.Type_ := 4;
        BaseRegEnumValueRes.Data := [1; 0; 0; 0];
        BaseRegEnumValueRes.DataLen := 4;
        BaseRegEnumValueRes.MaxLen := 4;
        BaseRegEnumValueRes.ReturnCode := 0 |}, None).
Proof.
  apply (@BaseRegEnumValueRes_decode specMsdtyp
           {| BaseRegEnumValueRes.NameOut := {| RPC_MaxLength := 0; RPC_S := [] |};
              BaseRegEnumValueRes.Type_ := 0; BaseRegEnumValueRes.Data := [];
              BaseRegEnumValueRes.DataLen := 0; BaseRegEnumValueRes.MaxLen := 0;
              BaseRegEnumValueRes.ReturnCode := 0 |}
           (lit "v") 4 4 131072 2 [4; 0; 2; 0]
           ([8; 0; 2; 0] ++ PutUint32 le 4 ++ PutUint32 le 0 ++ PutUint32 le 4 ++ [1; 0; 0; 0])
           [1; 0; 0; 0] [12; 0; 2; 0] [16; 0; 2; 0] [] 4 4 4 0);
    first [reflexivity | cbn; lia].
Defined.

(** ** SMB1 negotiate messages *)

Lemma holdsAt_start (buf : bytes) : holdsAt buf 0 buf.
Proof. exists []. split; reflexivity. Qed.

Lemma holdsAt_step (buf x suffix : bytes) (off n off' : Z) :
  holdsAt buf off (x ++ suffix) -> blen x = n -> off' = off + n ->
  holdsAt buf off' suffix.
Proof.
  intros (pre & -> & Hp) Hx ->. exists (pre ++ x). split.
  - rewrite <- app_assoc. reflexivity.
  - rewrite blen_app. lia.
Qed.

Lemma holdsAt_blen (buf suffix : bytes) (off : Z) :
  holdsAt buf off suffix -> blen buf = off + blen suffix.
Proof. intros (pre & -> & Hp). rewrite blen_app. lia. Qed.

Lemma skipn_blen_app (pre rest : bytes) : skipn (Z.to_nat (blen pre)) (pre ++ rest) = rest.
Proof.
  unfold blen. rewrite Nat2Z.id, skipn_app, skipn_all, Nat.sub_diag. reflexivity.
Qed.

Lemma firstn_blen_app (x rest : bytes) : firstn (Z.to_nat (blen x)) (x ++ rest) = x.
Proof.
  unfold blen. rewrite Nat2Z.id, firstn_app, firstn_all, Nat.sub_diag.
  cbn. apply app_nil_r.
Qed.

Lemma index_holdsAt (buf suffix : bytes) (off v : Z) :
  holdsAt buf off ([v] ++ suffix) ->
  forall i, i = off -> index buf i = Returns v.
Proof.
  intros (pre & -> & Hp) i ->. unfold index. subst off.
  pose proof (blen_nonneg pre). pose proof (blen_nonneg suffix).
  rewrite blen_app. cbn [app]. rewrite blen_cons.
  assert (((0 <=? blen pre) && (blen pre <? blen pre + (1 + blen suffix))) = true) as ->
    by lia.
  f_equal. unfold blen. rewrite Nat2Z.id, app_nth2, Nat.sub_diag by lia. reflexivity.
Qed.

Lemma slice_holdsAt (buf x suffix : bytes) (off : Z) :
  holdsAt buf off (x ++ suffix) ->
  forall lo hi, lo = off -> hi = off + blen x -> slice buf lo hi = Returns x.
Proof.
  intros (pre & -> & Hp) lo hi -> ->. unfold slice. subst off.
  pose proof (blen_nonneg pre). pose proof (blen_nonneg x). pose proof (blen_nonneg suffix).
  rewrite !blen_app.
  assert (((0 <=? blen pre) && (blen pre <=? blen pre + blen x)
           && (blen pre + blen x <=? blen pre + (blen x + blen suffix))) = true) as ->
    by lia.
  f_equal. rewrite skipn_blen_app.
  replace (blen pre + blen x - blen pre) with (blen x) by lia.
  apply firstn_blen_app.
Qed.

Lemma Uint64_PutUint64 (x : Z) :
  0 <= x < 18446744073709551616 -> Uint64 (PutUint64 x) = Some x.
Proof.
  intros H. unfold PutUint64.
  pose proof (Z.mod_pos_bound x 4294967296 ltac:(lia)) as Hlo.
  assert (Hhi : 0 <= x / 4294967296 < 4294967296).
  { split; [apply Z.div_pos; lia | apply Z.div_lt_upper_bound; lia]. }
  pose proof (@Uint32_PutUint32 (x mod 4294967296) [] Hlo) as Elo.
  pose proof (@Uint32_PutUint32 (x / 4294967296) [] Hhi) as Ehi.
  pose proof (Z.div_mod x 4294967296 ltac:(lia)) as D.
  revert Elo Ehi. generalize (x mod 4294967296) (x / 4294967296) D. clear.
  intros lo hi D. unfold Uint32, Uint64, PutUint32, le. cbn [app].
  intros Elo Ehi.
  assert (Inj : forall a b : Z, Some a = Some b -> a = b) by (intros a b [= ->]; reflexivity).
  apply Inj in Elo. apply Inj in Ehi. f_equal. lia.
Qed.

Lemma blen_PutUint64 (x : Z) : blen (PutUint64 x) = 8.
Proof. reflexivity. Qed.

Lemma optionalByte_holdsAt (buf suffix : bytes) (old off v : Z) :
  holdsAt buf off ([v] ++ suffix) ->
  forall i, i = off -> SMB1NegotiateRes.optionalByte buf old i = Returns (v, i + 1).
Proof.
  intros A i ->. unfold SMB1NegotiateRes.optionalByte.
  pose proof (holdsAt_blen A) as L. rewrite blen_app in L. change (blen [v]) with 1 in L.
  pose proof (blen_nonneg suffix).
  assert ((off + 1 <=? blen buf) = true) as -> by lia.
  rewrite (index_holdsAt A eq_refl). reflexivity.
Qed.

Lemma optionalUint16_holdsAt (buf suffix : bytes) (old off v : Z) :
  holdsAt buf off (PutUint16 le v ++ suffix) ->
  0 <= v < 65536 ->
  forall i, i = off -> SMB1NegotiateRes.optionalUint16 buf old i = Returns (v, i + 2).
Proof.
  intros A Hv i ->. unfold SMB1NegotiateRes.optionalUint16.
  pose proof (holdsAt_blen A) as L. rewrite blen_app, blen_PutUint16 in L.
  pose proof (blen_nonneg suffix).
  assert ((off + 2 <=? blen buf) = true) as -> by lia.
  rewrite (slice_holdsAt _ _ A eq_refl) by (rewrite blen_PutUint16; reflexivity).
  cbn [andThenO]. pose proof (Uint16_PutUint16 [] Hv) as E. rewrite app_nil_r in E.
  rewrite E. reflexivity.
Qed.

Lemma optionalInt16_holdsAt (buf suffix : bytes) (old off v : Z) :
  holdsAt buf off (PutUint16 le v ++ suffix) ->
  0 <= v < 65536 ->
  forall i, i = off -> SMB1NegotiateRes.optionalInt16 buf old i = Returns (int16 v, i + 2).
Proof.
  intros A Hv i ->. unfold SMB1NegotiateRes.optionalInt16.
  pose proof (holdsAt_blen A) as L. rewrite blen_app, blen_PutUint16 in L.
  pose proof (blen_nonneg suffix).
  assert ((off + 2 <=? blen buf) = true) as -> by lia.
  rewrite (slice_holdsAt _ _ A eq_refl) by (rewrite blen_PutUint16; reflexivity).
  cbn [andThenO]. pose proof (Uint16_PutUint16 [] Hv) as E. rewrite app_nil_r in E.
  rewrite E. reflexivity.
Qed.

Lemma optionalUint32_holdsAt (buf suffix : bytes) (old off v : Z) :
  holdsAt buf off (PutUint32 le v ++ suffix) ->
  0 <= v < 4294967296 ->
  forall i, i = off -> SMB1NegotiateRes.optionalUint32 buf old i = Returns (v, i + 4).
Proof.
  intros A Hv i ->. unfold SMB1NegotiateRes.optionalUint32.
  pose proof (holdsAt_blen A) as L. rewrite blen_app, blen_PutUint32 in L.
  pose proof (blen_nonneg suffix).
  assert ((off + 4 <=? blen buf) = true) as -> by lia.
  rewrite (slice_holdsAt _ _ A eq_refl) by (rewrite blen_PutUint32; reflexivity).
  cbn [andThenO]. pose proof (Uint32_PutUint32 [] Hv) as E. rewrite app_nil_r in E.
  rewrite E. reflexivity.
Qed.

Lemma optionalUint64_holdsAt (buf suffix : bytes) (old off v : Z) :
  holdsAt buf off (PutUint64 v ++ suffix) ->
  0 <= v < 18446744073709551616 ->
  forall i, i = off -> SMB1NegotiateRes.optionalUint64 buf old i = Returns (v, i + 8).
Proof.
  intros A Hv i ->. unfold SMB1NegotiateRes.optionalUint64.
  pose proof (holdsAt_blen A) as L. rewrite blen_app, blen_PutUint64 in L.
  pose proof (blen_nonneg suffix).
  assert ((off + 8 <=? blen buf) = true) as -> by lia.
  rewrite (slice_holdsAt _ _ A eq_refl) by (rewrite blen_PutUint64; reflexivity).
  cbn [andThenO]. rewrite (Uint64_PutUint64 Hv). reflexivity.
Qed.

(** From [A : holdsAt buf off (x ++ suffix)] to the next field. *)
Ltac advance A A' :=
  match type of A with
  | holdsAt ?buf ?off (?x ++ ?suffix) =>
      assert (A' : holdsAt buf (off + blen x) suffix)
        by (apply (@holdsAt_step buf x suffix off (blen x) _ A eq_refl eq_refl))
  end.

(** [SMB1NegotiateRes.UnmarshalBinary] on a response that carries every
    field: the 32 bytes of the header, the word count (not zero), and the
    body in the order DialectIndex, SecurityMode, MaxMpxCount, MaxVcCount,
    MaxBufSize, MaxRawSize, SessionKey, Capabilities, SystemTime, TimeZone,
    KeyLength, ByteCount, and then KeyLength bytes of security blob. Every
    field gets its value, the time zone as a signed 16-bit number; the blob
    is taken when KeyLength is not zero, and what follows it is ignored. *)
Theorem SMB1NegotiateRes_decode
  (E : Encoder) (self : SMB1NegotiateRes.t) (head blob rest : bytes)
  (header : SMB1Header.t)
  (wordCount dialectIndex securityMode maxMpxCount maxVcCount maxBufSize maxRawSize
     sessionKey capabilities systemTime timeZone keyLength byteCount : Z) :
  blen head = 32 ->
  encoder_Unmarshal head (SMB1NegotiateRes.Header self) = (header, None) ->
  wordCount <> 0 ->
  0 <= dialectIndex < 65536 ->
  0 <= maxMpxCount < 65536 ->
  0 <= maxVcCount < 65536 ->
  0 <= maxBufSize < 4294967296 ->
  0 <= maxRawSize < 4294967296 ->
  0 <= sessionKey < 4294967296 ->
  0 <= capabilities < 4294967296 ->
  0 <= systemTime < 18446744073709551616 ->
  0 <= timeZone < 65536 ->
  0 <= byteCount < 65536 ->
  blen blob = keyLength ->
  SMB1NegotiateRes.UnmarshalBinary self
    (head ++ negotiateBody wordCount dialectIndex securityMode maxMpxCount maxVcCount
               maxBufSize maxRawSize sessionKey capabilities systemTime timeZone
               keyLength byteCount blob ++ rest)
  = Returns
      ({| SMB1NegotiateRes.Header := header;
          SMB1NegotiateRes.WordCount := wordCount;
          SMB1NegotiateRes.DialectIndex := dialectIndex;
          SMB1NegotiateRes.SecurityMode := securityMode;
          SMB1NegotiateRes.MaxMpxCount := maxMpxCount;
          SMB1NegotiateRes.MaxVcCount := maxVcCount;
          SMB1NegotiateRes.MaxBufSize := maxBufSize;
          SMB1NegotiateRes.MaxRawSize := maxRawSize;
          SMB1NegotiateRes.SessionKey := sessionKey;
          SMB1NegotiateRes.Capabilities := capabilities;
          SMB1NegotiateRes.SystemTime := systemTime;
          SMB1NegotiateRes.TimeZone := int16 timeZone;
          SMB1NegotiateRes.KeyLength := keyLength;
          SMB1NegotiateRes.ByteCount := byteCount;
          SMB1NegotiateRes.SecurityBlob :=
            if 0 <? keyLength then blob else SMB1NegotiateRes.SecurityBlob self |}, None).
Proof.
  intros Hh Hu Hw Hdi Hmpx Hvc Hbuf Hraw Hsk Hcap Htime Htz Hbc Hblob.
  unfold negotiateBody. rewrite <- !app_assoc.
  match goal with |- SMB1NegotiateRes.UnmarshalBinary self ?b = _ => set (buf := b) end.
  pose proof (holdsAt_start buf) as A0. unfold buf at 2 in A0.
  advance A0 A1. advance A1 A2. advance A2 A3. advance A3 A4. advance A4 A5.
  advance A5 A6. advance A6 A7. advance A7 A8. advance A8 A9. advance A9 A10.
  advance A10 A11. advance A11 A12. advance A12 A13. advance A13 A14.
  rewrite ?blen_PutUint16, ?blen_PutUint32, ?blen_PutUint64, ?Hh in *.
  change (blen [wordCount]) with 1 in *. change (blen [securityMode]) with 1 in *.
  change (blen [keyLength]) with 1 in *.
  pose proof (holdsAt_blen A14) as Hlen. rewrite blen_app in Hlen.
  pose proof (blen_nonneg blob). pose proof (blen_nonneg rest).
  unfold SMB1NegotiateRes.UnmarshalBinary.
  rewrite length_check_passes by lia.
  rewrite (slice_holdsAt _ _ A0 (lo:=0) (hi:=32)) by (rewrite ?Hh; reflexivity).
  cbn [andThenO]. rewrite Hu.
  rewrite (index_holdsAt A1) by reflexivity. cbn [andThenO].
  assert ((wordCount =? 0) = false) as -> by (apply Z.eqb_neq; exact Hw).
  rewrite length_check_passes by lia.
  rewrite (slice_holdsAt _ _ A2) by (rewrite ?blen_PutUint16; reflexivity).
  pose proof (Uint16_PutUint16 [] Hdi) as Edi. rewrite app_nil_r in Edi.
  cbn [andThenO]. rewrite Edi. cbn [andThenO orPanic].
  rewrite (optionalByte_holdsAt _ A3) by reflexivity. cbn [andThenO].
  rewrite (optionalUint16_holdsAt _ A4 Hmpx) by reflexivity. cbn [andThenO].
  rewrite (optionalUint16_holdsAt _ A5 Hvc) by reflexivity. cbn [andThenO].
  rewrite (optionalUint32_holdsAt _ A6 Hbuf) by reflexivity. cbn [andThenO].
  rewrite (optionalUint32_holdsAt _ A7 Hraw) by reflexivity. cbn [andThenO].
  rewrite (optionalUint32_holdsAt _ A8 Hsk) by reflexivity. cbn [andThenO].
  rewrite (optionalUint32_holdsAt _ A9 Hcap) by reflexivity. cbn [andThenO].
  rewrite (optionalUint64_holdsAt _ A10 Htime) by reflexivity. cbn [andThenO].
  rewrite (optionalInt16_holdsAt _ A11 Htz) by reflexivity. cbn [andThenO].
  rewrite (optionalByte_holdsAt _ A12) by reflexivity. cbn [andThenO].
  match goal with
  | |- context [?off + 2 <=? blen buf] =>
      assert ((off + 2 <=? blen buf) = true) as -> by lia
  end.
  rewrite (slice_holdsAt _ _ A13) by (rewrite ?blen_PutUint16; reflexivity).
  pose proof (Uint16_PutUint16 [] Hbc) as Ebc. rewrite app_nil_r in Ebc.
  cbn [andThenO]. rewrite Ebc. cbn [andThenO orPanic].
  destruct (0 <? keyLength) eqn:Ek; cbn [andb].
  - match goal with
    | |- context [?off + keyLength <=? blen buf] =>
        assert ((off + keyLength <=? blen buf) = true) as -> by lia
    end.
    rewrite (slice_holdsAt _ _ A14) by (rewrite ?Hblob; reflexivity).
    reflexivity.
  - reflexivity.
Qed.

Lemma SMB1NegotiateRes_decode_witness :
  @SMB1NegotiateRes.UnmarshalBinary exampleEncoder zeroNegotiateRes
    (exampleHeaderBytes
       ++ negotiateBody 17 5 3 50 1 16644 65536 0 2147607549 133000000000000000 65476
            8 8 [1; 2; 3; 4; 5; 6; 7; 8]
       ++ [9; 9])
  = Returns
      ({| SMB1NegotiateRes.Header := exampleHeader;
          SMB1NegotiateRes.WordCount := 17;
          SMB1NegotiateRes.DialectIndex := 5;
          SMB1NegotiateRes.SecurityMode := 3;
          SMB1NegotiateRes.MaxMpxCount := 50;
          SMB1NegotiateRes.MaxVcCount := 1;
          SMB1NegotiateRes.MaxBufSize := 16644;
          SMB1NegotiateRes.MaxRawSize := 65536;
          SMB1NegotiateRes.SessionKey := 0;
          SMB1NegotiateRes.Capabilities := 2147607549;
          SMB1NegotiateRes.SystemTime := 133000000000000000;
          SMB1NegotiateRes.TimeZone := int16 65476;
          SMB1NegotiateRes.KeyLength := 8;
          SMB1NegotiateRes.ByteCount := 8;
          SMB1NegotiateRes.SecurityBlob :=
            if 0 <? 8 then [1; 2; 3; 4; 5; 6; 7; 8]
            else SMB1NegotiateRes.SecurityBlob zeroNegotiateRes |}, None).
Proof.
  apply (@SMB1NegotiateRes_decode exampleEncoder zeroNegotiateRes exampleHeaderBytes
           [1; 2; 3; 4; 5; 6; 7; 8] [9; 9] exampleHeader
           17 5 3 50 1 16644 65536 0 2147607549 133000000000000000 65476 8 8);
    first [reflexivity | discriminate | lia].
Defined.

Lemma optional_skipped (buf : bytes) (old off : Z) :
  (blen buf < off + 2 -> SMB1NegotiateRes.optionalUint16 buf old off = Returns (old, off))
  /\ (blen buf < off + 2 -> SMB1NegotiateRes.optionalInt16 buf old off = Returns (old, off))
  /\ (blen buf < off + 4 -> SMB1NegotiateRes.optionalUint32 buf old off = Returns (old, off))
  /\ (blen buf < off + 8 -> SMB1NegotiateRes.optionalUint64 buf old off = Returns (old, off)).
Proof.
  unfold SMB1NegotiateRes.optionalUint16, SMB1NegotiateRes.optionalInt16,
    SMB1NegotiateRes.optionalUint32, SMB1NegotiateRes.optionalUint64.
  repeat split; intros H;
    match goal with
    | |- context [?a <=? ?b] => assert ((a <=? b) = false) as -> by lia
    end; reflexivity.
Qed.

(** A field that does not fit is skipped. *)
Ltac skip_field :=
  match goal with
  | |- context [SMB1NegotiateRes.optionalUint16 ?b ?old ?off] =>
      rewrite (proj1 (optional_skipped b old off)) by lia
  | |- context [SMB1NegotiateRes.optionalInt16 ?b ?old ?off] =>
      rewrite (proj1 (proj2 (optional_skipped b old off))) by lia
  | |- context [SMB1NegotiateRes.optionalUint32 ?b ?old ?off] =>
      rewrite (proj1 (proj2 (proj2 (optional_skipped b old off)))) by lia
  | |- context [SMB1NegotiateRes.optionalUint64 ?b ?old ?off] =>
      rewrite (proj2 (proj2 (proj2 (optional_skipped b old off)))) by lia
  end; cbn [andThenO].

(** The shortest response that is accepted, 37 bytes, with a word count
    that is not zero: the header, the word count, the dialect index, the
    security mode and one more byte. The fields that do not fit are skipped
    and keep their values, but the parse goes on: the last byte, which lies
    where MaxMpxCount starts, is stored as KeyLength. No error is returned. *)
Theorem SMB1NegotiateRes_shortest
  (E : Encoder) (self : SMB1NegotiateRes.t) (head : bytes) (header : SMB1Header.t)
  (wordCount d0 d1 securityMode last : Z) :
  blen head = 32 ->
  encoder_Unmarshal head (SMB1NegotiateRes.Header self) = (header, None) ->
  wordCount <> 0 ->
  SMB1NegotiateRes.UnmarshalBinary self (head ++ [wordCount; d0; d1; securityMode; last])
  = Returns
      ({| SMB1NegotiateRes.Header := header;
          SMB1NegotiateRes.WordCount := wordCount;
          SMB1NegotiateRes.DialectIndex := d0 + 256 * d1;
          SMB1NegotiateRes.SecurityMode := securityMode;
          SMB1NegotiateRes.MaxMpxCount := SMB1NegotiateRes.MaxMpxCount self;
          SMB1NegotiateRes.MaxVcCount := SMB1NegotiateRes.MaxVcCount self;
          SMB1NegotiateRes.MaxBufSize := SMB1NegotiateRes.MaxBufSize self;
          SMB1NegotiateRes.MaxRawSize := SMB1NegotiateRes.MaxRawSize self;
          SMB1NegotiateRes.SessionKey := SMB1NegotiateRes.SessionKey self;
          SMB1NegotiateRes.Capabilities := SMB1NegotiateRes.Capabilities self;
          SMB1NegotiateRes.SystemTime := SMB1NegotiateRes.SystemTime self;
          SMB1NegotiateRes.TimeZone := SMB1NegotiateRes.TimeZone self;
          SMB1NegotiateRes.KeyLength := last;
          SMB1NegotiateRes.ByteCount := SMB1NegotiateRes.ByteCount self;
          SMB1NegotiateRes.SecurityBlob := SMB1NegotiateRes.SecurityBlob self |}, None).
Proof.
  intros Hh Hu Hw.
  change [wordCount; d0; d1; securityMode; last]
    with ([wordCount] ++ [d0; d1] ++ [securityMode] ++ [last] ++ []).
  match goal with |- SMB1NegotiateRes.UnmarshalBinary self ?b = _ => set (buf := b) end.
  pose proof (holdsAt_start buf) as A0. unfold buf at 2 in A0.
  advance A0 A1. advance A1 A2. advance A2 A3. advance A3 A4. advance A4 A5.
  rewrite ?Hh in *.
  change (blen [wordCount]) with 1 in *. change (blen [d0; d1]) with 2 in *.
  change (blen [securityMode]) with 1 in *. change (blen [last]) with 1 in *.
  pose proof (holdsAt_blen A5) as Hlen. change (blen []) with 0 in Hlen.
  unfold SMB1NegotiateRes.UnmarshalBinary.
  rewrite length_check_passes by lia.
  rewrite (slice_holdsAt _ _ A0 (lo:=0) (hi:=32)) by (rewrite ?Hh; reflexivity).
  cbn [andThenO]. rewrite Hu.
  rewrite (index_holdsAt A1) by reflexivity. cbn [andThenO].
  assert ((wordCount =? 0) = false) as -> by (apply Z.eqb_neq; exact Hw).
  rewrite length_check_passes by lia.
  rewrite (slice_holdsAt _ _ A2) by reflexivity.
  cbn [andThenO Uint16 orPanic].
  rewrite (optionalByte_holdsAt _ A3) by reflexivity. cbn [andThenO].
  do 8 skip_field.
  rewrite (optionalByte_holdsAt _ A4) by reflexivity. cbn [andThenO].
  match goal with
  | |- context [?off + 2 <=? blen buf] =>
      assert ((off + 2 <=? blen buf) = false) as -> by lia
  end.
  reflexivity.
Qed.

Lemma SMB1NegotiateRes_shortest_witness :
  @SMB1NegotiateRes.UnmarshalBinary exampleEncoder zeroNegotiateRes
    (exampleHeaderBytes ++ [17; 5; 0; 3; 50])
  = Returns
      ({| SMB1NegotiateRes.Header := exampleHeader;
          SMB1NegotiateRes.WordCount := 17;
          SMB1NegotiateRes.DialectIndex := 5 + 256 * 0;
          SMB1NegotiateRes.SecurityMode := 3;
          SMB1NegotiateRes.MaxMpxCount := SMB1NegotiateRes.MaxMpxCount zeroNegotiateRes;
          SMB1NegotiateRes.MaxVcCount := SMB1NegotiateRes.MaxVcCount zeroNegotiateRes;
          SMB1NegotiateRes.MaxBufSize := SMB1NegotiateRes.MaxBufSize zeroNegotiateRes;
          SMB1NegotiateRes.MaxRawSize := SMB1NegotiateRes.MaxRawSize zeroNegotiateRes;
          SMB1NegotiateRes.SessionKey := SMB1NegotiateRes.SessionKey zeroNegotiateRes;
          SMB1NegotiateRes.Capabilities := SMB1NegotiateRes.Capabilities zeroNegotiateRes;
          SMB1NegotiateRes.SystemTime := SMB1NegotiateRes.SystemTime zeroNegotiateRes;
          SMB1NegotiateRes.TimeZone := SMB1NegotiateRes.TimeZone zeroNegotiateRes;
          SMB1NegotiateRes.KeyLength := 50;
          SMB1NegotiateRes.ByteCount := SMB1NegotiateRes.ByteCount zeroNegotiateRes;
          SMB1NegotiateRes.SecurityBlob := SMB1NegotiateRes.SecurityBlob zeroNegotiateRes |},
       None).
Proof.
  apply (@SMB1NegotiateRes_shortest exampleEncoder zeroNegotiateRes exampleHeaderBytes
           exampleHeader 17 5 0 3 50); first [reflexivity | discriminate].
Defined.

(** A response whose word count is zero, "no dialect in common": the
    header and the word count are stored, DialectIndex becomes 0xFFFF, every
    other field keeps its value, and the bytes after the word count are not
    looked at. *)
Theorem SMB1NegotiateRes_no_dialect
  (E : Encoder) (self : SMB1NegotiateRes.t) (head rest : bytes) (header : SMB1Header.t) :
  blen head = 32 ->
  encoder_Unmarshal head (SMB1NegotiateRes.Header self) = (header, None) ->
  4 <= blen rest ->
  SMB1NegotiateRes.UnmarshalBinary self (head ++ [0] ++ rest)
  = Returns
      ({| SMB1NegotiateRes.Header := header;
          SMB1NegotiateRes.WordCount := 0;
          SMB1NegotiateRes.DialectIndex := 65535;
          SMB1NegotiateRes.SecurityMode := SMB1NegotiateRes.SecurityMode self;
          SMB1NegotiateRes.MaxMpxCount := SMB1NegotiateRes.MaxMpxCount self;
          SMB1NegotiateRes.MaxVcCount := SMB1NegotiateRes.MaxVcCount self;
          SMB1NegotiateRes.MaxBufSize := SMB1NegotiateRes.MaxBufSize self;
          SMB1NegotiateRes.MaxRawSize := SMB1NegotiateRes.MaxRawSize self;
          SMB1NegotiateRes.SessionKey := SMB1NegotiateRes.SessionKey self;
          SMB1NegotiateRes.Capabilities := SMB1NegotiateRes.Capabilities self;
          SMB1NegotiateRes.SystemTime := SMB1NegotiateRes.SystemTime self;
          SMB1NegotiateRes.TimeZone := SMB1NegotiateRes.TimeZone self;
          SMB1NegotiateRes.KeyLength := SMB1NegotiateRes.KeyLength self;
          SMB1NegotiateRes.ByteCount := SMB1NegotiateRes.ByteCount self;
          SMB1NegotiateRes.SecurityBlob := SMB1NegotiateRes.SecurityBlob self |}, None).
Proof.
  intros Hh Hu Hr.
  match goal with |- SMB1NegotiateRes.UnmarshalBinary self ?b = _ => set (buf := b) end.
  pose proof (holdsAt_start buf) as A0. unfold buf at 2 in A0.
  advance A0 A1. rewrite ?Hh in *.
  pose proof (holdsAt_blen A1) as Hlen. rewrite blen_app in Hlen.
  change (blen [0]) with 1 in Hlen.
  unfold SMB1NegotiateRes.UnmarshalBinary.
  rewrite length_check_passes by lia.
  rewrite (slice_holdsAt _ _ A0 (lo:=0) (hi:=32)) by (rewrite ?Hh; reflexivity).
  cbn [andThenO]. rewrite Hu.
  rewrite (index_holdsAt A1) by reflexivity. reflexivity.
Qed.

Lemma SMB1NegotiateRes_no_dialect_witness :
  @SMB1NegotiateRes.UnmarshalBinary exampleEncoder zeroNegotiateRes
    (exampleHeaderBytes ++ [0] ++ [255; 255; 0; 0])
  = Returns
      ({| SMB1NegotiateRes.Header := exampleHeader;
          SMB1NegotiateRes.WordCount := 0;
          SMB1NegotiateRes.DialectIndex := 65535;
          SMB1NegotiateRes.SecurityMode := SMB1NegotiateRes.SecurityMode zeroNegotiateRes;
          SMB1NegotiateRes.MaxMpxCount := SMB1NegotiateRes.MaxMpxCount zeroNegotiateRes;
          SMB1NegotiateRes.MaxVcCount := SMB1NegotiateRes.MaxVcCount zeroNegotiateRes;
          SMB1NegotiateRes.MaxBufSize := SMB1NegotiateRes.MaxBufSize zeroNegotiateRes;
          SMB1NegotiateRes.MaxRawSize := SMB1NegotiateRes.MaxRawSize zeroNegotiateRes;
          SMB1NegotiateRes.SessionKey := SMB1NegotiateRes.SessionKey zeroNegotiateRes;
          SMB1NegotiateRes.Capabilities := SMB1NegotiateRes.Capabilities zeroNegotiateRes;
          SMB1NegotiateRes.SystemTime := SMB1NegotiateRes.SystemTime zeroNegotiateRes;
          SMB1NegotiateRes.TimeZone := SMB1NegotiateRes.TimeZone zeroNegotiateRes;
          SMB1NegotiateRes.KeyLength := SMB1NegotiateRes.KeyLength zeroNegotiateRes;
          SMB1NegotiateRes.ByteCount := SMB1NegotiateRes.ByteCount zeroNegotiateRes;
          SMB1NegotiateRes.SecurityBlob := SMB1NegotiateRes.SecurityBlob zeroNegotiateRes |},
       None).
Proof.
  apply (@SMB1NegotiateRes_no_dialect exampleEncoder zeroNegotiateRes exampleHeaderBytes
           [255; 255; 0; 0] exampleHeader); first [reflexivity | cbn; lia].
Defined.

Lemma slice_in (buf : bytes) (lo hi : Z) :
  0 <= lo -> lo <= hi -> hi <= blen buf ->
  exists b, slice buf lo hi = Returns b /\ blen b = hi - lo.
Proof.
  intros H0 H1 H2. unfold slice.
  assert (((0 <=? lo) && (lo <=? hi) && (hi <=? blen buf)) = true) as -> by lia.
  eexists. split; [reflexivity |].
  unfold blen in *. rewrite length_firstn, length_skipn. lia.
Qed.

Lemma index_in (buf : bytes) (i : Z) :
  0 <= i -> i < blen buf -> exists v, index buf i = Returns v.
Proof.
  intros H0 H1. unfold index.
  assert (((0 <=? i) && (i <? blen buf)) = true) as -> by lia.
  eexists. reflexivity.
Qed.

Lemma Uint16_enough (b : bytes) : 2 <= blen b -> exists v, Uint16 b = Some v.
Proof.
  destruct b as [| b0 [| b1 b']]; rewrite ?blen_cons, ?blen_nil; intros H;
    [lia | lia | eexists; reflexivity].
Qed.

Lemma Uint32_enough (b : bytes) : 4 <= blen b -> exists v, Uint32 b = Some v.
Proof.
  destruct b as [| b0 [| b1 [| b2 [| b3 b']]]]; rewrite ?blen_cons, ?blen_nil; intros H;
    try lia.
  eexists. reflexivity.
Qed.

Lemma Uint64_enough (b : bytes) : 8 <= blen b -> exists v, Uint64 b = Some v.
Proof.
  destruct b as [| b0 [| b1 [| b2 [| b3 [| b4 [| b5 [| b6 [| b7 b']]]]]]]];
    rewrite ?blen_cons, ?blen_nil; intros H; try lia.
  eexists. reflexivity.
Qed.

(** Each guarded read returns, and never moves the offset back. *)
Lemma optionalByte_returns (buf : bytes) (old off : Z) :
  0 <= off ->
  exists v off', SMB1NegotiateRes.optionalByte buf old off = Returns (v, off') /\ off <= off'.
Proof.
  intros H. unfold SMB1NegotiateRes.optionalByte.
  destruct (Z.leb_spec (off + 1) (blen buf)).
  - destruct (@index_in buf off H ltac:(lia)) as [v ->].
    do 2 eexists. split; [reflexivity | lia].
  - do 2 eexists. split; [reflexivity | lia].
Qed.

Lemma optionalUint16_returns (buf : bytes) (old off : Z) :
  0 <= off ->
  exists v off', SMB1NegotiateRes.optionalUint16 buf old off = Returns (v, off') /\ off <= off'.
Proof.
  intros H. unfold SMB1NegotiateRes.optionalUint16.
  destruct (Z.leb_spec (off + 2) (blen buf)).
  - destruct (@slice_in buf off (off + 2) H ltac:(lia) ltac:(lia)) as (b & -> & Hb).
    destruct (@Uint16_enough b ltac:(lia)) as [v Hv]. cbn [andThenO]. rewrite Hv.
    do 2 eexists. split; [reflexivity | lia].
  - do 2 eexists. split; [reflexivity | lia].
Qed.

Lemma optionalInt16_returns (buf : bytes) (old off : Z) :
  0 <= off ->
  exists v off', SMB1NegotiateRes.optionalInt16 buf old off = Returns (v, off') /\ off <= off'.
Proof.
  intros H. unfold SMB1NegotiateRes.optionalInt16.
  destruct (Z.leb_spec (off + 2) (blen buf)).
  - destruct (@slice_in buf off (off + 2) H ltac:(lia) ltac:(lia)) as (b & -> & Hb).
    destruct (@Uint16_enough b ltac:(lia)) as [v Hv]. cbn [andThenO]. rewrite Hv.
    do 2 eexists. split; [reflexivity | lia].
  - do 2 eexists. split; [reflexivity | lia].
Qed.

Lemma optionalUint32_returns (buf : bytes) (old off : Z) :
  0 <= off ->
  exists v off', SMB1NegotiateRes.optionalUint32 buf old off = Returns (v, off') /\ off <= off'.
Proof.
  intros H. unfold SMB1NegotiateRes.optionalUint32.
  destruct (Z.leb_spec (off + 4) (blen buf)).
  - destruct (@slice_in buf off (off + 4) H ltac:(lia) ltac:(lia)) as (b & -> & Hb).
    destruct (@Uint32_enough b ltac:(lia)) as [v Hv]. cbn [andThenO]. rewrite Hv.
    do 2 eexists. split; [reflexivity | lia].
  - do 2 eexists. split; [reflexivity | lia].
Qed.

Lemma optionalUint64_returns (buf : bytes) (old off : Z) :
  0 <= off ->
  exists v off', SMB1NegotiateRes.optionalUint64 buf old off = Returns (v, off') /\ off <= off'.
Proof.
  intros H. unfold SMB1NegotiateRes.optionalUint64.
  destruct (Z.leb_spec (off + 8) (blen buf)).
  - destruct (@slice_in buf off (off + 8) H ltac:(lia) ltac:(lia)) as (b & -> & Hb).
    destruct (@Uint64_enough b ltac:(lia)) as [v Hv]. cbn [andThenO]. rewrite Hv.
    do 2 eexists. split; [reflexivity | lia].
  - do 2 eexists. split; [reflexivity | lia].
Qed.

Ltac guarded_read :=
  let v := fresh "v" in
  let off := fresh "off" in
  let Ev := fresh "Ev" in
  let Ho := fresh "Ho" in
  match goal with
  | |- context [SMB1NegotiateRes.optionalByte ?b ?old ?o] =>
      destruct (@optionalByte_returns b old o ltac:(lia)) as (v & off & Ev & Ho)
  | |- context [SMB1NegotiateRes.optionalUint16 ?b ?old ?o] =>
      destruct (@optionalUint16_returns b old o ltac:(lia)) as (v & off & Ev & Ho)
  | |- context [SMB1NegotiateRes.optionalInt16 ?b ?old ?o] =>
      destruct (@optionalInt16_returns b old o ltac:(lia)) as (v & off & Ev & Ho)
  | |- context [SMB1NegotiateRes.optionalUint32 ?b ?old ?o] =>
      destruct (@optionalUint32_returns b old o ltac:(lia)) as (v & off & Ev & Ho)
  | |- context [SMB1NegotiateRes.optionalUint64 ?b ?old ?o] =>
      destruct (@optionalUint64_returns b old o ltac:(lia)) as (v & off & Ev & Ho)
  end;
  rewrite Ev; cbn [andThenO].

(** [SMB1NegotiateRes.UnmarshalBinary] never panics: whatever the buffer
    and the receiver, every index and every slice it takes lies within the
    buffer. It returns an error in two cases only, a buffer of fewer than 37
    bytes and a header (the first 32 bytes) that the header codec refuses; a
    body that stops early is not an error. *)
Theorem SMB1NegotiateRes_never_panics
  (E : Encoder) (self : SMB1NegotiateRes.t) (buf : bytes) :
  exists res err,
    SMB1NegotiateRes.UnmarshalBinary self buf = Returns (res, err)
    /\ (err = None <->
        37 <= blen buf
        /\ snd (encoder_Unmarshal (firstn 32 buf) (SMB1NegotiateRes.Header self)) = None).
Proof.
  unfold SMB1NegotiateRes.UnmarshalBinary.
  destruct (Z.ltb_spec (blen buf) 37) as [Hs | Hl].
  - do 2 eexists. split; [reflexivity |]. split; [discriminate | intros [H _]; lia].
  - assert (Hhead : slice buf 0 32 = Returns (firstn 32 buf)).
    { unfold slice. assert (((0 <=? 0) && (0 <=? 32) && (32 <=? blen buf)) = true) as -> by lia.
      reflexivity. }
    rewrite Hhead. cbn [andThenO].
    destruct (encoder_Unmarshal (firstn 32 buf) (SMB1NegotiateRes.Header self))
      as [header [e |]]; cbn [snd].
    + do 2 eexists. split; [reflexivity |].
      split; [discriminate | intros [_ H]; discriminate H].
    + destruct (@index_in buf 32 ltac:(lia) ltac:(lia)) as [wordCount ->].
      cbn [andThenO].
      destruct (wordCount =? 0).
      { do 2 eexists. split; [reflexivity |]. split; [intros _; split; [lia | reflexivity] |
                                                      reflexivity]. }
      rewrite length_check_passes by lia.
      destruct (@slice_in buf (32 + 1) (32 + 1 + 2) ltac:(lia) ltac:(lia) ltac:(lia))
        as (b & -> & Hb).
      destruct (@Uint16_enough b ltac:(lia)) as [dialectIndex Hd].
      cbn [andThenO]. rewrite Hd. cbn [andThenO orPanic].
      do 10 guarded_read.
      match goal with
      | |- context [?o + 2 <=? blen buf] => destruct (Z.leb_spec (o + 2) (blen buf))
      end.
      * match goal with
        | |- context [slice buf ?o (?o + 2)] =>
            destruct (@slice_in buf o (o + 2) ltac:(lia) ltac:(lia) ltac:(lia))
              as (b2 & -> & Hb2)
        end.
        destruct (@Uint16_enough b2 ltac:(lia)) as [byteCount Hbc].
        cbn [andThenO]. rewrite Hbc. cbn [andThenO orPanic].
        match goal with
        | |- context [(0 <? ?k) && (?o + ?k <=? blen buf)] =>
            destruct (Z.ltb_spec 0 k); [destruct (Z.leb_spec (o + k) (blen buf)) |];
            cbn [andb];
            [ destruct (@slice_in buf o (o + k) ltac:(lia) ltac:(lia) ltac:(lia))
                as (blob & -> & _) | | ]
        end; cbn [andThenO];
          (do 2 eexists; split; [reflexivity |];
           split; [intros _; split; [lia | reflexivity] | reflexivity]).
      * cbn [andThenO]. do 2 eexists. split; [reflexivity |].
        split; [intros _; split; [lia | reflexivity] | reflexivity].
Qed.

(** ** The negotiate request *)

Lemma appendDialects_eq (dialects : list SMB1Dialect.t) (buffer : bytes) :
  SMB1NegotiateReq.appendDialects dialects buffer = buffer ++ dialectsBytes dialects.
Proof.
  revert buffer. unfold SMB1NegotiateReq.appendDialects.
  induction dialects as [| item rest IH]; intros buffer; cbn [fold_left];
    [rewrite app_nil_r; reflexivity |].
  rewrite IH. unfold dialectsBytes. cbn [flat_map]. rewrite <- !app_assoc. reflexivity.
Qed.

Lemma blen_utf8_EncodeRune (r : rune) : blen (utf8_EncodeRune r) = utf8_width r.
Proof.
  unfold utf8_EncodeRune, utf8_width.
  destruct (r <? 128); [reflexivity |]. destruct (r <? 2048); [reflexivity |].
  destruct (r <? 65536); reflexivity.
Qed.

Lemma blen_bytesOf (str : gostring) : blen (bytesOf str) = len str.
Proof.
  induction str as [| r rest IH]; [reflexivity |].
  unfold bytesOf in *. cbn [flat_map len]. rewrite blen_app, blen_utf8_EncodeRune, IH.
  reflexivity.
Qed.

Lemma blen_dialectsBytes (dialects : list SMB1Dialect.t) :
  blen (dialectsBytes dialects) = dialectsLength dialects.
Proof.
  induction dialects as [| item rest IH]; [reflexivity |].
  unfold dialectsBytes in *. cbn [flat_map dialectsLength fold_right].
  rewrite blen_app, blen_cons, blen_bytesOf, IH. unfold dialectsLength. lia.
Qed.

(** [SMB1NegotiateReq.MarshalBinary], when the header codec returns
    [hBuf]: the header, the word count, the byte count and the dialects,
    each dialect as 0x2 and the bytes of its string. The byte count that is
    written is the length of the dialects (one byte plus the length of the
    string for each) modulo 2^16; the [ByteCount] field of the request and
    the [BufferFormat] of its dialects are not looked at. *)
Theorem SMB1NegotiateReq_layout
  (E : Encoder) (self : SMB1NegotiateReq.t) (hBuf : bytes) :
  encoder_Marshal (SMB1NegotiateReq.Header self) = (hBuf, None) ->
  SMB1NegotiateReq.MarshalBinary self
  = (hBuf ++ [SMB1NegotiateReq.WordCount self]
       ++ PutUint16 le (uint16 (dialectsLength (SMB1NegotiateReq.Dialects self)))
       ++ dialectsBytes (SMB1NegotiateReq.Dialects self), None).
Proof.
  intros H. unfold SMB1NegotiateReq.MarshalBinary. rewrite H.
  rewrite appendDialects_eq. cbn [app]. rewrite blen_dialectsBytes.
  rewrite <- !app_assoc. reflexivity.
Qed.

Lemma SMB1NegotiateReq_layout_witness :
  @SMB1NegotiateReq.MarshalBinary exampleEncoder (fst (NewSMB1NegotiateReq [255; 83; 77; 66]))
  = (exampleHeaderBytes
       ++ [SMB1NegotiateReq.WordCount (fst (NewSMB1NegotiateReq [255; 83; 77; 66]))]
       ++ PutUint16 le
            (uint16 (dialectsLength
                       (SMB1NegotiateReq.Dialects (fst (NewSMB1NegotiateReq [255; 83; 77; 66])))))
       ++ dialectsBytes
            (SMB1NegotiateReq.Dialects (fst (NewSMB1NegotiateReq [255; 83; 77; 66]))), None).
Proof.
  apply (@SMB1NegotiateReq_layout exampleEncoder (fst (NewSMB1NegotiateReq [255; 83; 77; 66]))
           exampleHeaderBytes).
  reflexivity.
Defined.
